(** * CCLib point cloud: the core in-memory structure of [PointCloud.cpp]

    A shallow embedding of [CCLib::PointCloud] (src/CC/src/PointCloud.cpp):
    an indexed sequence of 3D points, the scalar fields attached to it, the
    two scalar-field roles, and the cached bounding box.

    Conventions of the embedding:
    - a [std::vector] is a [list]; [std::vector::resize(n)] is stdpp's
      [list.resize n fill], which keeps the first [n] elements and pads
      with the value-initialised [fill]; the capacity of [m_points], which
      [enableScalarField] and [reserve] read, is kept next to the points;
    - [int] values (field indices, roles) are [Z], sizes and point indices
      ([unsigned], [std::size_t]) are [nat]: the numbers of points and of
      fields are taken to stay within the range of their C++ types;
    - a method is a function from the cloud to its result and the new cloud;
    - an allocation that the source guards ([try]/[catch] of
      [std::bad_alloc], a [...Safe] primitive that returns [false]) takes a
      boolean saying whether the allocator serves it; an allocation the
      source does not guard leaves the method by exception and is not a
      return of the method, so it has no boolean;
    - the scalar fields are owned by the cloud alone and never aliased, so
      [m_scalarFields], a vector of pointers, is the list of the fields. *)

From Stdlib Require Import ZArith Bool Lia SpecFloat.
From stdpp Require Import base list strings.

Local Open Scope Z_scope.
Local Open Scope nat_scope.

(** ** Vectors of three components ([Vector3Tpl<T>]) *)

Module Vector3.
Record t (T : Type) := mk { x : T; y : T; z : T }.
Arguments mk {T} _ _ _.
Arguments x {T} _.
Arguments y {T} _.
Arguments z {T} _.
End Vector3.

(** ** What the file takes from the platform and from headers outside src/

    [PointCoordinateType] and [ScalarType] are the two floating-point
    typedefs of CCLib, with the C++ operators the source applies to them;
    [double] is the type of [ZERO_TOLERANCE] and of the scale test;
    [SquareMatrix] is the rotation of a [Transformation]. None of their
    declarations is in src/, so they are the parameters of the development.
    [vector_capacity cap n] is the capacity a [std::vector] of capacity
    [cap] has once it must hold [n > cap] elements (implementation-defined). *)

Class Platform := {
  PointCoordinateType : Type;
  ScalarType : Type;
  c_zero : PointCoordinateType;
  c_neq : PointCoordinateType → PointCoordinateType → bool;   (* operator != *)
  c_lt : PointCoordinateType → PointCoordinateType → bool;    (* operator <  *)
  c_add : PointCoordinateType → PointCoordinateType → PointCoordinateType;
  c_mul : PointCoordinateType → PointCoordinateType → PointCoordinateType;
  c_sqrt : PointCoordinateType → PointCoordinateType;
  s_zero : ScalarType;
  s_lt : ScalarType → ScalarType → bool;
  double : Type;
  to_double : PointCoordinateType → double;                   (* static_cast<double> *)
  d_one : double;
  d_sub : double → double → double;
  d_fabs : double → double;
  d_gt : double → double → bool;                              (* operator >  *)
  ZERO_TOLERANCE : double;
  SquareMatrix : Type;
  isValid : SquareMatrix → bool;
  mat_mul : SquareMatrix → Vector3.t PointCoordinateType → Vector3.t PointCoordinateType;
  vector_capacity : nat → nat → nat
}.

(** The laws of [<] that the bounding-box results rest on. IEEE comparison
    has both, not-a-number values included (they compare false with
    everything). *)
Class OrderLaws (P : Platform) := {
  c_lt_irrefl : ∀ a, c_lt a a = false;
  c_lt_trans : ∀ a b c, c_lt a b = true → c_lt b c = true → c_lt a c = true
}.

Section WithPlatform.
Context {P : Platform}.

(** ** [CCVector3] *)

Definition CCVector3 : Type := Vector3.t PointCoordinateType.

(** Modelled from the spec: [P *= s] of [Vector3Tpl] (CCGeom.h, not in
    src/), the uniform scale, component by component. *)
Definition v_scale (s : PointCoordinateType) (p : CCVector3) : CCVector3 :=
  Vector3.mk (c_mul (Vector3.x p) s) (c_mul (Vector3.y p) s) (c_mul (Vector3.z p) s).

(** Modelled from the spec: [P += T] of [Vector3Tpl], the translation,
    component by component. *)
Definition v_add (t p : CCVector3) : CCVector3 :=
  Vector3.mk (c_add (Vector3.x p) (Vector3.x t)) (c_add (Vector3.y p) (Vector3.y t))
             (c_add (Vector3.z p) (Vector3.z t)).

(** Modelled from the spec: [T.norm()] of [Vector3Tpl], the norm of the
    translation vector: the square root of the sum of the squared
    components. *)
Definition v_norm (p : CCVector3) : PointCoordinateType :=
  c_sqrt (c_add (c_add (c_mul (Vector3.x p) (Vector3.x p)) (c_mul (Vector3.y p) (Vector3.y p)))
                (c_mul (Vector3.z p) (Vector3.z p))).

(** [CCVector3 fakeP(0, 0, 0)], the canonical origin; it is also taken as
    the value of the points that [m_points.resize] adds. *)
Definition origin : CCVector3 := Vector3.mk c_zero c_zero c_zero.

(** [std::swap(v[i], v[j])] on a vector. The source only calls it with both
    indices in range; out of range (undefined in C++) it is the identity. *)
Definition vector_swap {A} (i j : nat) (v : list A) : list A :=
  match v !! i, v !! j with
  | Some a, Some b => <[j := a]> (<[i := b]> v)
  | _, _ => v
  end.

(** Capacity of a vector of capacity [cap] after it is made to hold [n]
    elements: unchanged while they fit. *)
Definition capacity_for (cap n : nat) : nat :=
  if n <=? cap then cap else vector_capacity cap n.

End WithPlatform.

(** ** [PointProjectionTools::Transformation] *)

Module Transformation.
Section Defs.
Context {P : Platform}.

(** Modelled from the spec: the struct is declared in
    PointProjectionTools.h, which is not in src/; it holds a uniform scale
    factor, a rotation and a translation, read as [trans.s], [trans.R] and
    [trans.T] by the source. *)
Record t := mk {
  R : SquareMatrix;          (* rotation *)
  T : CCVector3;             (* translation *)
  s : PointCoordinateType    (* scale *)
}.

End Defs.
End Transformation.

(** ** [ScalarField] *)

Module ScalarField.
Section Defs.
Context {P : Platform}.

(** Modelled from the spec: [ScalarField] is declared in ScalarField.h,
    which is not in src/. The spec gives its contract: a named, ordered
    sequence of scalar values with min/max statistics, a growth/shrink
    operation that either fully succeeds or leaves the field as it was and
    recomputes min/max only on success, and [swap(i, j)] that exchanges two
    slots in place. *)
Record t := mk {
  name : string;
  values : list ScalarType;
  minVal : ScalarType;
  maxVal : ScalarType
}.

(** Modelled from the spec: [new ScalarField(uniqueName)], an empty field. *)
Definition create (nm : string) : t := mk nm [] s_zero s_zero.

(** Modelled from the spec: [getName()], [setName(name)] and [size()] read
    and write the name and count the slots. *)
Definition getName (f : t) : string := name f.

Definition setName (nm : string) (f : t) : t :=
  mk nm (values f) (minVal f) (maxVal f).

Definition size (f : t) : nat := length (values f).

(** Modelled from the spec: the running min/max of a sequence of values,
    started at its first element; an empty one has (0, 0). *)
Definition min_max_step (acc : ScalarType * ScalarType) (v : ScalarType)
  : ScalarType * ScalarType :=
  (if s_lt v (fst acc) then v else fst acc, if s_lt (snd acc) v then v else snd acc).

Definition min_max_of (vs : list ScalarType) : ScalarType * ScalarType :=
  match vs with
  | [] => (s_zero, s_zero)
  | v :: rest => fold_left min_max_step rest (v, v)
  end.

(** Modelled from the spec: [computeMinAndMax()] recomputes the statistics
    from the current values. *)
Definition computeMinAndMax (f : t) : t :=
  mk (name f) (values f) (fst (min_max_of (values f))) (snd (min_max_of (values f))).

(** Modelled from the spec: [resize(count)], the unguarded resize of the
    value array; new slots are value-initialised. *)
Definition resize (count : nat) (f : t) : t :=
  mk (name f) (list.resize count s_zero (values f)) (minVal f) (maxVal f).

(** Modelled from the spec: [resizeSafe(count)] either fully succeeds, with
    min/max recomputed, or fails without side effects and returns [false].
    [alloc_ok] says whether the allocator serves the request. *)
Definition resizeSafe (alloc_ok : bool) (count : nat) (f : t) : bool * t :=
  if alloc_ok then (true, computeMinAndMax (resize count f)) else (false, f).

(** Modelled from the spec: [reserveSafe(count)] pre-allocates capacity and
    never changes the values; the capacity of a field is read by no method
    of the cloud and is not part of [t]. *)
Definition reserveSafe (alloc_ok : bool) (count : nat) (f : t) : bool * t :=
  (alloc_ok, f).

(** Modelled from the spec: [swap(i, j)] exchanges two slots in place. *)
Definition swap (i j : nat) (f : t) : t :=
  mk (name f) (vector_swap i j (values f)) (minVal f) (maxVal f).

(** Modelled from the spec: [setValue(index, value)] writes one slot. *)
Definition setValue (index : nat) (v : ScalarType) (f : t) : t :=
  mk (name f) (<[index := v]> (values f)) (minVal f) (maxVal f).

(** Modelled from the spec: [getValue(index)] reads one slot; there is
    none to read (undefined in C++) beyond the last. *)
Definition getValue (index : nat) (f : t) : option ScalarType := values f !! index.

(** The statistics of [f] are those of its current values. *)
Definition up_to_date (f : t) : Prop :=
  minVal f = fst (min_max_of (values f)) ∧ maxVal f = snd (min_max_of (values f)).

End Defs.
End ScalarField.

(** ** [BoundingBox] *)

Module BoundingBox.
Section Defs.
Context {P : Platform}.

(** Modelled from the spec: [BoundingBox] is declared in BoundingBox.h,
    which is not in src/. The spec describes the cache as a running min/max
    accumulator with a validity flag: each point is folded into it, and the
    cache is valid once points have been folded. *)
Record t := mk {
  m_bbMin : CCVector3;
  m_bbMax : CCVector3;
  m_valid : bool
}.

(** Modelled from the spec: the minimum and the maximum of two
    coordinates, by [<]. *)
Definition c_min (a b : PointCoordinateType) : PointCoordinateType :=
  if c_lt a b then a else b.

Definition c_max (a b : PointCoordinateType) : PointCoordinateType :=
  if c_lt b a then a else b.

(** Modelled from the spec: [clear()] empties the accumulator. *)
Definition clear (b : t) : t := mk origin origin false.

(** Modelled from the spec: [add(P)] folds one point into the running
    min/max; the first point folded into an empty accumulator is both
    corners, and the accumulator becomes valid. *)
Definition add (p : CCVector3) (b : t) : t :=
  if m_valid b then
    mk (Vector3.mk (c_min (Vector3.x p) (Vector3.x (m_bbMin b)))
                   (c_min (Vector3.y p) (Vector3.y (m_bbMin b)))
                   (c_min (Vector3.z p) (Vector3.z (m_bbMin b))))
       (Vector3.mk (c_max (Vector3.x p) (Vector3.x (m_bbMax b)))
                   (c_max (Vector3.y p) (Vector3.y (m_bbMax b)))
                   (c_max (Vector3.z p) (Vector3.z (m_bbMax b))))
       true
  else mk p p true.

(** Modelled from the spec: [isValid()] and [setValidity(state)] read and
    write the flag, [minCorner()] and [maxCorner()] read the corners. *)
Definition isValid (b : t) : bool := m_valid b.

Definition setValidity (state : bool) (b : t) : t := mk (m_bbMin b) (m_bbMax b) state.

Definition minCorner (b : t) : CCVector3 := m_bbMin b.

Definition maxCorner (b : t) : CCVector3 := m_bbMax b.

End Defs.
End BoundingBox.

(** ** [PointCloud] *)

Module PointCloud.
Section Defs.
Context {P : Platform}.

(** The data members that PointCloud.cpp reads and writes (their
    declarations are in PointCloud.h, not in src/). *)
Record t := mk {
  m_points : list CCVector3;
  m_capacity : nat;                          (* m_points.capacity() *)
  m_bbox : BoundingBox.t;
  m_currentPointIndex : nat;
  m_scalarFields : list ScalarField.t;
  m_currentInScalarFieldIndex : Z;
  m_currentOutScalarFieldIndex : Z
}.

Definition set_points (pts : list CCVector3) (c : t) : t :=
  mk pts (m_capacity c) (m_bbox c) (m_currentPointIndex c) (m_scalarFields c)
     (m_currentInScalarFieldIndex c) (m_currentOutScalarFieldIndex c).

Definition set_capacity (cap : nat) (c : t) : t :=
  mk (m_points c) cap (m_bbox c) (m_currentPointIndex c) (m_scalarFields c)
     (m_currentInScalarFieldIndex c) (m_currentOutScalarFieldIndex c).

Definition set_bbox (b : BoundingBox.t) (c : t) : t :=
  mk (m_points c) (m_capacity c) b (m_currentPointIndex c) (m_scalarFields c)
     (m_currentInScalarFieldIndex c) (m_currentOutScalarFieldIndex c).

Definition set_currentPointIndex (i : nat) (c : t) : t :=
  mk (m_points c) (m_capacity c) (m_bbox c) i (m_scalarFields c)
     (m_currentInScalarFieldIndex c) (m_currentOutScalarFieldIndex c).

Definition set_scalarFields (fs : list ScalarField.t) (c : t) : t :=
  mk (m_points c) (m_capacity c) (m_bbox c) (m_currentPointIndex c) fs
     (m_currentInScalarFieldIndex c) (m_currentOutScalarFieldIndex c).

Definition set_currentIn (i : Z) (c : t) : t :=
  mk (m_points c) (m_capacity c) (m_bbox c) (m_currentPointIndex c) (m_scalarFields c)
     i (m_currentOutScalarFieldIndex c).

Definition set_currentOut (i : Z) (c : t) : t :=
  mk (m_points c) (m_capacity c) (m_bbox c) (m_currentPointIndex c) (m_scalarFields c)
     (m_currentInScalarFieldIndex c) i.

(** [PointCloud::PointCloud()]: no point, no field, both roles unset, the
    cursor at 0; the cache starts invalid. *)
Definition empty : t :=
  mk [] 0 (BoundingBox.mk origin origin false) 0 [] (-1)%Z (-1)%Z.

(** Modelled from the spec: [size()] is declared in PointCloud.h, which is
    not in src/; the spec gives [len(points) == size()]. *)
Definition size (c : t) : nat := length (m_points c).

(** [m_points.push_back(p)] *)
Definition push_back (p : CCVector3) (c : t) : t :=
  set_capacity (capacity_for (m_capacity c) (S (length (m_points c))))
    (set_points (m_points c ++ [p]) c).

(** [m_points.resize(n)] *)
Definition resize_points (n : nat) (c : t) : t :=
  set_capacity (capacity_for (m_capacity c) n)
    (set_points (list.resize n origin (m_points c)) c).

Definition getScalarField (index : Z) (c : t) : option ScalarField.t :=
  if (0 <=? index)%Z && (index <? Z.of_nat (length (m_scalarFields c)))%Z
  then m_scalarFields c !! Z.to_nat index
  else None.

Definition getScalarFieldName (index : Z) (c : t) : option string :=
  if (0 <=? index)%Z && (index <? Z.of_nat (length (m_scalarFields c)))%Z
  then ScalarField.getName <$> m_scalarFields c !! Z.to_nat index
  else None.

(** Modelled from the spec: [getCurrentInScalarField()] and
    [getCurrentOutScalarField()] are declared in PointCloud.h, which is not
    in src/; a role is unset (-1) or the index of the field it designates. *)
Definition getCurrentInScalarField (c : t) : option ScalarField.t :=
  getScalarField (m_currentInScalarFieldIndex c) c.

Definition getCurrentOutScalarField (c : t) : option ScalarField.t :=
  getScalarField (m_currentOutScalarFieldIndex c) c.

Definition invalidateBoundingBox (c : t) : t :=
  set_bbox (BoundingBox.setValidity false (m_bbox c)) c.

Definition placeIteratorAtBeginning (c : t) : t := set_currentPointIndex 0 c.

Definition getNextPoint (c : t) : option CCVector3 * t :=
  if m_currentPointIndex c <? length (m_points c)
  then (m_points c !! m_currentPointIndex c,
        set_currentPointIndex (S (m_currentPointIndex c)) c)
  else (None, c).

Definition deleteAllScalarFields (c : t) : t :=
  set_scalarFields [] (set_currentOut (-1)%Z (set_currentIn (-1)%Z c)).

Definition clear (c : t) : t :=
  invalidateBoundingBox
    (placeIteratorAtBeginning (deleteAllScalarFields (set_points [] c))).

(** The loop of [forEach]: [action(m_points[i], out[i])] for [i < size()];
    the action reads the point and may write the scalar slot. Slots that
    the output field lacks (undefined in C++) are not visited. *)
Fixpoint forEach_values (action : CCVector3 → ScalarType → ScalarType)
    (pts : list CCVector3) (vals : list ScalarType) : list ScalarType :=
  match pts, vals with
  | p :: pts', v :: vals' => action p v :: forEach_values action pts' vals'
  | _, _ => vals
  end.

Definition forEach (action : CCVector3 → ScalarType → ScalarType) (c : t) : t :=
  match getCurrentOutScalarField c with
  | None => c
  | Some f =>
      set_scalarFields
        (<[Z.to_nat (m_currentOutScalarFieldIndex c) :=
             ScalarField.mk (ScalarField.name f)
               (forEach_values action (m_points c) (ScalarField.values f))
               (ScalarField.minVal f) (ScalarField.maxVal f)]> (m_scalarFields c)) c
  end.

(** [getBoundingBox(bbMin, bbMax)]: the two corners and the cloud with its
    cache as the call leaves it. *)
Definition getBoundingBox (c : t) : CCVector3 * CCVector3 * t :=
  let b :=
    if negb (BoundingBox.isValid (m_bbox c))
    then fold_left (λ b p, BoundingBox.add p b) (m_points c) (BoundingBox.clear (m_bbox c))
    else m_bbox c in
  (BoundingBox.minCorner b, BoundingBox.maxCorner b, set_bbox b c).

(** The scalar-field loop of [resize]: [i] is the loop index, [done] the
    fields already resized, [todo] those from index [i] on. When field [i]
    fails, the fields of [done] are taken back to [oldCount]. *)
Fixpoint resize_fields (sf_ok : nat → bool) (newCount oldCount i : nat)
    (done todo : list ScalarField.t) : bool * list ScalarField.t :=
  match todo with
  | [] => (true, done)
  | f :: rest =>
      let r := ScalarField.resizeSafe (sf_ok i) newCount f in
      if negb (fst r)
      then (false,
            map (λ g, ScalarField.computeMinAndMax (ScalarField.resize oldCount g)) done
              ++ snd r :: rest)
      else resize_fields sf_ok newCount oldCount (S i)
             (done ++ [ScalarField.computeMinAndMax (snd r)]) rest
  end.

(** [resize(newCount)]. [pts_ok] says whether [m_points.resize] gets its
    memory, [sf_ok i] whether [resizeSafe] of field [i] does. *)
Definition resize (pts_ok : bool) (sf_ok : nat → bool) (newCount : nat) (c : t) : bool * t :=
  let oldCount := length (m_points c) in
  if negb pts_ok then (false, c)
  else
    let c1 := resize_points newCount c in
    let r := resize_fields sf_ok newCount oldCount 0 [] (m_scalarFields c1) in
    if fst r then (true, set_scalarFields (snd r) c1)
    else (false, resize_points oldCount (set_scalarFields (snd r) c1)).

(** The scalar-field loop of [reserve]. *)
Fixpoint reserve_fields (sf_ok : nat → bool) (newCapacity i : nat)
    (todo : list ScalarField.t) : bool :=
  match todo with
  | [] => true
  | f :: rest =>
      if negb (fst (ScalarField.reserveSafe (sf_ok i) newCapacity f)) then false
      else reserve_fields sf_ok newCapacity (S i) rest
  end.

Definition reserve (pts_ok : bool) (sf_ok : nat → bool) (newCapacity : nat) (c : t)
  : bool * t :=
  if negb pts_ok then (false, c)
  else
    let c1 := set_capacity (capacity_for (m_capacity c) newCapacity) c in
    if reserve_fields sf_ok newCapacity 0 (m_scalarFields c1)
    then (newCapacity <=? m_capacity c1, c1)
    else (false, c1).

(** [addPoint(P)] *)
Definition addPoint (p : CCVector3) (c : t) : t :=
  let c1 :=
    if c_neq (Vector3.x p) (Vector3.x p)
       || c_neq (Vector3.y p) (Vector3.y p)
       || c_neq (Vector3.z p) (Vector3.z p)
    then push_back origin c
    else push_back p c in
  set_bbox (BoundingBox.setValidity false (m_bbox c1)) c1.

(** The three guards of [applyTransformation]. *)
Definition scale_applies (trans : Transformation.t) : bool :=
  d_gt (d_fabs (d_sub (to_double (Transformation.s trans)) d_one)) ZERO_TOLERANCE.

Definition rotation_applies (trans : Transformation.t) : bool := isValid (Transformation.R trans).

Definition translation_applies (trans : Transformation.t) : bool :=
  d_gt (to_double (v_norm (Transformation.T trans))) ZERO_TOLERANCE.

(** The three phases of [applyTransformation], in the order of the source:
    each is a loop over [m_points] under its guard, followed by
    [m_bbox.setValidity(false)]. *)
Definition scale_pass (trans : Transformation.t) (c : t) : t :=
  if scale_applies trans
  then invalidateBoundingBox (set_points (map (v_scale (Transformation.s trans)) (m_points c)) c)
  else c.

Definition rotation_pass (trans : Transformation.t) (c : t) : t :=
  if rotation_applies trans
  then invalidateBoundingBox (set_points (map (mat_mul (Transformation.R trans)) (m_points c)) c)
  else c.

Definition translation_pass (trans : Transformation.t) (c : t) : t :=
  if translation_applies trans
  then invalidateBoundingBox (set_points (map (v_add (Transformation.T trans)) (m_points c)) c)
  else c.

(** [applyTransformation(trans)] *)
Definition applyTransformation (trans : Transformation.t) (c : t) : t :=
  translation_pass trans (rotation_pass trans (scale_pass trans c)).

Definition isScalarFieldEnabled (c : t) : bool :=
  match getCurrentInScalarField c with
  | None => false
  | Some f =>
      negb (ScalarField.size f =? 0) && (length (m_points c) <=? ScalarField.size f)
  end.

(** The scan of [getScalarFieldIndexByName], from index [i] on; [strcmp]
    returning 0 is equality of the two names. *)
Fixpoint index_by_name (nm : string) (i : nat) (fs : list ScalarField.t) : Z :=
  match fs with
  | [] => (-1)%Z
  | f :: rest =>
      if String.eqb (ScalarField.getName f) nm then Z.of_nat i
      else index_by_name nm (S i) rest
  end.

Definition getScalarFieldIndexByName (nm : string) (c : t) : Z :=
  index_by_name nm 0 (m_scalarFields c).

(** [addScalarField(uniqueName)]. [size_ok] says whether
    [resizeSafe(size())] got its memory, [vec_ok] whether
    [m_scalarFields.resize] did. [new ScalarField] at line 292 is a throwing
    [new] outside the [try]: it returns an object or leaves the method by
    [std::bad_alloc], so [!sf] never holds in a call that returns, and the
    calls that return are the ones described here. *)
Definition addScalarField (size_ok vec_ok : bool) (uniqueName : string) (c : t)
  : Z * t :=
  if (0 <=? getScalarFieldIndexByName uniqueName c)%Z then ((-1)%Z, c)
  else
    let sf := ScalarField.create uniqueName in
    let r := ScalarField.resizeSafe size_ok (size c) sf in
    if negb (size c =? 0) && negb (fst r) then ((-1)%Z, c)
    else
      let sf' := if size c =? 0 then sf else snd r in
      if vec_ok
      then
        let fs := list.resize (length (m_scalarFields c) + 1) sf' (m_scalarFields c) in
        ((Z.of_nat (length fs) - 1)%Z, set_scalarFields fs c)
      else ((-1)%Z, c).

(** [enableScalarField()]. The first two booleans are those of the
    [addScalarField] call, [resize_ok] that of the final [resizeSafe]. *)
Definition enableScalarField (size_ok vec_ok resize_ok : bool) (c : t) : bool * t :=
  let finish (c2 : t) : bool * t :=
    let c3 :=
      match getCurrentOutScalarField c2 with
      | None => set_currentOut (m_currentInScalarFieldIndex c2) c2
      | Some _ => c2
      end in
    match getCurrentInScalarField c3 with
    | Some f =>
        let r := ScalarField.resizeSafe resize_ok (m_capacity c3) f in
        (fst r,
         set_scalarFields
           (<[Z.to_nat (m_currentInScalarFieldIndex c3) := snd r]> (m_scalarFields c3)) c3)
    | None => (false, c3)
    end in
  match getCurrentInScalarField c with
  | Some _ => finish c
  | None =>
      let c1 := set_currentIn (getScalarFieldIndexByName "Default" c) c in
      if (m_currentInScalarFieldIndex c1 <? 0)%Z
      then
        let r := addScalarField size_ok vec_ok "Default" c1 in
        let c2 := set_currentIn (fst r) (snd r) in
        if (m_currentInScalarFieldIndex c2 <? 0)%Z then (false, c2)
        else finish c2
      else finish c1
  end.

(** [setPointScalarValue]: the source asserts that the input role is valid
    and writes through it; without a valid role (undefined in C++) the model
    leaves the cloud as it is. *)
Definition setPointScalarValue (pointIndex : nat) (value : ScalarType) (c : t) : t :=
  match getCurrentInScalarField c with
  | Some f =>
      set_scalarFields
        (<[Z.to_nat (m_currentInScalarFieldIndex c) :=
             ScalarField.setValue pointIndex value f]> (m_scalarFields c)) c
  | None => c
  end.

Definition getPointScalarValue (pointIndex : nat) (c : t) : option ScalarType :=
  match getCurrentOutScalarField c with
  | Some f => ScalarField.getValue pointIndex f
  | None => None
  end.

(** [deleteScalarField(index)] *)
Definition deleteScalarField (index : Z) (c : t) : t :=
  let sfCount := Z.of_nat (length (m_scalarFields c)) in
  if (index <? 0)%Z || (sfCount <=? index)%Z then c
  else
    let c1 := if (index =? m_currentInScalarFieldIndex c)%Z
              then set_currentIn (-1)%Z c else c in
    let c2 := if (index =? m_currentOutScalarFieldIndex c1)%Z
              then set_currentOut (-1)%Z c1 else c1 in
    let lastIndex := (sfCount - 1)%Z in
    let c5 :=
      if (index <? lastIndex)%Z
      then
        let c3 := set_scalarFields
                    (vector_swap (Z.to_nat index) (Z.to_nat lastIndex) (m_scalarFields c2))
                    c2 in
        let c4 := if (lastIndex =? m_currentInScalarFieldIndex c3)%Z
                  then set_currentIn index c3 else c3 in
        if (lastIndex =? m_currentOutScalarFieldIndex c4)%Z
        then set_currentOut index c4 else c4
      else c2 in
    set_scalarFields (removelast (m_scalarFields c5)) c5.

(** [renameScalarField(index, newName)] *)
Definition renameScalarField (index : Z) (newName : string) (c : t) : bool * t :=
  if (getScalarFieldIndexByName newName c <? 0)%Z
  then
    match getScalarField index c with
    | Some sf =>
        (true,
         set_scalarFields
           (<[Z.to_nat index := ScalarField.setName newName sf]> (m_scalarFields c)) c)
    | None => (false, c)
    end
  else (false, c).

(** [swapPoints(firstIndex, secondIndex)] *)
Definition swapPoints (firstIndex secondIndex : nat) (c : t) : t :=
  if (firstIndex =? secondIndex)
     || (length (m_points c) <=? firstIndex)
     || (length (m_points c) <=? secondIndex)
  then c
  else
    set_scalarFields (map (ScalarField.swap firstIndex secondIndex) (m_scalarFields c))
      (set_points (vector_swap firstIndex secondIndex (m_points c)) c).

(** ** The calls a client can make, and the states they reach *)

Inductive call : Type :=
  | Clear
  | ForEach (action : CCVector3 → ScalarType → ScalarType)
  | GetBoundingBox
  | InvalidateBoundingBox
  | PlaceIteratorAtBeginning
  | GetNextPoint
  | Resize (pts_ok : bool) (sf_ok : nat → bool) (newCount : nat)
  | Reserve (pts_ok : bool) (sf_ok : nat → bool) (newCapacity : nat)
  | AddPoint (p : CCVector3)
  | ApplyTransformation (trans : Transformation.t)
  | EnableScalarField (size_ok vec_ok resize_ok : bool)
  | SetPointScalarValue (pointIndex : nat) (value : ScalarType)
  | AddScalarField (size_ok vec_ok : bool) (uniqueName : string)
  | DeleteScalarField (index : Z)
  | DeleteAllScalarFields
  | RenameScalarField (index : Z) (newName : string)
  | SwapPoints (firstIndex secondIndex : nat).

(** The cloud after one call. *)
Definition run (k : call) (c : t) : t :=
  match k with
  | Clear => clear c
  | ForEach action => forEach action c
  | GetBoundingBox => snd (getBoundingBox c)
  | InvalidateBoundingBox => invalidateBoundingBox c
  | PlaceIteratorAtBeginning => placeIteratorAtBeginning c
  | GetNextPoint => snd (getNextPoint c)
  | Resize pts_ok sf_ok n => snd (resize pts_ok sf_ok n c)
  | Reserve pts_ok sf_ok n => snd (reserve pts_ok sf_ok n c)
  | AddPoint p => addPoint p c
  | ApplyTransformation trans => applyTransformation trans c
  | EnableScalarField b d e => snd (enableScalarField b d e c)
  | SetPointScalarValue i v => setPointScalarValue i v c
  | AddScalarField b d nm => snd (addScalarField b d nm c)
  | DeleteScalarField i => deleteScalarField i c
  | DeleteAllScalarFields => deleteAllScalarFields c
  | RenameScalarField i nm => snd (renameScalarField i nm c)
  | SwapPoints i j => swapPoints i j c
  end.

(** The clouds a client can hold: the default-constructed one and whatever
    a sequence of calls makes of it. *)
Inductive reachable : t → Prop :=
  | reachable_empty : reachable empty
  | reachable_run k c : reachable c → reachable (run k c).

Definition run_all (ks : list call) (c : t) : t := fold_left (λ c k, run k c) ks c.

End Defs.
End PointCloud.

(** ** The vocabulary of the specification *)

Section Vocabulary.
Context {P : Platform}.

(** What [addPoint] stores for [p]: the origin when a component is not
    equal to itself, [p] otherwise. *)
Definition has_nan_component (p : CCVector3) : bool :=
  c_neq (Vector3.x p) (Vector3.x p)
  || c_neq (Vector3.y p) (Vector3.y p)
  || c_neq (Vector3.z p) (Vector3.z p).

Definition stored_point (p : CCVector3) : CCVector3 :=
  if has_nan_component p then origin else p.

(** [lo] and [hi] are a minimum and a maximum of [xs]: both occur in [xs],
    nothing in [xs] is below [lo] or above [hi]. *)
Definition is_min_max (xs : list PointCoordinateType) (lo hi : PointCoordinateType) : Prop :=
  lo ∈ xs ∧ hi ∈ xs ∧ ∀ a, a ∈ xs → c_lt a lo = false ∧ c_lt hi a = false.

(** [bbMin] and [bbMax] are the coordinate-wise minimum and maximum corners
    of the points [pts]. *)
Definition exact_box (pts : list CCVector3) (bbMin bbMax : CCVector3) : Prop :=
  is_min_max (map Vector3.x pts) (Vector3.x bbMin) (Vector3.x bbMax)
  ∧ is_min_max (map Vector3.y pts) (Vector3.y bbMin) (Vector3.y bbMax)
  ∧ is_min_max (map Vector3.z pts) (Vector3.z bbMin) (Vector3.z bbMax).

(** A cache flagged valid holds the exact box of the current points. *)
Definition cache_coherent (c : PointCloud.t) : Prop :=
  BoundingBox.m_valid (PointCloud.m_bbox c) = true →
  exact_box (PointCloud.m_points c)
            (BoundingBox.m_bbMin (PointCloud.m_bbox c))
            (BoundingBox.m_bbMax (PointCloud.m_bbox c)).

(** The corners that [getBoundingBox] returns are the exact box of the
    current points. *)
Definition reports_exact_box (c : PointCloud.t) : Prop :=
  exact_box (PointCloud.m_points c)
            (fst (fst (PointCloud.getBoundingBox c)))
            (snd (fst (PointCloud.getBoundingBox c))).

(** The calls that change the point count without touching the cache. *)
Definition is_resize (k : PointCloud.call) : bool :=
  match k with
  | PointCloud.Resize _ _ _ => true
  | _ => false
  end.

(** A role is unset or a valid index into a collection of [n] fields. *)
Definition role_ok (n : nat) (r : Z) : Prop :=
  r = (-1)%Z ∨ (0 ≤ r < Z.of_nat n)%Z.

Definition roles_ok (c : PointCloud.t) : Prop :=
  role_ok (length (PointCloud.m_scalarFields c)) (PointCloud.m_currentInScalarFieldIndex c)
  ∧ role_ok (length (PointCloud.m_scalarFields c)) (PointCloud.m_currentOutScalarFieldIndex c).

(** The role that [deleteScalarField index] leaves for a role [r], in a
    collection whose last index is [lastIndex]. *)
Definition role_after_delete (index lastIndex r : Z) : Z :=
  if (r =? index)%Z then (-1)%Z
  else if (index <? lastIndex)%Z && (r =? lastIndex)%Z then index
  else r.

Definition field_names (c : PointCloud.t) : list string :=
  map ScalarField.name (PointCloud.m_scalarFields c).

(** Some field other than the one at [index] is named [nm]. *)
Definition owned_by_another (index : Z) (nm : string) (c : PointCloud.t) : Prop :=
  ∃ (k : nat) f, Z.of_nat k ≠ index
    ∧ PointCloud.m_scalarFields c !! k = Some f ∧ ScalarField.name f = nm.

(** One point through the three phases of a transformation, each under its
    guard: the scale, then the rotation, then the translation. *)
Definition scale_phase (trans : Transformation.t) (p : CCVector3) : CCVector3 :=
  if PointCloud.scale_applies trans then v_scale (Transformation.s trans) p else p.

Definition rotation_phase (trans : Transformation.t) (p : CCVector3) : CCVector3 :=
  if PointCloud.rotation_applies trans then mat_mul (Transformation.R trans) p else p.

Definition translation_phase (trans : Transformation.t) (p : CCVector3) : CCVector3 :=
  if PointCloud.translation_applies trans then v_add (Transformation.T trans) p else p.

Definition transformed (trans : Transformation.t) (p : CCVector3) : CCVector3 :=
  translation_phase trans (rotation_phase trans (scale_phase trans p)).

Definition some_phase_applies (trans : Transformation.t) : bool :=
  PointCloud.scale_applies trans
  || PointCloud.rotation_applies trans
  || PointCloud.translation_applies trans.


(** What [resize] makes of a field whose safe resize succeeds, and of such
    a field when it takes it back to the old count. *)
Definition grown (newCount : nat) (f : ScalarField.t) : ScalarField.t :=
  ScalarField.computeMinAndMax (snd (ScalarField.resizeSafe true newCount f)).

Definition taken_back (oldCount : nat) (g : ScalarField.t) : ScalarField.t :=
  ScalarField.computeMinAndMax (ScalarField.resize oldCount g).

(** The first index at which the allocator refuses a scalar field. *)
Definition first_failure (sf_ok : nat → bool) (i : nat) : Prop :=
  sf_ok i = false ∧ ∀ j, j < i → sf_ok j = true.

End Vocabulary.

(** ** An instance: IEEE binary32 coordinates and scalars

    The default build of CCLib has [float] for both typedefs. Values are
    [spec_float]s of the Standard Library with the operations of precision
    24 and maximal exponent 128; [double] has precision 53 and maximal
    exponent 1024. The matrix is a list of rows, valid when it is not
    empty; the vector growth is the doubling one. *)

Module Float32.

Definition float : Type := spec_float.

Definition of_Z (n : Z) : float := binary_normalize 24 128 n 0 false.

Definition nan : float := S754_nan.

Definition as_double (a : float) : spec_float :=
  match a with
  | S754_finite sg m e => binary_normalize 53 1024 (cond_Zopp sg (Z.pos m)) e sg
  | _ => a
  end.

Definition dot (r p : Vector3.t float) : float :=
  SFadd 24 128
    (SFadd 24 128 (SFmul 24 128 (Vector3.x r) (Vector3.x p))
                  (SFmul 24 128 (Vector3.y r) (Vector3.y p)))
    (SFmul 24 128 (Vector3.z r) (Vector3.z p)).

Definition rows_mul (m : list (Vector3.t float)) (p : Vector3.t float) : Vector3.t float :=
  match m with
  | [r0; r1; r2] => Vector3.mk (dot r0 p) (dot r1 p) (dot r2 p)
  | _ => p
  end.

#[global] Instance platform : Platform := {|
  PointCoordinateType := float;
  ScalarType := float;
  c_zero := S754_zero false;
  c_neq := λ a b, negb (SFeqb a b);
  c_lt := SFltb;
  c_add := SFadd 24 128;
  c_mul := SFmul 24 128;
  c_sqrt := SFsqrt 24 128;
  s_zero := S754_zero false;
  s_lt := SFltb;
  double := spec_float;
  to_double := as_double;
  d_one := binary_normalize 53 1024 1 0 false;
  d_sub := SFsub 53 1024;
  d_fabs := SFabs;
  d_gt := λ a b, SFltb b a;
  ZERO_TOLERANCE := binary_normalize 53 1024 1 (-52) false;
  SquareMatrix := list (Vector3.t float);
  isValid := λ m, negb (length m =? 0);
  mat_mul := rows_mul;
  vector_capacity := λ cap n, Nat.max n (2 * cap)
|}.

Definition vec (a b c : float) : @CCVector3 platform := Vector3.mk a b c.

Definition pt (a b c : Z) : @CCVector3 platform := vec (of_Z a) (of_Z b) (of_Z c).

Definition transformation (rows : list (Vector3.t float)) (t : Vector3.t float) (k : float)
  : Transformation.t :=
  @Transformation.mk platform rows t k.

(** No rotation, no translation, scale [k]. *)
Definition scaling (k : Z) : Transformation.t := transformation [] (pt 0 0 0) (of_Z k).

(** Scale 2, a quarter turn about the z axis, one unit along x. *)
Definition similarity : Transformation.t :=
  transformation [pt 0 (-1) 0; pt 1 0 0; pt 0 0 1] (pt 1 0 0) (of_Z 2).

Definition always (b : bool) : nat → bool := λ _, b.

(** The allocator serves the safe resize of field 0 and refuses the next. *)
Definition only_first : nat → bool := λ i, i =? 0.

(** ** Some clouds, each given by the calls that build it *)

Definition start : PointCloud.t := @PointCloud.empty platform.

(** The spec's scenario: three points, then a field named "Default". *)
Definition triangle : PointCloud.t :=
  PointCloud.run_all
    [PointCloud.AddPoint (pt 0 0 0); PointCloud.AddPoint (pt 1 0 0);
     PointCloud.AddPoint (pt 0 1 0);
     PointCloud.AddScalarField true true "Default"] start.

(** One point, then two fields: both fields have one slot. *)
Definition aligned : PointCloud.t :=
  PointCloud.run_all
    [PointCloud.AddPoint (pt 1 1 1);
     PointCloud.AddScalarField true true "A";
     PointCloud.AddScalarField true true "B"] start.

(** Two fields, then one point: the fields were created empty and
    [addPoint] does not grow them. *)
Definition unaligned : PointCloud.t :=
  PointCloud.run_all
    [PointCloud.AddScalarField true true "A";
     PointCloud.AddScalarField true true "B";
     PointCloud.AddPoint (pt 1 1 1)] start.

(** One point, an input field "Default" and a field "B", both with one
    slot, and 5 written to slot 0 of the input field: its min/max, last
    computed when the slot held 0, are out of date. *)
Definition written : PointCloud.t :=
  PointCloud.run_all
    [PointCloud.AddPoint (pt 1 1 1);
     PointCloud.EnableScalarField true true true;
     PointCloud.AddScalarField true true "B";
     PointCloud.SetPointScalarValue 0 (of_Z 5)] start.

(** Two points; field 0 is the input field "Default" with the slots 0 and
    5 and min/max 0 and 5, field 1 has no slot. The deletion brings
    "Default" to index 0, and the refused [resize(3)] leaves it with
    recomputed min/max. *)
Definition settled : PointCloud.t :=
  PointCloud.run_all
    [PointCloud.AddScalarField true true "E";
     PointCloud.AddScalarField true true "F";
     PointCloud.AddPoint (pt 1 1 1); PointCloud.AddPoint (pt 2 2 2);
     PointCloud.AddScalarField true true "Default";
     PointCloud.DeleteScalarField 0;
     PointCloud.EnableScalarField true true true;
     PointCloud.SetPointScalarValue 1 (of_Z 5);
     PointCloud.Resize true only_first 3] start.

(** Three points, their box computed, then a successful [resize(2)]. *)
Definition resized_after_box : PointCloud.t :=
  PointCloud.run_all
    [PointCloud.AddPoint (pt 0 0 0); PointCloud.AddPoint (pt 1 1 1);
     PointCloud.AddPoint (pt 2 2 2); PointCloud.GetBoundingBox;
     PointCloud.Resize true (always true) 2] start.

(** Two points and their box computed. *)
Definition boxed_pair : PointCloud.t :=
  PointCloud.run_all
    [PointCloud.AddPoint (pt 0 0 0); PointCloud.AddPoint (pt 1 1 1);
     PointCloud.GetBoundingBox] start.

(** Two points, a swap, the box, a similarity. *)
Definition moved_pair : list PointCloud.call :=
  [PointCloud.AddPoint (pt 0 0 0); PointCloud.AddPoint (pt 1 2 3);
   PointCloud.SwapPoints 0 1; PointCloud.GetBoundingBox;
   PointCloud.ApplyTransformation similarity].

(** One point and one field named "A". *)
Definition one_field : PointCloud.t :=
  PointCloud.run_all
    [PointCloud.AddPoint (pt 1 1 1); PointCloud.AddScalarField true true "A"] start.

(** Three fields with both roles on the last one, as [enableScalarField]
    leaves them after ten slots were reserved. *)
Definition enabled : PointCloud.t :=
  PointCloud.run_all
    [PointCloud.AddPoint (pt 1 1 1);
     PointCloud.AddScalarField true true "A";
     PointCloud.AddScalarField true true "B";
     PointCloud.Reserve true (always true) 10;
     PointCloud.EnableScalarField true true true] start.

End Float32.

(** ** Vocabulary for the methods outside the spec's properties *)

Section Iteration.
Context {P : Platform}.

(** [n] successive [getNextPoint()] calls: what each call returned, in call
    order, and the cloud after the last one. *)
Fixpoint getNextPoints (n : nat) (c : PointCloud.t)
  : list (option CCVector3) * PointCloud.t :=
  match n with
  | 0 => ([], c)
  | S n' =>
      let r := PointCloud.getNextPoint c in
      let rs := getNextPoints n' (snd r) in
      (fst r :: fst rs, snd rs)
  end.

(** The transposition of [i] and [j]. *)
Definition transpose (i j k : nat) : nat :=
  if decide (k = i) then j else if decide (k = j) then i else k.

End Iteration.

(** What [std::vector] guarantees about the capacity it allocates: it
    covers the elements it is asked to hold. *)
Class VectorLaws (P : Platform) := {
  vector_capacity_covers : ∀ cap n, n ≤ vector_capacity cap n
}.

Module Scenario.

(** [written] with the output role moved to field 1, as a client of the
    role setters of PointCloud.h can leave it. *)
Definition split_roles : PointCloud.t :=
  PointCloud.set_currentOut 1%Z Float32.written.

(** Two points and room for four; the input field "Default" has four slots
    and holds 5 in slot 1. *)
Definition roomy : PointCloud.t :=
  PointCloud.run_all
    [PointCloud.Reserve true (Float32.always true) 4;
     PointCloud.AddPoint (Float32.pt 1 1 1); PointCloud.AddPoint (Float32.pt 2 2 2);
     PointCloud.EnableScalarField true true true;
     PointCloud.SetPointScalarValue 1 (Float32.of_Z 5)] Float32.start.


(** The scalar plus the x coordinate of its point, and the double of a
    scalar, as [forEach] actions. *)
Definition add_x (p : @CCVector3 Float32.platform) (v : Float32.float) : Float32.float :=
  SFadd 24 128 v (Vector3.x p).

Definition twice (p : @CCVector3 Float32.platform) (v : Float32.float) : Float32.float :=
  SFadd 24 128 v v.

End Scenario.

(** * Properties *)

(** ** Vectors *)

Section VectorFacts.
Context {A : Type}.
Implicit Types (v : list A) (i j k : nat).

Lemma vector_swap_length i j v : length (vector_swap i j v) = length v.
Proof.
  unfold vector_swap.
  destruct (v !! i), (v !! j); rewrite ?length_insert; reflexivity.
Qed.

(** Reading a swapped vector: the slots [i] and [j] have traded places. *)
Lemma vector_swap_lookup i j k v :
  i < length v → j < length v →
  vector_swap i j v !! k =
    v !! (if decide (k = i) then j else if decide (k = j) then i else k).
Proof.
  intros Hi Hj. unfold vector_swap.
  destruct (lookup_lt_is_Some_2 v i Hi) as [a Ha].
  destruct (lookup_lt_is_Some_2 v j Hj) as [b Hb].
  rewrite Ha, Hb.
  destruct (decide (k = j)) as [->|Hkj].
  - rewrite list_lookup_insert_eq by (rewrite length_insert; lia).
    destruct (decide (j = i)) as [->|]; [congruence | symmetry; exact Ha].
  - rewrite list_lookup_insert_ne by congruence.
    destruct (decide (k = i)) as [->|Hki].
    + rewrite list_lookup_insert_eq by lia. symmetry; exact Hb.
    + rewrite list_lookup_insert_ne by congruence. reflexivity.
Qed.

Lemma vector_swap_out_of_range i j v :
  length v ≤ i ∨ length v ≤ j → vector_swap i j v = v.
Proof.
  intros [H|H]; unfold vector_swap.
  - rewrite (lookup_ge_None_2 v i H). reflexivity.
  - rewrite (lookup_ge_None_2 v j H). destruct (v !! i); reflexivity.
Qed.


(** A swap moves elements, it neither adds nor drops one. *)
Lemma vector_swap_elem_of i j v a : a ∈ vector_swap i j v ↔ a ∈ v.
Proof.
  destruct (decide (i < length v ∧ j < length v)) as [[Hi Hj]|Hout].
  - rewrite !list_elem_of_lookup. split; intros [k Hk].
    + rewrite vector_swap_lookup in Hk by lia. eauto.
    + exists (if decide (k = i) then j else if decide (k = j) then i else k).
      rewrite vector_swap_lookup by lia.
      rewrite <- Hk. f_equal. repeat case_decide; subst; congruence.
  - rewrite vector_swap_out_of_range by lia. reflexivity.
Qed.

Lemma vector_swap_map {B} (f : A → B) i j v :
  map f (vector_swap i j v) = vector_swap i j (map f v).
Proof.
  unfold vector_swap.
  change (map f v) with (f <$> v). rewrite !list_lookup_fmap.
  destruct (v !! i), (v !! j); simpl; try reflexivity.
  change (map f) with (fmap (M:=list) f). rewrite !list_fmap_insert. reflexivity.
Qed.

Lemma vector_swap_NoDup i j v : NoDup v → NoDup (vector_swap i j v).
Proof.
  intros Hnd.
  destruct (decide (i < length v ∧ j < length v)) as [[Hi Hj]|Hout].
  - apply NoDup_alt. intros k1 k2 a H1 H2.
    rewrite vector_swap_lookup in H1, H2 by lia.
    pose proof (proj1 (NoDup_alt v) Hnd _ _ _ H1 H2) as Heq.
    repeat case_decide; subst; congruence.
  - rewrite vector_swap_out_of_range by lia. exact Hnd.
Qed.

Lemma removelast_take v : removelast v = take (length v - 1) v.
Proof.
  induction v as [|a [|b v'] IH]; try reflexivity.
  change (removelast (a :: b :: v')) with (a :: removelast (b :: v')).
  rewrite IH. simpl. rewrite Nat.sub_0_r. reflexivity.
Qed.

Lemma removelast_length v : length (removelast v) = length v - 1.
Proof. rewrite removelast_take, length_take. lia. Qed.

Lemma removelast_lookup k v :
  k < length v - 1 → removelast v !! k = v !! k.
Proof. intros Hk. rewrite removelast_take. apply lookup_take_lt. exact Hk. Qed.

Lemma removelast_NoDup v : NoDup v → NoDup (removelast v).
Proof.
  intros Hnd. rewrite removelast_take.
  rewrite <- (take_drop (length v - 1) v) in Hnd.
  apply NoDup_app in Hnd. tauto.
Qed.

Lemma insert_NoDup k a v : NoDup v → a ∉ v → NoDup (<[k := a]> v).
Proof.
  intros Hnd Ha. apply NoDup_alt. intros k1 k2 b H1 H2.
  destruct (decide (k1 = k)) as [->|N1], (decide (k2 = k)) as [->|N2]; try reflexivity.
  - apply list_lookup_insert_Some in H1 as [(_ & <- & _)|[? _]]; [|congruence].
    rewrite list_lookup_insert_ne in H2 by congruence.
    destruct Ha. apply list_elem_of_lookup. eauto.
  - apply list_lookup_insert_Some in H2 as [(_ & <- & _)|[? _]]; [|congruence].
    rewrite list_lookup_insert_ne in H1 by congruence.
    destruct Ha. apply list_elem_of_lookup. eauto.
  - rewrite list_lookup_insert_ne in H1, H2 by congruence.
    exact (proj1 (NoDup_alt v) Hnd _ _ _ H1 H2).
Qed.

End VectorFacts.

Lemma vector_swap_lookup_other {A} (i j k : nat) (v : list A) :
  k ≠ i → k ≠ j → vector_swap i j v !! k = v !! k.
Proof.
  intros Hi Hj.
  destruct (decide (i < length v ∧ j < length v)) as [[? ?]|?].
  - rewrite vector_swap_lookup by lia. repeat case_decide; congruence.
  - rewrite vector_swap_out_of_range by lia. reflexivity.
Qed.

(** ** Point insertion *)

Section AddPoint.
Context {P : Platform}.

Lemma addPoint_points p c :
  PointCloud.m_points (PointCloud.addPoint p c) = PointCloud.m_points c ++ [stored_point p].
Proof.
  unfold PointCloud.addPoint, stored_point, has_nan_component.
  destruct (_ || _ || _); reflexivity.
Qed.

Lemma addPoint_invalidates p c :
  BoundingBox.isValid (PointCloud.m_bbox (PointCloud.addPoint p c)) = false.
Proof. reflexivity. Qed.

Lemma addPoint_fields p c :
  PointCloud.m_scalarFields (PointCloud.addPoint p c) = PointCloud.m_scalarFields c
  ∧ PointCloud.m_currentInScalarFieldIndex (PointCloud.addPoint p c)
    = PointCloud.m_currentInScalarFieldIndex c
  ∧ PointCloud.m_currentOutScalarFieldIndex (PointCloud.addPoint p c)
    = PointCloud.m_currentOutScalarFieldIndex c.
Proof.
  unfold PointCloud.addPoint. destruct (_ || _ || _); repeat split; reflexivity.
Qed.

Lemma addPoint_run_all ps c :
  PointCloud.m_points (PointCloud.run_all (map PointCloud.AddPoint ps) c)
  = PointCloud.m_points c ++ map stored_point ps.
Proof.
  revert c. induction ps as [|p ps IH]; intros c; simpl.
  - rewrite app_nil_r. reflexivity.
  - unfold PointCloud.run_all in *. simpl. rewrite IH, addPoint_points.
    rewrite <- app_assoc. reflexivity.
Qed.

(** C2. Any sequence of [addPoint] calls appends the points in call order:
    the point sequence afterwards is the old one followed by what each call
    stores, so [size()] has grown by the number of calls (and equals it
    from the default-constructed cloud); one call writes index [old size];
    a point with a component that is not equal to itself is stored as
    (0,0,0), any other point as it is; and every call leaves the
    bounding-box cache invalid. *)
Theorem addPoint_appends_in_call_order (ps : list CCVector3) (c : PointCloud.t) :
  PointCloud.m_points (PointCloud.run_all (map PointCloud.AddPoint ps) c)
    = PointCloud.m_points c ++ map stored_point ps
  ∧ PointCloud.size (PointCloud.run_all (map PointCloud.AddPoint ps) c)
    = PointCloud.size c + length ps
  ∧ PointCloud.size (PointCloud.run_all (map PointCloud.AddPoint ps) PointCloud.empty)
    = length ps
  ∧ (∀ p c0,
       PointCloud.m_points (PointCloud.addPoint p c0) !! PointCloud.size c0
         = Some (stored_point p)
       ∧ (∀ i, i < PointCloud.size c0 →
            PointCloud.m_points (PointCloud.addPoint p c0) !! i
              = PointCloud.m_points c0 !! i)
       ∧ PointCloud.size (PointCloud.addPoint p c0) = S (PointCloud.size c0)
       ∧ BoundingBox.isValid (PointCloud.m_bbox (PointCloud.addPoint p c0)) = false)
  ∧ (∀ p, c_neq (Vector3.x p) (Vector3.x p) = true
          ∨ c_neq (Vector3.y p) (Vector3.y p) = true
          ∨ c_neq (Vector3.z p) (Vector3.z p) = true →
          stored_point p = origin)
  ∧ (∀ p, c_neq (Vector3.x p) (Vector3.x p) = false →
          c_neq (Vector3.y p) (Vector3.y p) = false →
          c_neq (Vector3.z p) (Vector3.z p) = false →
          stored_point p = p).
Proof.
  repeat apply conj.
  - apply addPoint_run_all.
  - unfold PointCloud.size. rewrite addPoint_run_all, length_app, length_map. reflexivity.
  - unfold PointCloud.size. rewrite addPoint_run_all, length_app, length_map. reflexivity.
  - intros p c0. unfold PointCloud.size. rewrite addPoint_points. repeat apply conj.
    + rewrite lookup_app_r by lia. rewrite Nat.sub_diag. reflexivity.
    + intros i Hi. apply lookup_app_l. exact Hi.
    + rewrite length_app. simpl. lia.
    + apply addPoint_invalidates.
  - intros p H. unfold stored_point, has_nan_component.
    destruct H as [-> | [-> | ->]]; rewrite ?orb_true_r; reflexivity.
  - intros p Hx Hy Hz. unfold stored_point, has_nan_component.
    rewrite Hx, Hy, Hz. reflexivity.
Qed.

End AddPoint.

(** ** Point swapping *)

Section SwapPoints.
Context {P : Platform}.



Lemma swapPoints_noop i j c :
  i = j ∨ PointCloud.size c ≤ i ∨ PointCloud.size c ≤ j → PointCloud.swapPoints i j c = c.
Proof.
  intros H. unfold PointCloud.swapPoints, PointCloud.size in *.
  destruct (i =? j) eqn:E1; [reflexivity|].
  destruct (length (PointCloud.m_points c) <=? i) eqn:E2; [reflexivity|].
  destruct (length (PointCloud.m_points c) <=? j) eqn:E3; [reflexivity|].
  apply Nat.eqb_neq in E1. apply Nat.leb_gt in E2, E3. lia.
Qed.

Lemma swapPoints_in_range i j c :
  i ≠ j → i < PointCloud.size c → j < PointCloud.size c →
  PointCloud.swapPoints i j c =
    PointCloud.set_scalarFields
      (map (ScalarField.swap i j) (PointCloud.m_scalarFields c))
      (PointCloud.set_points (vector_swap i j (PointCloud.m_points c)) c).
Proof.
  intros Hij Hi Hj. unfold PointCloud.swapPoints, PointCloud.size in *.
  apply Nat.eqb_neq in Hij. rewrite Hij.
  apply Nat.leb_gt in Hi, Hj. rewrite Hi, Hj. reflexivity.
Qed.



End SwapPoints.

(** ** Transformation *)

Section ApplyTransformation.
Context {P : Platform}.

Lemma scale_pass_points trans c :
  PointCloud.m_points (PointCloud.scale_pass trans c)
  = map (scale_phase trans) (PointCloud.m_points c).
Proof.
  unfold PointCloud.scale_pass, scale_phase.
  destruct (PointCloud.scale_applies trans); simpl; [reflexivity|].
  symmetry. apply map_id.
Qed.

Lemma rotation_pass_points trans c :
  PointCloud.m_points (PointCloud.rotation_pass trans c)
  = map (rotation_phase trans) (PointCloud.m_points c).
Proof.
  unfold PointCloud.rotation_pass, rotation_phase.
  destruct (PointCloud.rotation_applies trans); simpl; [reflexivity|].
  symmetry. apply map_id.
Qed.

Lemma translation_pass_points trans c :
  PointCloud.m_points (PointCloud.translation_pass trans c)
  = map (translation_phase trans) (PointCloud.m_points c).
Proof.
  unfold PointCloud.translation_pass, translation_phase.
  destruct (PointCloud.translation_applies trans); simpl; [reflexivity|].
  symmetry. apply map_id.
Qed.

Lemma applyTransformation_points trans c :
  PointCloud.m_points (PointCloud.applyTransformation trans c)
  = map (transformed trans) (PointCloud.m_points c).
Proof.
  unfold PointCloud.applyTransformation, transformed.
  rewrite translation_pass_points, rotation_pass_points, scale_pass_points.
  rewrite !map_map. reflexivity.
Qed.

Lemma applyTransformation_bbox trans c :
  PointCloud.m_bbox (PointCloud.applyTransformation trans c)
  = if some_phase_applies trans
    then BoundingBox.setValidity false (PointCloud.m_bbox c)
    else PointCloud.m_bbox c.
Proof.
  unfold PointCloud.applyTransformation, some_phase_applies,
    PointCloud.translation_pass, PointCloud.rotation_pass, PointCloud.scale_pass.
  destruct (PointCloud.scale_applies trans), (PointCloud.rotation_applies trans),
    (PointCloud.translation_applies trans); reflexivity.
Qed.

Lemma applyTransformation_skipped trans c :
  some_phase_applies trans = false → PointCloud.applyTransformation trans c = c.
Proof.
  unfold PointCloud.applyTransformation, some_phase_applies,
    PointCloud.translation_pass, PointCloud.rotation_pass, PointCloud.scale_pass.
  destruct (PointCloud.scale_applies trans), (PointCloud.rotation_applies trans),
    (PointCloud.translation_applies trans); simpl; intros H; try discriminate H.
  reflexivity.
Qed.

Lemma applyTransformation_fields trans c :
  PointCloud.m_scalarFields (PointCloud.applyTransformation trans c)
    = PointCloud.m_scalarFields c
  ∧ PointCloud.m_currentInScalarFieldIndex (PointCloud.applyTransformation trans c)
    = PointCloud.m_currentInScalarFieldIndex c
  ∧ PointCloud.m_currentOutScalarFieldIndex (PointCloud.applyTransformation trans c)
    = PointCloud.m_currentOutScalarFieldIndex c.
Proof.
  unfold PointCloud.applyTransformation,
    PointCloud.translation_pass, PointCloud.rotation_pass, PointCloud.scale_pass.
  destruct (PointCloud.scale_applies trans), (PointCloud.rotation_applies trans),
    (PointCloud.translation_applies trans); repeat split; reflexivity.
Qed.

(** C10. [applyTransformation(trans)] sends every point [p] through the
    scale, then the rotation, then the translation. A phase runs exactly
    when its guard holds: the scale when |double(s) - 1| > ZERO_TOLERANCE,
    the rotation when the matrix is valid, the translation when the norm of
    [T] is > ZERO_TOLERANCE; a phase whose guard fails leaves the cloud as
    it is. With the three guards the result is R * (p * s) + T. Each phase
    that runs leaves the bounding-box cache invalid, so the cache ends
    invalid if some phase ran and is untouched otherwise. *)
Theorem applyTransformation_scale_then_rotation_then_translation
    (trans : Transformation.t) (c : PointCloud.t) :
  PointCloud.applyTransformation trans c
    = PointCloud.translation_pass trans
        (PointCloud.rotation_pass trans (PointCloud.scale_pass trans c))
  ∧ PointCloud.m_points (PointCloud.applyTransformation trans c)
    = map (λ p, translation_phase trans (rotation_phase trans (scale_phase trans p)))
        (PointCloud.m_points c)
  ∧ (PointCloud.scale_applies trans
       = d_gt (d_fabs (d_sub (to_double (Transformation.s trans)) d_one)) ZERO_TOLERANCE
     ∧ PointCloud.rotation_applies trans = isValid (Transformation.R trans)
     ∧ PointCloud.translation_applies trans
       = d_gt (to_double (v_norm (Transformation.T trans))) ZERO_TOLERANCE)
  ∧ (∀ p, scale_phase trans p
          = if PointCloud.scale_applies trans then v_scale (Transformation.s trans) p else p)
  ∧ (∀ p, rotation_phase trans p
          = if PointCloud.rotation_applies trans then mat_mul (Transformation.R trans) p else p)
  ∧ (∀ p, translation_phase trans p
          = if PointCloud.translation_applies trans then v_add (Transformation.T trans) p else p)
  ∧ (PointCloud.scale_applies trans = true →
     PointCloud.rotation_applies trans = true →
     PointCloud.translation_applies trans = true →
     PointCloud.m_points (PointCloud.applyTransformation trans c)
       = map (λ p, v_add (Transformation.T trans) (mat_mul (Transformation.R trans) (v_scale (Transformation.s trans) p)))
           (PointCloud.m_points c))
  ∧ (∀ c0, PointCloud.scale_pass trans c0
           = if PointCloud.scale_applies trans
             then PointCloud.invalidateBoundingBox
                    (PointCloud.set_points
                       (map (v_scale (Transformation.s trans)) (PointCloud.m_points c0)) c0)
             else c0)
  ∧ (∀ c0, PointCloud.rotation_pass trans c0
           = if PointCloud.rotation_applies trans
             then PointCloud.invalidateBoundingBox
                    (PointCloud.set_points
                       (map (mat_mul (Transformation.R trans)) (PointCloud.m_points c0)) c0)
             else c0)
  ∧ (∀ c0, PointCloud.translation_pass trans c0
           = if PointCloud.translation_applies trans
             then PointCloud.invalidateBoundingBox
                    (PointCloud.set_points
                       (map (v_add (Transformation.T trans)) (PointCloud.m_points c0)) c0)
             else c0)
  ∧ (∀ c0, BoundingBox.isValid
             (PointCloud.m_bbox (PointCloud.invalidateBoundingBox c0)) = false)
  ∧ PointCloud.m_bbox (PointCloud.applyTransformation trans c)
    = (if some_phase_applies trans
       then BoundingBox.setValidity false (PointCloud.m_bbox c)
       else PointCloud.m_bbox c)
  ∧ PointCloud.size (PointCloud.applyTransformation trans c) = PointCloud.size c
  ∧ PointCloud.m_scalarFields (PointCloud.applyTransformation trans c)
    = PointCloud.m_scalarFields c.
Proof.
  repeat apply conj; try reflexivity.
  - apply applyTransformation_points.
  - intros Hs Hr Ht. rewrite applyTransformation_points.
    apply map_ext. intros p.
    unfold transformed, translation_phase, rotation_phase, scale_phase.
    rewrite Hs, Hr, Ht. reflexivity.
  - apply applyTransformation_bbox.
  - unfold PointCloud.size. rewrite applyTransformation_points. apply length_map.
  - apply applyTransformation_fields.
Qed.

End ApplyTransformation.

(** ** The bounding box *)

Section BoundingBoxFacts.
Context {P : Platform}.

Lemma is_min_max_same_elements xs ys lo hi :
  (∀ a, a ∈ xs ↔ a ∈ ys) → is_min_max xs lo hi ↔ is_min_max ys lo hi.
Proof.
  intros Hiff. unfold is_min_max. rewrite !Hiff.
  split; intros (Hlo & Hhi & Hall); repeat split; try assumption;
    apply Hall; apply Hiff; assumption.
Qed.

Lemma is_min_max_swap i j xs lo hi :
  is_min_max (vector_swap i j xs) lo hi ↔ is_min_max xs lo hi.
Proof. apply is_min_max_same_elements. intros a. apply vector_swap_elem_of. Qed.

(** The exact box does not depend on the order of the points: exchanging
    two of them keeps it. *)
Lemma exact_box_swap i j pts lo hi :
  exact_box (vector_swap i j pts) lo hi ↔ exact_box pts lo hi.
Proof.
  unfold exact_box. rewrite !vector_swap_map, !is_min_max_swap. reflexivity.
Qed.

Lemma swapPoints_bbox i j c :
  PointCloud.m_bbox (PointCloud.swapPoints i j c) = PointCloud.m_bbox c.
Proof.
  unfold PointCloud.swapPoints. destruct (_ || _ || _); reflexivity.
Qed.

Lemma swapPoints_exact_box i j c lo hi :
  exact_box (PointCloud.m_points (PointCloud.swapPoints i j c)) lo hi
  ↔ exact_box (PointCloud.m_points c) lo hi.
Proof.
  unfold PointCloud.swapPoints. destruct (_ || _ || _); [reflexivity|].
  simpl. apply exact_box_swap.
Qed.

Lemma swapPoints_nonempty i j c :
  PointCloud.m_points c ≠ [] → PointCloud.m_points (PointCloud.swapPoints i j c) ≠ [].
Proof.
  unfold PointCloud.swapPoints. destruct (_ || _ || _); [tauto|]. simpl.
  intros Hne Heq. apply (f_equal length) in Heq.
  rewrite vector_swap_length in Heq. destruct (PointCloud.m_points c); [tauto|discriminate].
Qed.

Lemma swapPoints_coherent i j c :
  cache_coherent c → cache_coherent (PointCloud.swapPoints i j c).
Proof.
  unfold cache_coherent. rewrite swapPoints_bbox. intros H Hv.
  apply swapPoints_exact_box. auto.
Qed.

End BoundingBoxFacts.

Section BoundingBoxExact.
Context {P : Platform} {L : OrderLaws P}.

Lemma is_min_max_singleton a : is_min_max [a] a a.
Proof.
  unfold is_min_max. repeat split; try (apply list_elem_of_singleton; reflexivity).
  - apply list_elem_of_singleton in H. subst. apply c_lt_irrefl.
  - apply list_elem_of_singleton in H. subst. apply c_lt_irrefl.
Qed.

(** One step of the running min/max. *)
Lemma is_min_max_snoc xs lo hi a :
  is_min_max xs lo hi →
  is_min_max (xs ++ [a]) (BoundingBox.c_min a lo) (BoundingBox.c_max a hi).
Proof.
  intros (Hlo & Hhi & Hall). unfold is_min_max, BoundingBox.c_min, BoundingBox.c_max.
  repeat split.
  - apply elem_of_app. destruct (c_lt a lo); [right; apply list_elem_of_singleton|left]; auto.
  - apply elem_of_app. destruct (c_lt hi a); [right; apply list_elem_of_singleton|left]; auto.
  - apply elem_of_app in H as [Hb|Hb].
    + destruct (Hall _ Hb) as [Hb1 _].
      destruct (c_lt a lo) eqn:Ea; [|exact Hb1].
      destruct (c_lt a0 a) eqn:Eb; [|reflexivity].
      rewrite (c_lt_trans _ _ _ Eb Ea) in Hb1. discriminate.
    + apply list_elem_of_singleton in Hb. subst a0.
      destruct (c_lt a lo) eqn:Ea; [apply c_lt_irrefl | exact Ea].
  - apply elem_of_app in H as [Hb|Hb].
    + destruct (Hall _ Hb) as [_ Hb2].
      destruct (c_lt hi a) eqn:Ea; [|exact Hb2].
      destruct (c_lt a a0) eqn:Eb; [|reflexivity].
      rewrite (c_lt_trans _ _ _ Ea Eb) in Hb2. discriminate.
    + apply list_elem_of_singleton in Hb. subst a0.
      destruct (c_lt hi a) eqn:Ea; [apply c_lt_irrefl | exact Ea].
Qed.

Lemma exact_box_singleton p : exact_box [p] p p.
Proof. unfold exact_box. simpl. split; [|split]; apply is_min_max_singleton. Qed.

Lemma add_exact seen p b :
  BoundingBox.m_valid b = true →
  exact_box seen (BoundingBox.m_bbMin b) (BoundingBox.m_bbMax b) →
  BoundingBox.m_valid (BoundingBox.add p b) = true
  ∧ exact_box (seen ++ [p]) (BoundingBox.m_bbMin (BoundingBox.add p b))
                            (BoundingBox.m_bbMax (BoundingBox.add p b)).
Proof.
  intros Hv (Hx & Hy & Hz). unfold BoundingBox.add. rewrite Hv. simpl.
  split; [reflexivity|]. unfold exact_box. rewrite !map_app. simpl.
  split; [|split]; apply is_min_max_snoc; assumption.
Qed.

Lemma fold_add_exact pts : ∀ seen b,
  BoundingBox.m_valid b = true →
  exact_box seen (BoundingBox.m_bbMin b) (BoundingBox.m_bbMax b) →
  BoundingBox.m_valid (fold_left (λ b p, BoundingBox.add p b) pts b) = true
  ∧ exact_box (seen ++ pts)
      (BoundingBox.m_bbMin (fold_left (λ b p, BoundingBox.add p b) pts b))
      (BoundingBox.m_bbMax (fold_left (λ b p, BoundingBox.add p b) pts b)).
Proof.
  induction pts as [|p pts IH]; intros seen b Hv Hex; simpl.
  - rewrite app_nil_r. auto.
  - destruct (add_exact seen p b Hv Hex) as [Hv' Hex'].
    specialize (IH (seen ++ [p]) _ Hv' Hex').
    rewrite <- app_assoc in IH. exact IH.
Qed.

(** Recomputing from a cleared accumulator gives the exact box of a
    non-empty point sequence, flagged valid. *)
Lemma recompute_exact pts b :
  pts ≠ [] →
  BoundingBox.m_valid
    (fold_left (λ b p, BoundingBox.add p b) pts (BoundingBox.clear b)) = true
  ∧ exact_box pts
      (BoundingBox.m_bbMin
         (fold_left (λ b p, BoundingBox.add p b) pts (BoundingBox.clear b)))
      (BoundingBox.m_bbMax
         (fold_left (λ b p, BoundingBox.add p b) pts (BoundingBox.clear b))).
Proof.
  destruct pts as [|p pts]; [tauto|]. intros _. simpl.
  change (BoundingBox.add p (BoundingBox.clear b)) with (BoundingBox.mk p p true).
  apply (fold_add_exact pts [p]); [reflexivity|]. simpl. apply exact_box_singleton.
Qed.

Lemma getBoundingBox_exact c :
  PointCloud.m_points c ≠ [] → cache_coherent c →
  reports_exact_box c
  ∧ BoundingBox.isValid (PointCloud.m_bbox (snd (PointCloud.getBoundingBox c))) = true
  ∧ cache_coherent (snd (PointCloud.getBoundingBox c))
  ∧ PointCloud.m_points (snd (PointCloud.getBoundingBox c)) = PointCloud.m_points c.
Proof.
  intros Hne Hco. unfold reports_exact_box, cache_coherent, PointCloud.getBoundingBox in *.
  unfold BoundingBox.isValid, BoundingBox.minCorner, BoundingBox.maxCorner. simpl.
  destruct (BoundingBox.m_valid (PointCloud.m_bbox c)) eqn:Hv; simpl.
  - refine (conj _ (conj _ (conj _ _))); auto.
  - destruct (recompute_exact (PointCloud.m_points c) (PointCloud.m_bbox c) Hne) as [H1 H2].
    refine (conj _ (conj _ (conj _ _))); auto.
Qed.

Lemma addPoint_reports_exact p c : reports_exact_box (PointCloud.addPoint p c).
Proof.
  destruct (getBoundingBox_exact (PointCloud.addPoint p c)) as [Hex _]; [| |exact Hex].
  - rewrite addPoint_points. destruct (PointCloud.m_points c); discriminate.
  - unfold cache_coherent. intros H.
    pose proof (addPoint_invalidates p c) as Hinv. unfold BoundingBox.isValid in Hinv.
    congruence.
Qed.

Lemma applyTransformation_coherent trans c :
  cache_coherent c → cache_coherent (PointCloud.applyTransformation trans c).
Proof.
  intros Hco. destruct (some_phase_applies trans) eqn:E.
  - unfold cache_coherent. rewrite applyTransformation_bbox, E. simpl. discriminate.
  - rewrite applyTransformation_skipped by exact E. exact Hco.
Qed.

Lemma applyTransformation_nonempty trans c :
  PointCloud.m_points c ≠ [] →
  PointCloud.m_points (PointCloud.applyTransformation trans c) ≠ [].
Proof.
  rewrite applyTransformation_points. destruct (PointCloud.m_points c); [tauto|discriminate].
Qed.

End BoundingBoxExact.

Section BoundingBoxCache.
Context {P : Platform}.

Lemma fold_add_valid pts : ∀ b,
  BoundingBox.m_valid b = true ∨ pts ≠ [] →
  BoundingBox.m_valid (fold_left (λ b p, BoundingBox.add p b) pts b) = true.
Proof.
  induction pts as [|p pts IH]; intros b [Hv|Hne]; simpl; try tauto.
  - apply IH. left. unfold BoundingBox.add. destruct (BoundingBox.m_valid b); reflexivity.
  - apply IH. left. unfold BoundingBox.add. destruct (BoundingBox.m_valid b); reflexivity.
Qed.

(** A second call right after a first one finds what the first one left
    and returns the same corners. *)
Lemma getBoundingBox_twice c :
  PointCloud.getBoundingBox (snd (PointCloud.getBoundingBox c))
  = PointCloud.getBoundingBox c.
Proof.
  unfold PointCloud.getBoundingBox at 2 3. unfold BoundingBox.isValid.
  destruct (BoundingBox.m_valid (PointCloud.m_bbox c)) eqn:Hv; simpl.
  - unfold PointCloud.getBoundingBox, BoundingBox.isValid. simpl. rewrite Hv. reflexivity.
  - destruct (PointCloud.m_points c) as [|p pts] eqn:Hp.
    + unfold PointCloud.getBoundingBox, BoundingBox.isValid. simpl. rewrite Hp. reflexivity.
    + unfold PointCloud.getBoundingBox, BoundingBox.isValid. simpl.
      rewrite Hp. rewrite fold_add_valid by (left; reflexivity). reflexivity.
Qed.

End BoundingBoxCache.

Section CacheCoherence.
Context {P : Platform} {L : OrderLaws P}.

Lemma getBoundingBox_reports_exact c :
  PointCloud.m_points c ≠ [] → cache_coherent c → reports_exact_box c.
Proof. intros Hne Hco. destruct (getBoundingBox_exact c Hne Hco) as [H _]. exact H. Qed.

Lemma getBoundingBox_coherent c :
  cache_coherent c → cache_coherent (snd (PointCloud.getBoundingBox c)).
Proof.
  intros Hco. destruct (PointCloud.m_points c) as [|p pts] eqn:Hp.
  - unfold cache_coherent, PointCloud.getBoundingBox, BoundingBox.isValid in *. simpl.
    rewrite Hp in *. destruct (BoundingBox.m_valid (PointCloud.m_bbox c)); simpl; auto.
    discriminate.
  - assert (Hne : PointCloud.m_points c ≠ []) by (rewrite Hp; discriminate).
    destruct (getBoundingBox_exact c Hne Hco) as (_ & _ & H & _). exact H.
Qed.

(** Every call except [resize] keeps a coherent cache coherent. *)
Lemma run_coherent k c :
  is_resize k = false → cache_coherent c → cache_coherent (PointCloud.run k c).
Proof.
  intros Hk Hco. destruct k; try discriminate Hk; simpl.
  - (* clear *) unfold cache_coherent. simpl. discriminate.
  - (* forEach *) unfold PointCloud.forEach. destruct (PointCloud.getCurrentOutScalarField c); exact Hco.
  - apply getBoundingBox_coherent. exact Hco.
  - (* invalidateBoundingBox *) unfold cache_coherent. simpl. discriminate.
  - exact Hco.
  - unfold PointCloud.getNextPoint. destruct (_ <? _); exact Hco.
  - (* reserve *) unfold PointCloud.reserve.
    destruct pts_ok; simpl; [|exact Hco]. destruct (PointCloud.reserve_fields _ _ _ _); exact Hco.
  - (* addPoint *) unfold cache_coherent. intros H.
    pose proof (addPoint_invalidates p c) as Hinv. unfold BoundingBox.isValid in Hinv.
    congruence.
  - apply applyTransformation_coherent. exact Hco.
  - (* enableScalarField *)
    unfold PointCloud.enableScalarField, PointCloud.addScalarField.
    repeat case_match; simpl; exact Hco.
  - unfold PointCloud.setPointScalarValue. case_match; exact Hco.
  - unfold PointCloud.addScalarField. repeat case_match; exact Hco.
  - unfold PointCloud.deleteScalarField. repeat case_match; exact Hco.
  - exact Hco.
  - unfold PointCloud.renameScalarField. repeat case_match; exact Hco.
  - apply swapPoints_coherent. exact Hco.
Qed.

Lemma run_all_coherent ks : ∀ c,
  Forall (λ k, is_resize k = false) ks → cache_coherent c →
  cache_coherent (PointCloud.run_all ks c).
Proof.
  induction ks as [|k ks IH]; intros c Hks Hco; [exact Hco|].
  apply Forall_cons in Hks as [Hk Hks].
  unfold PointCloud.run_all in *. simpl. apply IH; [exact Hks|].
  apply run_coherent; assumption.
Qed.

Lemma getBoundingBox_cached c :
  BoundingBox.isValid (PointCloud.m_bbox c) = true →
  PointCloud.getBoundingBox c
  = (BoundingBox.minCorner (PointCloud.m_bbox c),
     BoundingBox.maxCorner (PointCloud.m_bbox c), c).
Proof.
  intros Hv. unfold PointCloud.getBoundingBox. rewrite Hv. simpl.
  destruct c; reflexivity.
Qed.

Lemma applyTransformation_reports_exact trans c :
  PointCloud.m_points c ≠ [] →
  some_phase_applies trans = true ∨ cache_coherent c →
  reports_exact_box (PointCloud.applyTransformation trans c).
Proof.
  intros Hne H. apply getBoundingBox_reports_exact.
  - apply applyTransformation_nonempty. exact Hne.
  - destruct H as [Hph|Hco]; [|apply applyTransformation_coherent; exact Hco].
    unfold cache_coherent. rewrite applyTransformation_bbox, Hph. discriminate.
Qed.

(** C4 (amended). [getBoundingBox] returns the cached corners, and leaves
    the cloud as it is, when the cache is flagged valid; when the cache is
    invalid it recomputes it by folding every current point into a cleared
    accumulator and returns the recomputed corners, and the cache is valid
    afterwards when there is a point. Two calls in a row return the same
    corners and leave the same cloud. The returned corners are the
    coordinate-wise minimum and maximum of the current points whenever the
    cloud is not empty and its cache is coherent (invalid, or valid and
    exact), which every call except [resize] preserves. The next
    [getBoundingBox] is exact after [addPoint] from any cloud, after an
    [applyTransformation] in which a phase runs from any non-empty cloud,
    and after [swapPoints] or an [applyTransformation] in which no phase
    runs from any non-empty cloud with a coherent cache. On an empty cloud
    with an invalid cache the call returns (0,0,0) twice and leaves the
    cache invalid. *)
Theorem getBoundingBox_exact_on_coherent_cache :
  (∀ c, PointCloud.getBoundingBox (snd (PointCloud.getBoundingBox c))
        = PointCloud.getBoundingBox c)
  ∧ (∀ c, BoundingBox.isValid (PointCloud.m_bbox c) = true →
          PointCloud.getBoundingBox c
          = (BoundingBox.minCorner (PointCloud.m_bbox c),
             BoundingBox.maxCorner (PointCloud.m_bbox c), c))
  ∧ (∀ c, BoundingBox.isValid (PointCloud.m_bbox c) = false →
          PointCloud.getBoundingBox c
          = (BoundingBox.minCorner
               (fold_left (λ b p, BoundingBox.add p b) (PointCloud.m_points c)
                  (BoundingBox.clear (PointCloud.m_bbox c))),
             BoundingBox.maxCorner
               (fold_left (λ b p, BoundingBox.add p b) (PointCloud.m_points c)
                  (BoundingBox.clear (PointCloud.m_bbox c))),
             PointCloud.set_bbox
               (fold_left (λ b p, BoundingBox.add p b) (PointCloud.m_points c)
                  (BoundingBox.clear (PointCloud.m_bbox c))) c))
  ∧ (∀ c, PointCloud.m_points c ≠ [] →
          BoundingBox.isValid (PointCloud.m_bbox c) = false →
          reports_exact_box c
          ∧ BoundingBox.isValid (PointCloud.m_bbox (snd (PointCloud.getBoundingBox c)))
            = true)
  ∧ (∀ c, PointCloud.m_points c ≠ [] → cache_coherent c →
          reports_exact_box c ∧ cache_coherent (snd (PointCloud.getBoundingBox c)))
  ∧ (∀ ks c, Forall (λ k, is_resize k = false) ks → cache_coherent c →
          cache_coherent (PointCloud.run_all ks c))
  ∧ (∀ ks, Forall (λ k, is_resize k = false) ks →
          PointCloud.m_points (PointCloud.run_all ks PointCloud.empty) ≠ [] →
          reports_exact_box (PointCloud.run_all ks PointCloud.empty))
  ∧ (∀ p c, reports_exact_box (PointCloud.addPoint p c))
  ∧ (∀ i j c, PointCloud.m_points c ≠ [] → cache_coherent c →
          reports_exact_box (PointCloud.swapPoints i j c))
  ∧ (∀ trans c, PointCloud.m_points c ≠ [] →
          some_phase_applies trans = true ∨ cache_coherent c →
          reports_exact_box (PointCloud.applyTransformation trans c))
  ∧ (∀ c, PointCloud.m_points c = [] →
          BoundingBox.isValid (PointCloud.m_bbox c) = false →
          fst (PointCloud.getBoundingBox c) = (origin, origin)
          ∧ BoundingBox.isValid (PointCloud.m_bbox (snd (PointCloud.getBoundingBox c)))
            = false).
Proof.
  split; [exact getBoundingBox_twice|].
  split; [exact getBoundingBox_cached|].
  split.
  { intros c Hv. unfold PointCloud.getBoundingBox. rewrite Hv. reflexivity. }
  split.
  { intros c Hne Hv.
    assert (Hco : cache_coherent c)
      by (unfold cache_coherent; unfold BoundingBox.isValid in Hv; congruence).
    destruct (getBoundingBox_exact c Hne Hco) as (H1 & H2 & _).
    exact (conj H1 H2). }
  split.
  { intros c Hne Hco. destruct (getBoundingBox_exact c Hne Hco) as (H1 & _ & H3 & _). auto. }
  split; [exact run_all_coherent|].
  split.
  { intros ks Hks Hne. apply getBoundingBox_reports_exact; [exact Hne|].
    apply run_all_coherent; [exact Hks|]. unfold cache_coherent. simpl. discriminate. }
  split; [exact addPoint_reports_exact|].
  split.
  { intros i j c Hne Hco. apply getBoundingBox_reports_exact.
    - apply swapPoints_nonempty. exact Hne.
    - apply swapPoints_coherent. exact Hco. }
  split; [exact applyTransformation_reports_exact|].
  intros c Hp Hv. unfold PointCloud.getBoundingBox. rewrite Hv, Hp. simpl. auto.
Qed.

End CacheCoherence.

Section CacheInvalidation.
Context {P : Platform}.

(** C5 (amended). [addPoint] and every phase of [applyTransformation] that
    runs leave the bounding-box cache invalid, so the cache is invalid after
    an [applyTransformation] in which some phase ran (and the cloud is
    untouched when none did). [swapPoints] never changes the cache, flag
    included: it only exchanges two points, so the corners that were exact
    for the points before the call are exact for the points after it. *)
Theorem point_moves_and_the_cache :
  (∀ p c, BoundingBox.isValid (PointCloud.m_bbox (PointCloud.addPoint p c)) = false)
  ∧ (∀ trans c, PointCloud.scale_applies trans = true →
       BoundingBox.isValid (PointCloud.m_bbox (PointCloud.scale_pass trans c)) = false)
  ∧ (∀ trans c, PointCloud.rotation_applies trans = true →
       BoundingBox.isValid (PointCloud.m_bbox (PointCloud.rotation_pass trans c)) = false)
  ∧ (∀ trans c, PointCloud.translation_applies trans = true →
       BoundingBox.isValid (PointCloud.m_bbox (PointCloud.translation_pass trans c)) = false)
  ∧ (∀ trans c, some_phase_applies trans = true →
       BoundingBox.isValid (PointCloud.m_bbox (PointCloud.applyTransformation trans c))
       = false)
  ∧ (∀ trans c, some_phase_applies trans = false →
       PointCloud.applyTransformation trans c = c)
  ∧ (∀ i j c, PointCloud.m_bbox (PointCloud.swapPoints i j c) = PointCloud.m_bbox c)
  ∧ (∀ i j c lo hi,
       exact_box (PointCloud.m_points c) lo hi →
       exact_box (PointCloud.m_points (PointCloud.swapPoints i j c)) lo hi).
Proof.
  repeat apply conj.
  - exact addPoint_invalidates.
  - intros trans c H. unfold PointCloud.scale_pass. rewrite H. reflexivity.
  - intros trans c H. unfold PointCloud.rotation_pass. rewrite H. reflexivity.
  - intros trans c H. unfold PointCloud.translation_pass. rewrite H. reflexivity.
  - intros trans c H. rewrite applyTransformation_bbox, H. reflexivity.
  - exact applyTransformation_skipped.
  - exact swapPoints_bbox.
  - intros i j c lo hi H. apply swapPoints_exact_box. exact H.
Qed.

End CacheInvalidation.

(** ** Scalar-field names *)

Section FieldNames.
Context {P : Platform}.

(** The scan returns -1 when no field carries the name, and otherwise the
    index of the first field that does. *)
Lemma index_by_name_spec nm fs : ∀ i,
  (PointCloud.index_by_name nm i fs = (-1)%Z
   ∧ nm ∉ map ScalarField.name fs)
  ∨ (∃ k f, PointCloud.index_by_name nm i fs = Z.of_nat (i + k)
       ∧ fs !! k = Some f ∧ ScalarField.name f = nm
       ∧ nm ∉ map ScalarField.name (take k fs)).
Proof.
  induction fs as [|f fs IH]; intros i; simpl.
  - left. split; [reflexivity | apply not_elem_of_nil].
  - unfold ScalarField.getName. destruct (String.eqb (ScalarField.name f) nm) eqn:E.
    + right. exists 0, f. apply String.eqb_eq in E.
      rewrite Nat.add_0_r. simpl.
      refine (conj eq_refl (conj eq_refl (conj E _))). apply not_elem_of_nil.
    + apply String.eqb_neq in E. destruct (IH (S i)) as [[H1 H2]|(k & g & H1 & H2 & H3 & H4)].
      * left. split; [exact H1|]. intros Hin. apply elem_of_cons in Hin as [->|Hin]; tauto.
      * right. exists (S k), g. rewrite H1. simpl.
        refine (conj _ (conj H2 (conj H3 _))); [f_equal; lia|].
        intros Hin. apply elem_of_cons in Hin as [->|Hin]; tauto.
Qed.

Lemma getScalarFieldIndexByName_absent nm c :
  nm ∉ field_names c → PointCloud.getScalarFieldIndexByName nm c = (-1)%Z.
Proof.
  intros Hnm. unfold PointCloud.getScalarFieldIndexByName.
  destruct (index_by_name_spec nm (PointCloud.m_scalarFields c) 0)
    as [[H _]|(k & f & _ & Hk & Hf & _)]; [exact H|].
  destruct Hnm. unfold field_names. rewrite <- Hf.
  change (map ScalarField.name) with (fmap (M:=list) ScalarField.name).
  apply list_elem_of_fmap_2. apply list_elem_of_lookup. eauto.
Qed.

Lemma getScalarFieldIndexByName_present nm c :
  nm ∈ field_names c →
  ∃ k f, PointCloud.getScalarFieldIndexByName nm c = Z.of_nat k
    ∧ PointCloud.m_scalarFields c !! k = Some f ∧ ScalarField.name f = nm.
Proof.
  intros Hnm. unfold PointCloud.getScalarFieldIndexByName.
  destruct (index_by_name_spec nm (PointCloud.m_scalarFields c) 0)
    as [[_ H]|(k & f & H1 & Hk & Hf & _)]; [tauto|].
  exists k, f. auto.
Qed.

Lemma field_names_length c :
  length (field_names c) = length (PointCloud.m_scalarFields c).
Proof. apply length_map. Qed.

Lemma field_in_names c k f :
  PointCloud.m_scalarFields c !! k = Some f → ScalarField.name f ∈ field_names c.
Proof.
  intros H. unfold field_names.
  change (map ScalarField.name) with (fmap (M:=list) ScalarField.name).
  apply list_elem_of_fmap_2. apply list_elem_of_lookup. eauto.
Qed.

Lemma getScalarField_Some index c f :
  PointCloud.getScalarField index c = Some f ↔
  (0 ≤ index)%Z ∧ PointCloud.m_scalarFields c !! Z.to_nat index = Some f.
Proof.
  unfold PointCloud.getScalarField.
  destruct (0 <=? index)%Z eqn:E1; simpl.
  - apply Z.leb_le in E1.
    destruct (index <? Z.of_nat (length (PointCloud.m_scalarFields c)))%Z eqn:E2.
    + tauto.
    + apply Z.ltb_ge in E2. split; [discriminate|].
      intros [_ H]. apply lookup_lt_Some in H. lia.
  - apply Z.leb_gt in E1. split; [discriminate|]. intros [H _]. lia.
Qed.

Lemma resize_push_back {A} (a : A) (v : list A) :
  list.resize (length v + 1) a v = v ++ [a].
Proof.
  rewrite resize_spec. rewrite firstn_all2 by lia.
  replace (length v + 1 - length v) with 1 by lia. reflexivity.
Qed.

End FieldNames.

Section AddScalarField.
Context {P : Platform}.

Lemma getScalarFieldIndexByName_sign nm c :
  (nm ∈ field_names c ∧ (0 ≤ PointCloud.getScalarFieldIndexByName nm c)%Z)
  ∨ ((nm ∉ field_names c) ∧ PointCloud.getScalarFieldIndexByName nm c = (-1)%Z).
Proof.
  unfold PointCloud.getScalarFieldIndexByName.
  destruct (index_by_name_spec nm (PointCloud.m_scalarFields c) 0)
    as [[H1 H2]|(k & f & H1 & Hk & Hf & _)].
  - right. auto.
  - left. split; [|rewrite H1; lia]. rewrite <- Hf. eapply field_in_names; eauto.
Qed.

Lemma resizeSafe_name ok count (f : ScalarField.t) :
  ScalarField.name (snd (ScalarField.resizeSafe ok count f)) = ScalarField.name f.
Proof. destruct ok; reflexivity. Qed.

Lemma resizeSafe_size count (f : ScalarField.t) :
  ScalarField.size (snd (ScalarField.resizeSafe true count f)) = count.
Proof. unfold ScalarField.size. simpl. apply length_resize. Qed.

Lemma addScalarField_duplicate b d nm c :
  nm ∈ field_names c → PointCloud.addScalarField b d nm c = ((-1)%Z, c).
Proof.
  intros Hin. unfold PointCloud.addScalarField.
  destruct (getScalarFieldIndexByName_sign nm c) as [[_ H]|[H _]]; [|tauto].
  apply Z.leb_le in H. rewrite H. reflexivity.
Qed.

(** The field that a successful [addScalarField] appends. *)
Lemma addScalarField_fresh b nm c :
  nm ∉ field_names c → PointCloud.size c = 0 ∨ b = true →
  ∃ f, ScalarField.name f = nm ∧ ScalarField.size f = PointCloud.size c
    ∧ PointCloud.addScalarField b true nm c
      = (Z.of_nat (length (PointCloud.m_scalarFields c)),
         PointCloud.set_scalarFields (PointCloud.m_scalarFields c ++ [f]) c).
Proof.
  intros Hnm Hb. unfold PointCloud.addScalarField.
  destruct (getScalarFieldIndexByName_sign nm c) as [[H _]|[_ H]]; [tauto|].
  rewrite H. simpl.
  destruct (PointCloud.size c =? 0) eqn:Es; simpl.
  - apply Nat.eqb_eq in Es. exists (ScalarField.create nm).
    rewrite resize_push_back, length_app, Es. simpl.
    refine (conj eq_refl (conj eq_refl _)). f_equal. lia.
  - destruct Hb as [Hb| ->]; [apply Nat.eqb_neq in Es; tauto|]. simpl.
    exists (ScalarField.computeMinAndMax
              (ScalarField.resize (PointCloud.size c) (ScalarField.create nm))).
    rewrite resize_push_back, length_app. simpl.
    refine (conj eq_refl (conj _ _)).
    + unfold ScalarField.size. simpl. apply length_resize.
    + f_equal. lia.
Qed.

Lemma addScalarField_refused b d nm c :
  (PointCloud.size c ≠ 0 ∧ b = false) ∨ d = false →
  PointCloud.addScalarField b d nm c = ((-1)%Z, c).
Proof.
  intros H. unfold PointCloud.addScalarField.
  destruct (0 <=? _)%Z; [reflexivity|].
  destruct H as [[Hs ->] | ->]; simpl.
  - apply Nat.eqb_neq in Hs. rewrite Hs. reflexivity.
  - destruct (negb _ && _); reflexivity.
Qed.

(** Whatever the allocator does, [addScalarField] either changes nothing
    and returns -1, or appends one field of the requested, fresh name and
    returns its index. *)
Lemma addScalarField_cases b d nm c :
  PointCloud.addScalarField b d nm c = ((-1)%Z, c)
  ∨ ((nm ∉ field_names c)
     ∧ ∃ f, ScalarField.name f = nm ∧ ScalarField.size f = PointCloud.size c
         ∧ PointCloud.addScalarField b d nm c
           = (Z.of_nat (length (PointCloud.m_scalarFields c)),
              PointCloud.set_scalarFields (PointCloud.m_scalarFields c ++ [f]) c)).
Proof.
  destruct (getScalarFieldIndexByName_sign nm c) as [[Hin _]|[Hnm _]].
  - left. apply addScalarField_duplicate. exact Hin.
  - destruct d; [|left; apply addScalarField_refused; auto].
    destruct (decide (PointCloud.size c = 0)) as [Hs|Hs].
    + right. split; [exact Hnm|]. apply addScalarField_fresh; auto.
    + destruct b; [|left; apply addScalarField_refused; auto].
      right. split; [exact Hnm|]. apply addScalarField_fresh; auto.
Qed.

End AddScalarField.

Section DeleteScalarField.
Context {P : Platform}.

Ltac split_comparisons :=
  repeat (match goal with
          | |- context [(?a =? ?b)%Z] => destruct (Z.eqb_spec a b)
          | |- context [(?a <? ?b)%Z] => destruct (Z.ltb_spec a b)
          | |- context [(?a <=? ?b)%Z] => destruct (Z.leb_spec a b)
          end; simpl in *).

Lemma deleteScalarField_out_of_range index c :
  (index < 0 ∨ Z.of_nat (length (PointCloud.m_scalarFields c)) ≤ index)%Z →
  PointCloud.deleteScalarField index c = c.
Proof.
  intros H. unfold PointCloud.deleteScalarField.
  split_comparisons; simpl; try reflexivity; lia.
Qed.

(** A valid [index]: the fields are compacted and both roles follow. *)
Lemma deleteScalarField_in_range index c :
  (0 ≤ index < Z.of_nat (length (PointCloud.m_scalarFields c)))%Z →
  PointCloud.deleteScalarField index c =
    PointCloud.mk (PointCloud.m_points c) (PointCloud.m_capacity c) (PointCloud.m_bbox c)
      (PointCloud.m_currentPointIndex c)
      (removelast
         (if (index <? Z.of_nat (length (PointCloud.m_scalarFields c)) - 1)%Z
          then vector_swap (Z.to_nat index)
                 (Z.to_nat (Z.of_nat (length (PointCloud.m_scalarFields c)) - 1))
                 (PointCloud.m_scalarFields c)
          else PointCloud.m_scalarFields c))
      (role_after_delete index (Z.of_nat (length (PointCloud.m_scalarFields c)) - 1)
         (PointCloud.m_currentInScalarFieldIndex c))
      (role_after_delete index (Z.of_nat (length (PointCloud.m_scalarFields c)) - 1)
         (PointCloud.m_currentOutScalarFieldIndex c)).
Proof.
  intros H. destruct c as [pts cap bb cur fs rin rout].
  unfold PointCloud.deleteScalarField, role_after_delete. simpl in *.
  split_comparisons; simpl; try lia; reflexivity.
Qed.

Lemma deleteScalarField_length index c :
  (0 ≤ index < Z.of_nat (length (PointCloud.m_scalarFields c)))%Z →
  length (PointCloud.m_scalarFields (PointCloud.deleteScalarField index c))
  = length (PointCloud.m_scalarFields c) - 1.
Proof.
  intros H. rewrite deleteScalarField_in_range by exact H. simpl.
  rewrite removelast_length. destruct (_ <? _)%Z; [apply f_equal2; [|reflexivity]|reflexivity].
  apply vector_swap_length.
Qed.

(** A role that pointed at another field than the deleted one still points
    at that same field. *)
Lemma deleteScalarField_role_follows index r c :
  (0 ≤ index < Z.of_nat (length (PointCloud.m_scalarFields c)))%Z →
  (0 ≤ r < Z.of_nat (length (PointCloud.m_scalarFields c)))%Z →
  r ≠ index →
  PointCloud.m_scalarFields (PointCloud.deleteScalarField index c)
    !! Z.to_nat
         (role_after_delete index (Z.of_nat (length (PointCloud.m_scalarFields c)) - 1) r)
  = PointCloud.m_scalarFields c !! Z.to_nat r.
Proof.
  intros Hi Hr Hne. rewrite deleteScalarField_in_range by exact Hi. simpl.
  set (n := length (PointCloud.m_scalarFields c)) in *.
  unfold role_after_delete.
  destruct (Z.eqb_spec r index); [contradiction|].
  destruct (Z.ltb_spec index (Z.of_nat n - 1)); simpl.
  - destruct (Z.eqb_spec r (Z.of_nat n - 1)) as [->|Hrl].
    + rewrite removelast_lookup by (rewrite vector_swap_length; fold n; lia).
      rewrite vector_swap_lookup by (fold n; lia).
      rewrite decide_True by reflexivity. reflexivity.
    + rewrite removelast_lookup by (rewrite vector_swap_length; fold n; lia).
      apply vector_swap_lookup_other; lia.
  - apply removelast_lookup. fold n. lia.
Qed.

Lemma role_after_delete_ok n index r :
  (0 ≤ index < Z.of_nat n)%Z → role_ok n r →
  role_ok (n - 1) (role_after_delete index (Z.of_nat n - 1) r).
Proof.
  intros Hi Hr. unfold role_ok, role_after_delete in *.
  destruct (Z.eqb_spec r index); [left; reflexivity|].
  destruct (Z.ltb_spec index (Z.of_nat n - 1)); simpl.
  - destruct (Z.eqb_spec r (Z.of_nat n - 1)); lia.
  - lia.
Qed.

Lemma map_removelast {A B} (f : A → B) (v : list A) :
  map f (removelast v) = removelast (map f v).
Proof.
  rewrite !removelast_take, length_map.
  change (map f) with (fmap (M:=list) f). apply fmap_take.
Qed.

Lemma deleteScalarField_names index c :
  NoDup (field_names c) → NoDup (field_names (PointCloud.deleteScalarField index c)).
Proof.
  intros Hnd.
  destruct (decide (0 ≤ index < Z.of_nat (length (PointCloud.m_scalarFields c)))%Z)
    as [Hi|Hi].
  - rewrite deleteScalarField_in_range by exact Hi. unfold field_names in *. simpl.
    rewrite map_removelast. apply removelast_NoDup.
    destruct (_ <? _)%Z; [|exact Hnd].
    rewrite vector_swap_map. apply vector_swap_NoDup. exact Hnd.
  - rewrite deleteScalarField_out_of_range by lia. exact Hnd.
Qed.

End DeleteScalarField.

Section RenameScalarField.
Context {P : Platform}.

Lemma owned_by_another_in_names index nm c :
  owned_by_another index nm c → nm ∈ field_names c.
Proof. intros (k & f & _ & Hk & <-). eapply field_in_names; eauto. Qed.

Lemma renameScalarField_name_taken index nm c :
  nm ∈ field_names c → PointCloud.renameScalarField index nm c = (false, c).
Proof.
  intros Hin. unfold PointCloud.renameScalarField.
  destruct (getScalarFieldIndexByName_sign nm c) as [[_ H]|[H _]]; [|tauto].
  apply Z.ltb_ge in H. rewrite H. reflexivity.
Qed.

Lemma renameScalarField_fresh index nm c f :
  nm ∉ field_names c → PointCloud.getScalarField index c = Some f →
  PointCloud.renameScalarField index nm c
  = (true,
     PointCloud.set_scalarFields
       (<[Z.to_nat index := ScalarField.setName nm f]> (PointCloud.m_scalarFields c)) c).
Proof.
  intros Hnm Hf. unfold PointCloud.renameScalarField.
  destruct (getScalarFieldIndexByName_sign nm c) as [[H _]|[_ H]]; [tauto|].
  rewrite H, Hf. reflexivity.
Qed.

Lemma renameScalarField_bad_index index nm c :
  PointCloud.getScalarField index c = None →
  PointCloud.renameScalarField index nm c = (false, c).
Proof.
  intros Hf. unfold PointCloud.renameScalarField. rewrite Hf.
  destruct (_ <? _)%Z; reflexivity.
Qed.

Lemma field_names_insert k f c :
  field_names (PointCloud.set_scalarFields (<[k := f]> (PointCloud.m_scalarFields c)) c)
  = <[k := ScalarField.name f]> (field_names c).
Proof.
  unfold field_names. simpl.
  change (map ScalarField.name) with (fmap (M:=list) ScalarField.name).
  apply list_fmap_insert.
Qed.

Lemma field_names_insert_same_name k f g c :
  PointCloud.m_scalarFields c !! k = Some g → ScalarField.name f = ScalarField.name g →
  field_names (PointCloud.set_scalarFields (<[k := f]> (PointCloud.m_scalarFields c)) c)
  = field_names c.
Proof.
  intros Hk Hn. rewrite field_names_insert. apply list_insert_id.
  unfold field_names. change (map ScalarField.name) with (fmap (M:=list) ScalarField.name).
  rewrite list_lookup_fmap, Hk, Hn. reflexivity.
Qed.

Lemma renameScalarField_names index nm c :
  NoDup (field_names c) → NoDup (field_names (snd (PointCloud.renameScalarField index nm c))).
Proof.
  intros Hnd. destruct (getScalarFieldIndexByName_sign nm c) as [[Hin _]|[Hnm _]].
  - rewrite renameScalarField_name_taken by exact Hin. exact Hnd.
  - destruct (PointCloud.getScalarField index c) as [f|] eqn:Hf.
    + rewrite (renameScalarField_fresh index nm c f) by assumption. simpl.
      rewrite field_names_insert. apply insert_NoDup; assumption.
    + rewrite renameScalarField_bad_index by exact Hf. exact Hnd.
Qed.

End RenameScalarField.

Section EnableScalarField.
Context {P : Platform}.

Lemma resizeSafe_fst ok count (f : ScalarField.t) :
  fst (ScalarField.resizeSafe ok count f) = ok.
Proof. destruct ok; reflexivity. Qed.

(** An input field is designated: it is the one resized. *)
Lemma enableScalarField_designated b d e c f :
  PointCloud.getCurrentInScalarField c = Some f →
  PointCloud.enableScalarField b d e c
  = (e,
     PointCloud.set_scalarFields
       (<[Z.to_nat (PointCloud.m_currentInScalarFieldIndex c) :=
            snd (ScalarField.resizeSafe e (PointCloud.m_capacity c) f)]>
          (PointCloud.m_scalarFields c))
       (match PointCloud.getCurrentOutScalarField c with
        | None => PointCloud.set_currentOut (PointCloud.m_currentInScalarFieldIndex c) c
        | Some _ => c
        end)).
Proof.
  intros Hf. unfold PointCloud.enableScalarField. rewrite Hf.
  destruct (PointCloud.getCurrentOutScalarField c) eqn:Ho.
  - rewrite Hf, resizeSafe_fst. reflexivity.
  - change (PointCloud.getCurrentInScalarField
              (PointCloud.set_currentOut (PointCloud.m_currentInScalarFieldIndex c) c))
      with (PointCloud.getCurrentInScalarField c).
    rewrite Hf, resizeSafe_fst. reflexivity.
Qed.

(** No input field is designated and a field named "Default" exists at
    index [k]: it becomes the input field. *)
Lemma enableScalarField_default_found b d e c k f :
  PointCloud.getCurrentInScalarField c = None →
  PointCloud.getScalarFieldIndexByName "Default" c = Z.of_nat k →
  PointCloud.m_scalarFields c !! k = Some f →
  PointCloud.enableScalarField b d e c
  = (e,
     PointCloud.set_scalarFields
       (<[k := snd (ScalarField.resizeSafe e (PointCloud.m_capacity c) f)]>
          (PointCloud.m_scalarFields c))
       (match PointCloud.getCurrentOutScalarField c with
        | None => PointCloud.set_currentOut (Z.of_nat k)
                    (PointCloud.set_currentIn (Z.of_nat k) c)
        | Some _ => PointCloud.set_currentIn (Z.of_nat k) c
        end)).
Proof.
  intros Hin Hidx Hk.
  assert (Hf : PointCloud.getCurrentInScalarField
                 (PointCloud.set_currentIn (Z.of_nat k) c) = Some f).
  { apply getScalarField_Some. simpl. rewrite Nat2Z.id. split; [lia|exact Hk]. }
  transitivity (PointCloud.enableScalarField b d e
                  (PointCloud.set_currentIn (Z.of_nat k) c)).
  - unfold PointCloud.enableScalarField at 1. rewrite Hin, Hidx. simpl.
    destruct (Z.ltb_spec (Z.of_nat k) 0); [lia|].
    unfold PointCloud.enableScalarField. rewrite Hf. reflexivity.
  - rewrite (enableScalarField_designated _ _ _ _ _ Hf). simpl.
    rewrite Nat2Z.id. reflexivity.
Qed.

(** No input field is designated, no field is named "Default", and the
    creation fails: the call fails and the input role is unset. *)
Lemma enableScalarField_creation_fails b d e c :
  PointCloud.getCurrentInScalarField c = None →
  "Default" ∉ field_names c →
  (PointCloud.size c ≠ 0 ∧ b = false) ∨ d = false →
  PointCloud.enableScalarField b d e c = (false, PointCloud.set_currentIn (-1)%Z c).
Proof.
  intros Hin Hnm Hfail. unfold PointCloud.enableScalarField. rewrite Hin.
  rewrite getScalarFieldIndexByName_absent by exact Hnm. simpl.
  rewrite addScalarField_refused by exact Hfail. reflexivity.
Qed.

(** No input field is designated, no field is named "Default", and the
    creation succeeds: the new field, the last one, becomes the input
    field. *)
Lemma enableScalarField_default_created b e c :
  PointCloud.getCurrentInScalarField c = None →
  "Default" ∉ field_names c →
  PointCloud.size c = 0 ∨ b = true →
  ∃ f, ScalarField.name f = "Default" ∧ ScalarField.size f = PointCloud.size c
    ∧ PointCloud.addScalarField b true "Default"
        (PointCloud.set_currentIn (-1)%Z c)
      = (Z.of_nat (length (PointCloud.m_scalarFields c)),
         PointCloud.set_scalarFields (PointCloud.m_scalarFields c ++ [f])
           (PointCloud.set_currentIn (-1)%Z c))
    ∧ PointCloud.enableScalarField b true e c
      = (e,
         PointCloud.set_scalarFields
           (PointCloud.m_scalarFields c
              ++ [snd (ScalarField.resizeSafe e (PointCloud.m_capacity c) f)])
           (match PointCloud.getScalarField (PointCloud.m_currentOutScalarFieldIndex c)
                    (PointCloud.set_scalarFields (PointCloud.m_scalarFields c ++ [f]) c)
            with
            | None =>
                PointCloud.set_currentOut (Z.of_nat (length (PointCloud.m_scalarFields c)))
                  (PointCloud.set_currentIn
                     (Z.of_nat (length (PointCloud.m_scalarFields c))) c)
            | Some _ =>
                PointCloud.set_currentIn
                  (Z.of_nat (length (PointCloud.m_scalarFields c))) c
            end)).
Proof.
  intros Hin Hnm Hb.
  destruct (addScalarField_fresh b "Default" (PointCloud.set_currentIn (-1)%Z c) Hnm Hb)
    as (f & Hname & Hsize & Hadd).
  exists f. refine (conj Hname (conj Hsize (conj Hadd _))).
  unfold PointCloud.enableScalarField. rewrite Hin.
  rewrite getScalarFieldIndexByName_absent by exact Hnm. simpl.
  rewrite Hadd. simpl.
  destruct (Z.ltb_spec (Z.of_nat (length (PointCloud.m_scalarFields c))) 0); [lia|].
  set (n := length (PointCloud.m_scalarFields c)).
  set (c2 := PointCloud.set_currentIn (Z.of_nat n)
               (PointCloud.set_scalarFields (PointCloud.m_scalarFields c ++ [f])
                  (PointCloud.set_currentIn (-1)%Z c))).
  assert (Hf : ∀ c3, PointCloud.m_scalarFields c3 = PointCloud.m_scalarFields c ++ [f] →
                 PointCloud.m_currentInScalarFieldIndex c3 = Z.of_nat n →
                 PointCloud.getCurrentInScalarField c3 = Some f).
  { intros c3 H1 H2. apply getScalarField_Some. rewrite H1, H2, Nat2Z.id.
    split; [lia|]. rewrite lookup_app_r by (unfold n; lia).
    unfold n. rewrite Nat.sub_diag. reflexivity. }
  assert (Hins : <[Z.to_nat (Z.of_nat n) :=
                     snd (ScalarField.resizeSafe e (PointCloud.m_capacity c) f)]>
                   (PointCloud.m_scalarFields c ++ [f])
                 = PointCloud.m_scalarFields c
                     ++ [snd (ScalarField.resizeSafe e (PointCloud.m_capacity c) f)]).
  { rewrite Nat2Z.id. rewrite insert_app_r_alt by (unfold n; lia).
    unfold n. rewrite Nat.sub_diag. reflexivity. }
  change (PointCloud.getCurrentOutScalarField c2)
    with (PointCloud.getScalarField (PointCloud.m_currentOutScalarFieldIndex c)
            (PointCloud.set_scalarFields (PointCloud.m_scalarFields c ++ [f]) c)).
  destruct (PointCloud.getScalarField _ _) eqn:Ho.
  - rewrite (Hf c2) by reflexivity. rewrite resizeSafe_fst. simpl.
    unfold PointCloud.set_scalarFields. simpl. rewrite Hins. reflexivity.
  - rewrite (Hf (PointCloud.set_currentOut _ c2)) by reflexivity.
    rewrite resizeSafe_fst. simpl.
    unfold PointCloud.set_scalarFields. simpl. rewrite Hins. reflexivity.
Qed.

End EnableScalarField.

(** ** Resizing *)

Section Resize.
Context {P : Platform}.

Lemma computeMinAndMax_id (f : ScalarField.t) :
  ScalarField.up_to_date f → ScalarField.computeMinAndMax f = f.
Proof.
  destruct f as [nm vs lo hi]. unfold ScalarField.up_to_date, ScalarField.computeMinAndMax.
  simpl. intros [-> ->]. reflexivity.
Qed.

(** Growing a field and taking it back restores it when it had the old
    count and statistics that were up to date. *)
Lemma taken_back_grown oldCount newCount (f : ScalarField.t) :
  oldCount ≤ newCount → ScalarField.size f = oldCount → ScalarField.up_to_date f →
  taken_back oldCount (grown newCount f) = f.
Proof.
  intros Hle Hsize Hup. rewrite <- (computeMinAndMax_id f Hup) at 2.
  destruct f as [nm vs lo hi]. unfold taken_back, grown, ScalarField.size in *.
  unfold ScalarField.computeMinAndMax, ScalarField.resize. simpl in *.
  rewrite resize_resize by exact Hle. rewrite resize_all_alt by (symmetry; exact Hsize).
  reflexivity.
Qed.

Lemma taken_back_facts oldCount (g : ScalarField.t) :
  ScalarField.name (taken_back oldCount g) = ScalarField.name g
  ∧ ScalarField.size (taken_back oldCount g) = oldCount
  ∧ ScalarField.up_to_date (taken_back oldCount g).
Proof.
  unfold taken_back, ScalarField.size. simpl.
  refine (conj eq_refl (conj _ _)); [apply length_resize | split; reflexivity].
Qed.

Lemma grown_facts newCount (f : ScalarField.t) :
  ScalarField.name (grown newCount f) = ScalarField.name f
  ∧ ScalarField.size (grown newCount f) = newCount
  ∧ ScalarField.up_to_date (grown newCount f).
Proof.
  unfold grown, ScalarField.size. simpl.
  refine (conj eq_refl (conj _ _)); [apply length_resize | split; reflexivity].
Qed.

Lemma resize_fields_success sf_ok newCount oldCount todo : ∀ i done,
  (∀ k, k < length todo → sf_ok (i + k) = true) →
  PointCloud.resize_fields sf_ok newCount oldCount i done todo
  = (true, done ++ map (grown newCount) todo).
Proof.
  induction todo as [|f todo IH]; intros i done Hok; simpl.
  - rewrite app_nil_r. reflexivity.
  - pose proof (Hok 0 ltac:(simpl; lia)) as H0. rewrite Nat.add_0_r in H0.
    rewrite H0. simpl. rewrite IH.
    + rewrite <- app_assoc. reflexivity.
    + intros k Hk. replace (S i + k) with (i + S k) by lia. apply Hok. simpl. lia.
Qed.

Lemma resize_fields_failure sf_ok newCount oldCount todo : ∀ i done k,
  k < length todo → sf_ok (i + k) = false → (∀ k', k' < k → sf_ok (i + k') = true) →
  PointCloud.resize_fields sf_ok newCount oldCount i done todo
  = (false,
     map (taken_back oldCount) done
       ++ map (λ f, taken_back oldCount (grown newCount f)) (take k todo)
       ++ drop k todo).
Proof.
  induction todo as [|f todo IH]; intros i done k Hk Hfail Hok; simpl in Hk; [lia|].
  destruct k as [|k].
  - rewrite Nat.add_0_r in Hfail. simpl. rewrite Hfail. reflexivity.
  - pose proof (Hok 0 ltac:(lia)) as H0. rewrite Nat.add_0_r in H0.
    simpl. rewrite H0. simpl.
    rewrite (IH (S i) _ k).
    + rewrite map_app. simpl. rewrite <- app_assoc. reflexivity.
    + lia.
    + replace (S i + k) with (i + S k) by lia. exact Hfail.
    + intros k' Hk'. replace (S i + k') with (i + S k') by lia. apply Hok. lia.
Qed.

Lemma resize_alloc_fails sf_ok newCount c :
  PointCloud.resize false sf_ok newCount c = (false, c).
Proof. reflexivity. Qed.

Lemma resize_success sf_ok newCount c :
  (∀ j, j < length (PointCloud.m_scalarFields c) → sf_ok j = true) →
  PointCloud.resize true sf_ok newCount c
  = (true,
     PointCloud.set_scalarFields (map (grown newCount) (PointCloud.m_scalarFields c))
       (PointCloud.resize_points newCount c)).
Proof.
  intros Hok. unfold PointCloud.resize. simpl.
  rewrite resize_fields_success by exact Hok. reflexivity.
Qed.

Lemma resize_failure sf_ok newCount c i :
  i < length (PointCloud.m_scalarFields c) → first_failure sf_ok i →
  PointCloud.resize true sf_ok newCount c
  = (false,
     PointCloud.resize_points (PointCloud.size c)
       (PointCloud.set_scalarFields
          (map (λ f, taken_back (PointCloud.size c) (grown newCount f))
               (take i (PointCloud.m_scalarFields c))
             ++ drop i (PointCloud.m_scalarFields c))
          (PointCloud.resize_points newCount c))).
Proof.
  intros Hi [Hfail Hok]. unfold PointCloud.resize. simpl.
  rewrite (resize_fields_failure _ _ _ _ 0 [] i) by (simpl; auto).
  reflexivity.
Qed.

(** The scalar fields after a [resize] that failed at field [i]. *)
Lemma rolled_back_lookup_before oldCount newCount i j (fs : list ScalarField.t) f :
  j < i → fs !! j = Some f →
  (map (λ f, taken_back oldCount (grown newCount f)) (take i fs) ++ drop i fs) !! j
  = Some (taken_back oldCount (grown newCount f)).
Proof.
  intros Hj Hf. pose proof (lookup_lt_Some _ _ _ Hf) as Hlen.
  rewrite lookup_app_l by (rewrite length_map, length_take; lia).
  change (map ?g) with (fmap (M:=list) g).
  rewrite list_lookup_fmap, lookup_take_lt by exact Hj. rewrite Hf. reflexivity.
Qed.

Lemma rolled_back_lookup_from oldCount newCount i j (fs : list ScalarField.t) :
  i ≤ length fs → i ≤ j →
  (map (λ f, taken_back oldCount (grown newCount f)) (take i fs) ++ drop i fs) !! j
  = fs !! j.
Proof.
  intros Hi Hj.
  rewrite lookup_app_r by (rewrite length_map, length_take; lia).
  rewrite length_map, length_take, lookup_drop. f_equal. lia.
Qed.

Lemma rolled_back_length oldCount newCount i (fs : list ScalarField.t) :
  length (map (λ f, taken_back oldCount (grown newCount f)) (take i fs) ++ drop i fs)
  = length fs.
Proof. rewrite length_app, length_map, length_take, length_drop. lia. Qed.

Lemma rolled_back_identity oldCount newCount i (fs : list ScalarField.t) :
  oldCount ≤ newCount →
  (∀ j f, j < i → fs !! j = Some f →
     ScalarField.size f = oldCount ∧ ScalarField.up_to_date f) →
  map (λ f, taken_back oldCount (grown newCount f)) (take i fs) ++ drop i fs = fs.
Proof.
  intros Hle Hall. rewrite <- (take_drop i fs) at 3. f_equal.
  rewrite <- (map_id (take i fs)) at 2. apply map_ext_in. intros f Hin.
  apply list_elem_of_In, list_elem_of_lookup in Hin as [j Hj].
  apply lookup_take_Some in Hj as [Hj Hlt].
  destruct (Hall j f Hlt Hj). apply taken_back_grown; assumption.
Qed.

Lemma resize_names pts_ok sf_ok newCount c :
  field_names (snd (PointCloud.resize pts_ok sf_ok newCount c)) = field_names c.
Proof.
  destruct pts_ok; [|reflexivity].
  assert (Hgen : ∀ todo i done,
    map ScalarField.name
        (snd (PointCloud.resize_fields sf_ok newCount (PointCloud.size c) i done todo))
    = map ScalarField.name done ++ map ScalarField.name todo).
  { induction todo as [|f todo IH]; intros i done; simpl.
    - rewrite app_nil_r. reflexivity.
    - destruct (sf_ok i); simpl.
      + rewrite IH, map_app, <- app_assoc. reflexivity.
      + rewrite map_app, map_map. reflexivity. }
  unfold PointCloud.resize, field_names. simpl.
  specialize (Hgen (PointCloud.m_scalarFields c) 0 []). unfold PointCloud.size in Hgen.
  destruct (fst _); simpl; exact Hgen.
Qed.

Lemma resize_roles pts_ok sf_ok newCount c :
  PointCloud.m_currentInScalarFieldIndex (snd (PointCloud.resize pts_ok sf_ok newCount c))
    = PointCloud.m_currentInScalarFieldIndex c
  ∧ PointCloud.m_currentOutScalarFieldIndex (snd (PointCloud.resize pts_ok sf_ok newCount c))
    = PointCloud.m_currentOutScalarFieldIndex c.
Proof.
  unfold PointCloud.resize. destruct pts_ok; simpl; [|auto].
  destruct (fst _); simpl; auto.
Qed.

(** What [resize(newCount)] does, case by case. It returns false and
    leaves the cloud as it is when the point sequence cannot be allocated.
    When the point sequence is resized and field [i] is the first whose
    safe resize fails,
    the call returns false, the point count is the old one, every field
    before [i] has been taken back to the old point count with its min/max
    recomputed, the fields from [i] on, the cache and the roles are
    untouched; when moreover [newCount] is not below the old count, the
    points are the old ones, and when also every field before [i] had the
    old point count as its length and up-to-date min/max, the scalar fields
    are the old ones too. When no safe resize fails, the call returns true
    and the point sequence and every field have exactly [newCount]
    elements. *)
Theorem resize_rolls_back_to_the_old_point_count :
  (∀ sf_ok newCount c, PointCloud.resize false sf_ok newCount c = (false, c))
  ∧ (∀ sf_ok newCount c i,
       i < length (PointCloud.m_scalarFields c) → first_failure sf_ok i →
       fst (PointCloud.resize true sf_ok newCount c) = false
       ∧ PointCloud.size (snd (PointCloud.resize true sf_ok newCount c)) = PointCloud.size c
       ∧ length (PointCloud.m_scalarFields (snd (PointCloud.resize true sf_ok newCount c)))
         = length (PointCloud.m_scalarFields c)
       ∧ (∀ j f, j < i → PointCloud.m_scalarFields c !! j = Some f →
            ∃ f', PointCloud.m_scalarFields (snd (PointCloud.resize true sf_ok newCount c)) !! j
                  = Some f'
              ∧ f' = taken_back (PointCloud.size c) (grown newCount f)
              ∧ ScalarField.name f' = ScalarField.name f
              ∧ ScalarField.size f' = PointCloud.size c
              ∧ ScalarField.up_to_date f')
       ∧ (∀ j, i ≤ j →
            PointCloud.m_scalarFields (snd (PointCloud.resize true sf_ok newCount c)) !! j
            = PointCloud.m_scalarFields c !! j)
       ∧ PointCloud.m_bbox (snd (PointCloud.resize true sf_ok newCount c))
         = PointCloud.m_bbox c
       ∧ PointCloud.m_currentInScalarFieldIndex (snd (PointCloud.resize true sf_ok newCount c))
         = PointCloud.m_currentInScalarFieldIndex c
       ∧ PointCloud.m_currentOutScalarFieldIndex (snd (PointCloud.resize true sf_ok newCount c))
         = PointCloud.m_currentOutScalarFieldIndex c
       ∧ (PointCloud.size c ≤ newCount →
            PointCloud.m_points (snd (PointCloud.resize true sf_ok newCount c))
            = PointCloud.m_points c)
       ∧ (PointCloud.size c ≤ newCount →
          (∀ j f, j < i → PointCloud.m_scalarFields c !! j = Some f →
             ScalarField.size f = PointCloud.size c ∧ ScalarField.up_to_date f) →
          PointCloud.m_scalarFields (snd (PointCloud.resize true sf_ok newCount c))
          = PointCloud.m_scalarFields c))
  ∧ (∀ sf_ok newCount c,
       (∀ j, j < length (PointCloud.m_scalarFields c) → sf_ok j = true) →
       fst (PointCloud.resize true sf_ok newCount c) = true
       ∧ PointCloud.size (snd (PointCloud.resize true sf_ok newCount c)) = newCount
       ∧ length (PointCloud.m_scalarFields (snd (PointCloud.resize true sf_ok newCount c)))
         = length (PointCloud.m_scalarFields c)
       ∧ (∀ j f', PointCloud.m_scalarFields (snd (PointCloud.resize true sf_ok newCount c)) !! j
                  = Some f' →
            ScalarField.size f' = newCount ∧ ScalarField.up_to_date f')).
Proof.
  split; [exact resize_alloc_fails|]. split.
  - intros sf_ok newCount c i Hi Hfirst.
    rewrite (resize_failure sf_ok newCount c i Hi Hfirst).
    unfold PointCloud.size. simpl.
    refine (conj eq_refl (conj _ (conj _ (conj _ (conj _
             (conj eq_refl (conj eq_refl (conj eq_refl (conj _ _))))))))).
    + apply length_resize.
    + apply rolled_back_length.
    + intros j f Hj Hf. exists (taken_back (length (PointCloud.m_points c)) (grown newCount f)).
      refine (conj _ (conj eq_refl (conj eq_refl (conj _ _)))).
      * apply rolled_back_lookup_before; assumption.
      * apply taken_back_facts.
      * apply taken_back_facts.
    + intros j Hj. apply rolled_back_lookup_from; lia.
    + intros Hle. rewrite resize_resize by exact Hle. apply resize_all.
    + intros Hle Hall. apply rolled_back_identity; assumption.
  - intros sf_ok newCount c Hok. rewrite resize_success by exact Hok.
    unfold PointCloud.size. simpl.
    refine (conj eq_refl (conj _ (conj _ _))).
    + apply length_resize.
    + apply length_map.
    + intros j f' Hj. change (map ?g) with (fmap (M:=list) g) in Hj.
      rewrite list_lookup_fmap in Hj.
      destruct (PointCloud.m_scalarFields c !! j) as [f|]; [|discriminate].
      injection Hj as <-. apply grown_facts.
Qed.

End Resize.

(** ** What every reachable cloud satisfies *)

Section Reachable.
Context {P : Platform}.

Lemma roles_ok_same c c' :
  length (PointCloud.m_scalarFields c') = length (PointCloud.m_scalarFields c) →
  PointCloud.m_currentInScalarFieldIndex c' = PointCloud.m_currentInScalarFieldIndex c →
  PointCloud.m_currentOutScalarFieldIndex c' = PointCloud.m_currentOutScalarFieldIndex c →
  roles_ok c → roles_ok c'.
Proof. unfold roles_ok. intros -> -> ->. tauto. Qed.

Lemma forEach_fields action c :
  length (PointCloud.m_scalarFields (PointCloud.forEach action c))
    = length (PointCloud.m_scalarFields c)
  ∧ field_names (PointCloud.forEach action c) = field_names c
  ∧ PointCloud.m_currentInScalarFieldIndex (PointCloud.forEach action c)
    = PointCloud.m_currentInScalarFieldIndex c
  ∧ PointCloud.m_currentOutScalarFieldIndex (PointCloud.forEach action c)
    = PointCloud.m_currentOutScalarFieldIndex c.
Proof.
  unfold PointCloud.forEach.
  destruct (PointCloud.getCurrentOutScalarField c) as [f|] eqn:Hf; [|auto].
  simpl. refine (conj _ (conj _ (conj eq_refl eq_refl))).
  - apply length_insert.
  - apply getScalarField_Some in Hf as [_ Hf].
    apply (field_names_insert_same_name _ _ f); [exact Hf|reflexivity].
Qed.

Lemma setPointScalarValue_fields i v c :
  length (PointCloud.m_scalarFields (PointCloud.setPointScalarValue i v c))
    = length (PointCloud.m_scalarFields c)
  ∧ field_names (PointCloud.setPointScalarValue i v c) = field_names c
  ∧ PointCloud.m_currentInScalarFieldIndex (PointCloud.setPointScalarValue i v c)
    = PointCloud.m_currentInScalarFieldIndex c
  ∧ PointCloud.m_currentOutScalarFieldIndex (PointCloud.setPointScalarValue i v c)
    = PointCloud.m_currentOutScalarFieldIndex c.
Proof.
  unfold PointCloud.setPointScalarValue.
  destruct (PointCloud.getCurrentInScalarField c) as [f|] eqn:Hf; [|auto].
  simpl. refine (conj _ (conj _ (conj eq_refl eq_refl))).
  - apply length_insert.
  - apply getScalarField_Some in Hf as [_ Hf].
    apply (field_names_insert_same_name _ _ f); [exact Hf|reflexivity].
Qed.

Lemma swapPoints_fields i j c :
  length (PointCloud.m_scalarFields (PointCloud.swapPoints i j c))
    = length (PointCloud.m_scalarFields c)
  ∧ field_names (PointCloud.swapPoints i j c) = field_names c
  ∧ PointCloud.m_currentInScalarFieldIndex (PointCloud.swapPoints i j c)
    = PointCloud.m_currentInScalarFieldIndex c
  ∧ PointCloud.m_currentOutScalarFieldIndex (PointCloud.swapPoints i j c)
    = PointCloud.m_currentOutScalarFieldIndex c.
Proof.
  unfold PointCloud.swapPoints. destruct (_ || _ || _); [auto|]. simpl.
  refine (conj _ (conj _ (conj eq_refl eq_refl))).
  - apply length_map.
  - unfold field_names. simpl. rewrite map_map. reflexivity.
Qed.

Lemma reserve_fields_unchanged pts_ok sf_ok n c :
  PointCloud.m_scalarFields (snd (PointCloud.reserve pts_ok sf_ok n c))
    = PointCloud.m_scalarFields c
  ∧ PointCloud.m_currentInScalarFieldIndex (snd (PointCloud.reserve pts_ok sf_ok n c))
    = PointCloud.m_currentInScalarFieldIndex c
  ∧ PointCloud.m_currentOutScalarFieldIndex (snd (PointCloud.reserve pts_ok sf_ok n c))
    = PointCloud.m_currentOutScalarFieldIndex c.
Proof.
  unfold PointCloud.reserve. destruct pts_ok; simpl; [|auto].
  destruct (PointCloud.reserve_fields _ _ _ _); auto.
Qed.

Lemma role_ok_mono n m r : n ≤ m → role_ok n r → role_ok m r.
Proof. unfold role_ok. lia. Qed.

Lemma addScalarField_roles_ok b d nm c :
  roles_ok c → roles_ok (snd (PointCloud.addScalarField b d nm c)).
Proof.
  intros [Hin Hout].
  destruct (addScalarField_cases b d nm c) as [->|(_ & f & _ & _ & ->)]; [split; auto|].
  unfold roles_ok. simpl. rewrite length_app. simpl.
  split; (eapply role_ok_mono; [|eassumption]; lia).
Qed.

Lemma addScalarField_names b d nm c :
  NoDup (field_names c) → NoDup (field_names (snd (PointCloud.addScalarField b d nm c))).
Proof.
  intros Hnd.
  destruct (addScalarField_cases b d nm c) as [->|(Hnm & f & Hf & _ & ->)]; [exact Hnd|].
  unfold field_names in *. simpl. rewrite map_app. simpl. rewrite Hf.
  apply NoDup_app. refine (conj Hnd (conj _ _)).
  - intros x Hx Hx'. apply list_elem_of_singleton in Hx'. subst. contradiction.
  - apply NoDup_singleton.
Qed.

Lemma deleteScalarField_roles_ok index c :
  roles_ok c → roles_ok (PointCloud.deleteScalarField index c).
Proof.
  intros [Hin Hout].
  destruct (decide (0 ≤ index < Z.of_nat (length (PointCloud.m_scalarFields c)))%Z)
    as [Hi|Hi].
  - unfold roles_ok. rewrite deleteScalarField_length by exact Hi.
    rewrite deleteScalarField_in_range by exact Hi. simpl.
    split; apply role_after_delete_ok; assumption.
  - rewrite deleteScalarField_out_of_range by lia. split; assumption.
Qed.

Lemma renameScalarField_roles_ok index nm c :
  roles_ok c → roles_ok (snd (PointCloud.renameScalarField index nm c)).
Proof.
  intros H. unfold PointCloud.renameScalarField.
  destruct (_ <? _)%Z; [|exact H].
  destruct (PointCloud.getScalarField index c); [|exact H].
  simpl. eapply roles_ok_same; [| | |exact H]; try reflexivity. simpl. apply length_insert.
Qed.

(** [enableScalarField] leaves an input role that is unset or valid, and an
    output role that is so if it was. *)
Lemma enableScalarField_roles_ok b d e c :
  roles_ok c → roles_ok (snd (PointCloud.enableScalarField b d e c)).
Proof.
  intros [Hin Hout].
  destruct (PointCloud.getCurrentInScalarField c) as [f|] eqn:Hf.
  - rewrite (enableScalarField_designated b d e c f Hf). unfold roles_ok. simpl.
    rewrite length_insert.
    destruct (PointCloud.getCurrentOutScalarField c); simpl; auto.
  - destruct (getScalarFieldIndexByName_sign "Default" c) as [[Hd _]|[Hd _]].
    + destruct (getScalarFieldIndexByName_present "Default" c Hd) as (k & f & Hk & Hfk & _).
      rewrite (enableScalarField_default_found b d e c k f Hf Hk Hfk).
      pose proof (lookup_lt_Some _ _ _ Hfk) as Hlt.
      unfold roles_ok. simpl. rewrite length_insert.
      assert (role_ok (length (PointCloud.m_scalarFields c)) (Z.of_nat k)) by (right; lia).
      destruct (PointCloud.getCurrentOutScalarField c); simpl; auto.
    + destruct d; [|rewrite enableScalarField_creation_fails by auto; split; [left|]; auto].
      assert (Hcase : PointCloud.size c = 0 ∨ b = true
                      ∨ (PointCloud.size c ≠ 0 ∧ b = false))
        by (destruct b, (decide (PointCloud.size c = 0)); auto).
      destruct Hcase as [Hs|[Hs|Hs]].
      * destruct (enableScalarField_default_created b e c Hf Hd (or_introl Hs))
          as (f & _ & _ & _ & ->).
        unfold roles_ok. simpl. rewrite length_app. simpl.
        assert (role_ok (length (PointCloud.m_scalarFields c) + 1)
                  (Z.of_nat (length (PointCloud.m_scalarFields c)))) by (right; lia).
        destruct (PointCloud.getScalarField _ _); simpl; split; auto.
        eapply role_ok_mono; [|exact Hout]. lia.
      * destruct (enableScalarField_default_created b e c Hf Hd (or_intror Hs))
          as (f & _ & _ & _ & ->).
        unfold roles_ok. simpl. rewrite length_app. simpl.
        assert (role_ok (length (PointCloud.m_scalarFields c) + 1)
                  (Z.of_nat (length (PointCloud.m_scalarFields c)))) by (right; lia).
        destruct (PointCloud.getScalarField _ _); simpl; split; auto.
        eapply role_ok_mono; [|exact Hout]. lia.
      * rewrite enableScalarField_creation_fails by auto. split; [left|]; auto.
Qed.

Lemma enableScalarField_names b d e c :
  NoDup (field_names c) → NoDup (field_names (snd (PointCloud.enableScalarField b d e c))).
Proof.
  intros Hnd.
  assert (Hsame : ∀ k f c', PointCloud.m_scalarFields c' = PointCloud.m_scalarFields c →
            PointCloud.m_scalarFields c !! k = Some f →
            NoDup (field_names
                     (PointCloud.set_scalarFields
                        (<[k := snd (ScalarField.resizeSafe e (PointCloud.m_capacity c) f)]>
                           (PointCloud.m_scalarFields c)) c'))).
  { intros k f c' Hc' Hk. unfold field_names. simpl.
    change (map ScalarField.name) with (fmap (M:=list) ScalarField.name).
    rewrite list_fmap_insert, resizeSafe_name, list_insert_id; [exact Hnd|].
    rewrite list_lookup_fmap, Hk. reflexivity. }
  destruct (PointCloud.getCurrentInScalarField c) as [f|] eqn:Hf.
  - rewrite (enableScalarField_designated b d e c f Hf). simpl.
    apply getScalarField_Some in Hf as [_ Hf].
    apply Hsame; [|exact Hf]. destruct (PointCloud.getCurrentOutScalarField c); reflexivity.
  - destruct (getScalarFieldIndexByName_sign "Default" c) as [[Hd _]|[Hd _]].
    + destruct (getScalarFieldIndexByName_present "Default" c Hd) as (k & f & Hk & Hfk & _).
      rewrite (enableScalarField_default_found b d e c k f Hf Hk Hfk). simpl.
      apply Hsame; [|exact Hfk]. destruct (PointCloud.getCurrentOutScalarField c); reflexivity.
    + assert (Hfail : ∀ b d, (PointCloud.size c ≠ 0 ∧ b = false) ∨ d = false →
                NoDup (field_names (snd (PointCloud.enableScalarField b d e c)))).
      { intros b' d' H. rewrite enableScalarField_creation_fails by auto. exact Hnd. }
      assert (Hok : ∀ b, PointCloud.size c = 0 ∨ b = true →
                NoDup (field_names (snd (PointCloud.enableScalarField b true e c)))).
      { intros b' H.
        destruct (enableScalarField_default_created b' e c Hf Hd H) as (f & Hn & _ & _ & ->).
        unfold field_names in *. simpl. rewrite map_app. simpl.
        rewrite resizeSafe_name, Hn.
        apply NoDup_app. refine (conj Hnd (conj _ _)).
        - intros x Hx Hx'. apply list_elem_of_singleton in Hx'. subst. contradiction.
        - apply NoDup_singleton. }
      destruct d; [|apply Hfail; auto].
      destruct b; [apply Hok; auto|].
      destruct (decide (PointCloud.size c = 0)); [apply Hok; auto|apply Hfail; auto].
Qed.

Lemma run_roles_ok k c : roles_ok c → roles_ok (PointCloud.run k c).
Proof.
  intros H. destruct k; simpl; try exact H.
  - split; left; reflexivity.
  - destruct (forEach_fields action c) as (H1 & _ & H2 & H3).
    apply (roles_ok_same c); assumption.
  - unfold PointCloud.getNextPoint. destruct (_ <? _); exact H.
  - apply (roles_ok_same c); [|apply resize_roles|apply resize_roles|exact H].
    rewrite <- !field_names_length, resize_names. reflexivity.
  - destruct (reserve_fields_unchanged pts_ok sf_ok newCapacity c) as (H1 & H2 & H3).
    apply (roles_ok_same c); [rewrite H1; reflexivity|exact H2|exact H3|exact H].
  - destruct (addPoint_fields p c) as (H1 & H2 & H3).
    apply (roles_ok_same c); [rewrite H1; reflexivity|exact H2|exact H3|exact H].
  - destruct (applyTransformation_fields trans c) as (H1 & H2 & H3).
    apply (roles_ok_same c); [rewrite H1; reflexivity|exact H2|exact H3|exact H].
  - apply enableScalarField_roles_ok. exact H.
  - destruct (setPointScalarValue_fields pointIndex value c) as (H1 & _ & H2 & H3).
    apply (roles_ok_same c); assumption.
  - apply addScalarField_roles_ok. exact H.
  - apply deleteScalarField_roles_ok. exact H.
  - split; left; reflexivity.
  - apply renameScalarField_roles_ok. exact H.
  - destruct (swapPoints_fields firstIndex secondIndex c) as (H1 & _ & H2 & H3).
    apply (roles_ok_same c); assumption.
Qed.

Lemma run_names k c :
  NoDup (field_names c) → NoDup (field_names (PointCloud.run k c)).
Proof.
  intros H. destruct k; simpl; try exact H.
  - apply NoDup_nil_2.
  - destruct (forEach_fields action c) as (_ & -> & _). exact H.
  - unfold PointCloud.getNextPoint. destruct (_ <? _); exact H.
  - rewrite resize_names. exact H.
  - unfold field_names.
    destruct (reserve_fields_unchanged pts_ok sf_ok newCapacity c) as (-> & _). exact H.
  - unfold field_names. destruct (addPoint_fields p c) as (-> & _). exact H.
  - unfold field_names. destruct (applyTransformation_fields trans c) as (-> & _). exact H.
  - apply enableScalarField_names. exact H.
  - destruct (setPointScalarValue_fields pointIndex value c) as (_ & -> & _). exact H.
  - apply addScalarField_names. exact H.
  - apply deleteScalarField_names. exact H.
  - apply NoDup_nil_2.
  - apply renameScalarField_names. exact H.
  - destruct (swapPoints_fields firstIndex secondIndex c) as (_ & -> & _). exact H.
Qed.

Lemma reachable_roles_ok c : PointCloud.reachable c → roles_ok c.
Proof.
  induction 1 as [|k c _ IH].
  - split; left; reflexivity.
  - apply run_roles_ok. exact IH.
Qed.

Lemma reachable_names_unique c : PointCloud.reachable c → NoDup (field_names c).
Proof.
  induction 1 as [|k c _ IH].
  - apply NoDup_nil_2.
  - apply run_names. exact IH.
Qed.

Lemma reachable_run_all ks : ∀ c,
  PointCloud.reachable c → PointCloud.reachable (PointCloud.run_all ks c).
Proof.
  induction ks as [|k ks IH]; intros c Hc; [exact Hc|].
  unfold PointCloud.run_all in *. simpl. apply IH. constructor. exact Hc.
Qed.

End Reachable.

(** ** Scalar-field roles *)

Section Roles.
Context {P : Platform}.

(** C6. In every reachable cloud each of the two roles is -1 or a valid
    index into the scalar fields. [deleteScalarField(index)] with a valid
    index sets a role that pointed at [index] to -1, sets a role that
    pointed at the last field to [index] when that field was moved there
    (that is, when [index] was not the last one), and leaves any other role
    as it was, so that a role that survives designates the same field as
    before; an invalid index changes nothing. [deleteAllScalarFields] sets
    both roles to -1 and leaves no field. *)
Theorem roles_are_unset_or_valid :
  (∀ c, PointCloud.reachable c → roles_ok c)
  ∧ (∀ index c,
       (0 ≤ index < Z.of_nat (length (PointCloud.m_scalarFields c)))%Z →
       PointCloud.m_currentInScalarFieldIndex (PointCloud.deleteScalarField index c)
         = role_after_delete index (Z.of_nat (length (PointCloud.m_scalarFields c)) - 1)
             (PointCloud.m_currentInScalarFieldIndex c)
       ∧ PointCloud.m_currentOutScalarFieldIndex (PointCloud.deleteScalarField index c)
         = role_after_delete index (Z.of_nat (length (PointCloud.m_scalarFields c)) - 1)
             (PointCloud.m_currentOutScalarFieldIndex c)
       ∧ length (PointCloud.m_scalarFields (PointCloud.deleteScalarField index c))
         = length (PointCloud.m_scalarFields c) - 1)
  ∧ (∀ index lastIndex, role_after_delete index lastIndex index = (-1)%Z)
  ∧ (∀ index lastIndex,
       (index < lastIndex)%Z → role_after_delete index lastIndex lastIndex = index)
  ∧ (∀ index lastIndex r,
       r ≠ index → r ≠ lastIndex ∨ (lastIndex ≤ index)%Z →
       role_after_delete index lastIndex r = r)
  ∧ (∀ index r c,
       (0 ≤ index < Z.of_nat (length (PointCloud.m_scalarFields c)))%Z →
       (0 ≤ r < Z.of_nat (length (PointCloud.m_scalarFields c)))%Z →
       r ≠ index →
       PointCloud.m_scalarFields (PointCloud.deleteScalarField index c)
         !! Z.to_nat (role_after_delete index
                        (Z.of_nat (length (PointCloud.m_scalarFields c)) - 1) r)
       = PointCloud.m_scalarFields c !! Z.to_nat r)
  ∧ (∀ index c,
       (index < 0 ∨ Z.of_nat (length (PointCloud.m_scalarFields c)) ≤ index)%Z →
       PointCloud.deleteScalarField index c = c)
  ∧ (∀ c,
       PointCloud.m_currentInScalarFieldIndex (PointCloud.deleteAllScalarFields c) = (-1)%Z
       ∧ PointCloud.m_currentOutScalarFieldIndex (PointCloud.deleteAllScalarFields c)
         = (-1)%Z
       ∧ PointCloud.m_scalarFields (PointCloud.deleteAllScalarFields c) = []).
Proof.
  split; [exact reachable_roles_ok|]. split.
  { intros index c Hi. rewrite deleteScalarField_length by exact Hi.
    rewrite deleteScalarField_in_range by exact Hi. simpl. auto. }
  split.
  { intros index lastIndex. unfold role_after_delete. rewrite Z.eqb_refl. reflexivity. }
  split.
  { intros index lastIndex Hlt. unfold role_after_delete.
    destruct (Z.eqb_spec lastIndex index); [lia|].
    destruct (Z.ltb_spec index lastIndex); [|lia].
    rewrite Z.eqb_refl. reflexivity. }
  split.
  { intros index lastIndex r Hne Hor. unfold role_after_delete.
    destruct (Z.eqb_spec r index); [contradiction|].
    destruct (Z.ltb_spec index lastIndex), (Z.eqb_spec r lastIndex); simpl;
      try reflexivity.
    destruct Hor; [contradiction|lia]. }
  split; [exact deleteScalarField_role_follows|].
  split; [exact deleteScalarField_out_of_range|].
  intros c. auto.
Qed.

End Roles.

(** ** Adding, enabling and renaming scalar fields *)

Section FieldManagement.
Context {P : Platform}.

Lemma deleteScalarField_last (f : ScalarField.t) c :
  PointCloud.m_scalarFields
    (PointCloud.deleteScalarField (Z.of_nat (length (PointCloud.m_scalarFields c)))
       (PointCloud.set_scalarFields (PointCloud.m_scalarFields c ++ [f]) c))
  = PointCloud.m_scalarFields c.
Proof.
  rewrite deleteScalarField_in_range by (simpl; rewrite length_app; simpl; lia).
  simpl. rewrite length_app. simpl.
  destruct (Z.ltb_spec (Z.of_nat (length (PointCloud.m_scalarFields c)))
              (Z.of_nat (length (PointCloud.m_scalarFields c) + 1) - 1)); [lia|].
  apply removelast_last.
Qed.

(** [addScalarField] returns -1 in three cases only. *)
Lemma addScalarField_fails_iff b d nm c :
  fst (PointCloud.addScalarField b d nm c) = (-1)%Z
  ↔ nm ∈ field_names c ∨ (PointCloud.size c ≠ 0 ∧ b = false) ∨ d = false.
Proof.
  split.
  - intros Hfst.
    destruct (getScalarFieldIndexByName_sign nm c) as [[Hin _]|[Hnm _]]; [auto|].
    destruct d; [|auto].
    destruct (decide (PointCloud.size c = 0)) as [Hs|Hs].
    + destruct (addScalarField_fresh b nm c Hnm (or_introl Hs)) as (f & _ & _ & Heq).
      rewrite Heq in Hfst. simpl in Hfst. lia.
    + destruct b; [|auto].
      destruct (addScalarField_fresh true nm c Hnm (or_intror eq_refl)) as (f & _ & _ & Heq).
      rewrite Heq in Hfst. simpl in Hfst. lia.
  - intros [Hin|Href].
    + rewrite addScalarField_duplicate by exact Hin. reflexivity.
    + rewrite addScalarField_refused by exact Href. reflexivity.
Qed.

(** The lookup by name finds the first field that has the name. *)
Lemma getScalarFieldIndexByName_first nm c :
  nm ∈ field_names c →
  ∃ k f, PointCloud.getScalarFieldIndexByName nm c = Z.of_nat k
    ∧ PointCloud.m_scalarFields c !! k = Some f
    ∧ ScalarField.name f = nm
    ∧ ∀ j g, j < k → PointCloud.m_scalarFields c !! j = Some g → ScalarField.name g ≠ nm.
Proof.
  intros Hin. unfold PointCloud.getScalarFieldIndexByName.
  destruct (index_by_name_spec nm (PointCloud.m_scalarFields c) 0)
    as [[_ Hnot]|(k & f & Heq & Hf & Hnm & Hfirst)]; [contradiction|].
  exists k, f. refine (conj Heq (conj Hf (conj Hnm _))).
  intros j g Hj Hg Hname. apply Hfirst.
  apply list_elem_of_In, in_map_iff. exists g. split; [exact Hname|].
  apply list_elem_of_In, list_elem_of_lookup. exists j.
  rewrite lookup_take_lt by exact Hj. exact Hg.
Qed.

(** C7 (amended). [addScalarField(name)] returns -1 and leaves the cloud as
    it is when a field already has exactly that name, and also when the
    sizing of the new field to a point count other than 0, or the growth of
    the field collection, is refused its memory; it returns -1 in no other
    case. Otherwise it appends one field with that name, sized to the
    current point count, and returns its index, the old number of fields.
    So a second call with the same name returns -1 whatever the allocator
    does, and after [deleteScalarField] of the index the first call
    returned the name can be added again. In every reachable cloud the
    field names are pairwise distinct. *)
Theorem addScalarField_keeps_names_unique :
  (∀ b d nm c, nm ∈ field_names c →
     PointCloud.addScalarField b d nm c = ((-1)%Z, c))
  ∧ (∀ b d nm c,
       (PointCloud.size c ≠ 0 ∧ b = false) ∨ d = false →
       PointCloud.addScalarField b d nm c = ((-1)%Z, c))
  ∧ (∀ b d nm c,
       fst (PointCloud.addScalarField b d nm c) = (-1)%Z
       ↔ nm ∈ field_names c ∨ (PointCloud.size c ≠ 0 ∧ b = false) ∨ d = false)
  ∧ (∀ b nm c, nm ∉ field_names c → PointCloud.size c = 0 ∨ b = true →
       ∃ f, ScalarField.name f = nm ∧ ScalarField.size f = PointCloud.size c
         ∧ PointCloud.addScalarField b true nm c
           = (Z.of_nat (length (PointCloud.m_scalarFields c)),
              PointCloud.set_scalarFields (PointCloud.m_scalarFields c ++ [f]) c))
  ∧ (∀ b nm c, nm ∉ field_names c → PointCloud.size c = 0 ∨ b = true →
       (0 ≤ fst (PointCloud.addScalarField b true nm c))%Z
       ∧ PointCloud.getScalarFieldName (fst (PointCloud.addScalarField b true nm c))
           (snd (PointCloud.addScalarField b true nm c)) = Some nm
       ∧ (∀ b' d',
            PointCloud.addScalarField b' d' nm
              (snd (PointCloud.addScalarField b true nm c))
            = ((-1)%Z, snd (PointCloud.addScalarField b true nm c)))
       ∧ (0 ≤ fst (PointCloud.addScalarField b true nm
                     (PointCloud.deleteScalarField
                        (fst (PointCloud.addScalarField b true nm c))
                        (snd (PointCloud.addScalarField b true nm c)))))%Z)
  ∧ (∀ c, PointCloud.reachable c → NoDup (field_names c)).
Proof.
  split; [exact addScalarField_duplicate|].
  split; [exact addScalarField_refused|].
  split; [exact addScalarField_fails_iff|].
  split; [exact addScalarField_fresh|].
  split; [|exact reachable_names_unique].
  intros b nm c Hnm Hb.
  destruct (addScalarField_fresh b nm c Hnm Hb) as (f & Hf & Hsize & ->). simpl.
  refine (conj _ (conj _ (conj _ _))).
  - lia.
  - unfold PointCloud.getScalarFieldName. simpl. rewrite length_app. simpl.
    destruct (Z.leb_spec 0 (Z.of_nat (length (PointCloud.m_scalarFields c)))); [|lia].
    destruct (Z.ltb_spec (Z.of_nat (length (PointCloud.m_scalarFields c)))
                (Z.of_nat (length (PointCloud.m_scalarFields c) + 1))); [|lia].
    simpl. rewrite Nat2Z.id, lookup_app_r by lia. rewrite Nat.sub_diag. simpl.
    unfold ScalarField.getName. rewrite Hf. reflexivity.
  - intros b' d'. apply addScalarField_duplicate.
    unfold field_names. simpl. rewrite map_app. apply elem_of_app. right.
    simpl. rewrite Hf. apply list_elem_of_singleton. reflexivity.
  - set (c' := PointCloud.deleteScalarField _ _).
    assert (Hfs : PointCloud.m_scalarFields c' = PointCloud.m_scalarFields c)
      by apply deleteScalarField_last.
    assert (Hsz : PointCloud.size c' = PointCloud.size c).
    { unfold c'. rewrite deleteScalarField_in_range
        by (simpl; rewrite length_app; simpl; lia). reflexivity. }
    destruct (addScalarField_fresh b nm c') as (g & _ & _ & ->).
    + unfold field_names. rewrite Hfs. exact Hnm.
    + rewrite Hsz. exact Hb.
    + simpl. lia.
Qed.

(** C8. [enableScalarField()]. When an input field is designated it is
    kept. Otherwise, when some field is named "Default", the first such
    field becomes the input field and no field is added; when none is,
    [addScalarField("Default")] is called: when it fails the call returns
    false with the input role unset, when it succeeds the new field becomes
    the input field. Then, if no output field is designated, the output
    role takes the index of the input field. Last, the input field goes
    through [resizeSafe] with the capacity of the point sequence, and the
    call returns what that resize returns: false exactly when it fails. *)
Theorem enableScalarField_resolves_then_resizes (b d e : bool) (c : PointCloud.t) :
  (∀ f, PointCloud.getCurrentInScalarField c = Some f →
     fst (PointCloud.enableScalarField b d e c)
       = fst (ScalarField.resizeSafe e (PointCloud.m_capacity c) f)
     ∧ fst (PointCloud.enableScalarField b d e c) = e
     ∧ PointCloud.m_currentInScalarFieldIndex (snd (PointCloud.enableScalarField b d e c))
       = PointCloud.m_currentInScalarFieldIndex c
     ∧ PointCloud.m_currentOutScalarFieldIndex (snd (PointCloud.enableScalarField b d e c))
       = (match PointCloud.getCurrentOutScalarField c with
          | None => PointCloud.m_currentInScalarFieldIndex c
          | Some _ => PointCloud.m_currentOutScalarFieldIndex c
          end)
     ∧ PointCloud.m_scalarFields (snd (PointCloud.enableScalarField b d e c))
       = <[Z.to_nat (PointCloud.m_currentInScalarFieldIndex c) :=
             snd (ScalarField.resizeSafe e (PointCloud.m_capacity c) f)]>
           (PointCloud.m_scalarFields c))
  ∧ (PointCloud.getCurrentInScalarField c = None → "Default" ∈ field_names c →
     ∃ k f, PointCloud.m_scalarFields c !! k = Some f
       ∧ ScalarField.name f = "Default"
       ∧ (∀ j g, j < k → PointCloud.m_scalarFields c !! j = Some g →
                 ScalarField.name g ≠ "Default")
       ∧ fst (PointCloud.enableScalarField b d e c)
         = fst (ScalarField.resizeSafe e (PointCloud.m_capacity c) f)
       ∧ fst (PointCloud.enableScalarField b d e c) = e
       ∧ PointCloud.m_currentInScalarFieldIndex (snd (PointCloud.enableScalarField b d e c))
         = Z.of_nat k
       ∧ PointCloud.m_currentOutScalarFieldIndex (snd (PointCloud.enableScalarField b d e c))
         = (match PointCloud.getCurrentOutScalarField c with
            | None => Z.of_nat k
            | Some _ => PointCloud.m_currentOutScalarFieldIndex c
            end)
       ∧ PointCloud.m_scalarFields (snd (PointCloud.enableScalarField b d e c))
         = <[k := snd (ScalarField.resizeSafe e (PointCloud.m_capacity c) f)]>
             (PointCloud.m_scalarFields c))
  ∧ (PointCloud.getCurrentInScalarField c = None → "Default" ∉ field_names c →
     fst (PointCloud.addScalarField b d "Default" (PointCloud.set_currentIn (-1)%Z c))
       = (-1)%Z →
     PointCloud.enableScalarField b d e c = (false, PointCloud.set_currentIn (-1)%Z c))
  ∧ (PointCloud.getCurrentInScalarField c = None → "Default" ∉ field_names c →
     (PointCloud.size c ≠ 0 ∧ b = false) ∨ d = false →
     fst (PointCloud.addScalarField b d "Default" (PointCloud.set_currentIn (-1)%Z c))
       = (-1)%Z
     ∧ PointCloud.enableScalarField b d e c = (false, PointCloud.set_currentIn (-1)%Z c))
  ∧ (PointCloud.getCurrentInScalarField c = None → "Default" ∉ field_names c →
     ∀ f, PointCloud.addScalarField b d "Default" (PointCloud.set_currentIn (-1)%Z c)
          = (Z.of_nat (length (PointCloud.m_scalarFields c)),
             PointCloud.set_scalarFields (PointCloud.m_scalarFields c ++ [f])
               (PointCloud.set_currentIn (-1)%Z c)) →
     fst (PointCloud.enableScalarField b d e c)
       = fst (ScalarField.resizeSafe e (PointCloud.m_capacity c) f)
     ∧ fst (PointCloud.enableScalarField b d e c) = e
     ∧ PointCloud.m_currentInScalarFieldIndex (snd (PointCloud.enableScalarField b d e c))
       = Z.of_nat (length (PointCloud.m_scalarFields c))
     ∧ PointCloud.m_currentOutScalarFieldIndex (snd (PointCloud.enableScalarField b d e c))
       = (match PointCloud.getScalarField (PointCloud.m_currentOutScalarFieldIndex c)
                  (PointCloud.set_scalarFields (PointCloud.m_scalarFields c ++ [f]) c)
          with
          | None => Z.of_nat (length (PointCloud.m_scalarFields c))
          | Some _ => PointCloud.m_currentOutScalarFieldIndex c
          end)
     ∧ PointCloud.m_scalarFields (snd (PointCloud.enableScalarField b d e c))
       = PointCloud.m_scalarFields c
           ++ [snd (ScalarField.resizeSafe e (PointCloud.m_capacity c) f)])
  ∧ (PointCloud.getCurrentInScalarField c = None → "Default" ∉ field_names c →
     PointCloud.size c = 0 ∨ b = true → d = true →
     ∃ f, ScalarField.name f = "Default" ∧ ScalarField.size f = PointCloud.size c
       ∧ PointCloud.addScalarField b d "Default" (PointCloud.set_currentIn (-1)%Z c)
         = (Z.of_nat (length (PointCloud.m_scalarFields c)),
            PointCloud.set_scalarFields (PointCloud.m_scalarFields c ++ [f])
              (PointCloud.set_currentIn (-1)%Z c))
       ∧ fst (PointCloud.enableScalarField b d e c) = e
       ∧ PointCloud.m_currentInScalarFieldIndex (snd (PointCloud.enableScalarField b d e c))
         = Z.of_nat (length (PointCloud.m_scalarFields c))
       ∧ PointCloud.m_scalarFields (snd (PointCloud.enableScalarField b d e c))
         = PointCloud.m_scalarFields c
             ++ [snd (ScalarField.resizeSafe e (PointCloud.m_capacity c) f)])
  ∧ (∀ f, fst (ScalarField.resizeSafe e (PointCloud.m_capacity c) f) = e
          ∧ (e = true →
             ScalarField.size (snd (ScalarField.resizeSafe e (PointCloud.m_capacity c) f))
             = PointCloud.m_capacity c)
          ∧ (e = false →
             snd (ScalarField.resizeSafe e (PointCloud.m_capacity c) f) = f)).
Proof.
  refine (conj _ (conj _ (conj _ (conj _ (conj _ (conj _ _)))))).
  - intros f Hf. rewrite (enableScalarField_designated b d e c f Hf), resizeSafe_fst. simpl.
    destruct (PointCloud.getCurrentOutScalarField c); simpl; repeat split; auto.
  - intros Hin Hd.
    destruct (getScalarFieldIndexByName_first "Default" c Hd) as (k & f & Hk & Hf & Hname & Hfirst).
    exists k, f.
    rewrite (enableScalarField_default_found b d e c k f Hin Hk Hf), resizeSafe_fst. simpl.
    refine (conj Hf (conj Hname (conj Hfirst _))).
    destruct (PointCloud.getCurrentOutScalarField c); simpl; repeat split; auto.
  - intros Hin Hnm Hadd. unfold PointCloud.enableScalarField. rewrite Hin.
    rewrite getScalarFieldIndexByName_absent by exact Hnm. simpl.
    destruct (addScalarField_cases b d "Default" (PointCloud.set_currentIn (-1)%Z c))
      as [->|(_ & f & _ & _ & Heq)]; [reflexivity|].
    rewrite Heq in Hadd. simpl in Hadd. lia.
  - intros Hin Hnm Hfail. split.
    + rewrite addScalarField_refused by exact Hfail. reflexivity.
    + apply enableScalarField_creation_fails; assumption.
  - intros Hin Hnm f Hadd.
    assert (Hcase : d = true ∧ (PointCloud.size c = 0 ∨ b = true)).
    { destruct d, b; try (repeat split; auto; fail);
        try (rewrite addScalarField_refused in Hadd by auto;
             injection Hadd as H _; lia).
      destruct (decide (PointCloud.size c = 0)); [auto|].
      rewrite addScalarField_refused in Hadd by auto. injection Hadd as H _. lia. }
    destruct Hcase as (-> & Hb).
    destruct (enableScalarField_default_created b e c Hin Hnm Hb)
      as (f' & _ & _ & Hadd' & ->).
    rewrite Hadd in Hadd'. injection Hadd' as Hff.
    apply app_inj_tail in Hff as [_ <-].
    rewrite resizeSafe_fst. simpl.
    destruct (PointCloud.getScalarField _ _); simpl; repeat split; auto.
  - intros Hin Hnm Hb ->.
    destruct (enableScalarField_default_created b e c Hin Hnm Hb)
      as (f & Hname & Hsize & Hadd & ->).
    exists f. refine (conj Hname (conj Hsize (conj Hadd _))). simpl.
    destruct (PointCloud.getScalarField _ _); simpl; repeat split; auto.
  - intros f. refine (conj (resizeSafe_fst _ _ _) (conj _ _)).
    + intros ->. apply resizeSafe_size.
    + intros ->. reflexivity.
Qed.

(** C9 (amended). [renameScalarField(index, newName)] returns false and
    renames nothing when some field already has [newName]: another field,
    or the field at [index] itself, or when [index] is not valid. When no
    field has [newName] and [index] is valid, the field at [index] gets the
    new name, nothing else changes, and the call returns true. *)
Theorem renameScalarField_refuses_names_in_use :
  (∀ index nm c, owned_by_another index nm c →
     PointCloud.renameScalarField index nm c = (false, c))
  ∧ (∀ index nm c f, PointCloud.getScalarField index c = Some f →
       ScalarField.name f = nm →
       PointCloud.renameScalarField index nm c = (false, c))
  ∧ (∀ index nm c, nm ∈ field_names c →
       PointCloud.renameScalarField index nm c = (false, c))
  ∧ (∀ index nm c, PointCloud.getScalarField index c = None →
       PointCloud.renameScalarField index nm c = (false, c))
  ∧ (∀ index nm c f, nm ∉ field_names c →
       PointCloud.getScalarField index c = Some f →
       PointCloud.renameScalarField index nm c
       = (true,
          PointCloud.set_scalarFields
            (<[Z.to_nat index := ScalarField.setName nm f]> (PointCloud.m_scalarFields c)) c)
       ∧ PointCloud.getScalarFieldName index (snd (PointCloud.renameScalarField index nm c))
         = Some nm
       ∧ (∀ k, k ≠ Z.to_nat index →
            PointCloud.m_scalarFields (snd (PointCloud.renameScalarField index nm c)) !! k
            = PointCloud.m_scalarFields c !! k)).
Proof.
  refine (conj _ (conj _ (conj renameScalarField_name_taken
            (conj renameScalarField_bad_index _)))).
  - intros index nm c H. apply renameScalarField_name_taken.
    eapply owned_by_another_in_names; eauto.
  - intros index nm c f Hf Hn. apply renameScalarField_name_taken.
    apply getScalarField_Some in Hf as [_ Hf]. rewrite <- Hn.
    eapply field_in_names; eauto.
  - intros index nm c f Hnm Hf.
    rewrite (renameScalarField_fresh index nm c f Hnm Hf). simpl.
    apply getScalarField_Some in Hf as [H0 Hf].
    pose proof (lookup_lt_Some _ _ _ Hf) as Hlt.
    refine (conj eq_refl (conj _ _)).
    + unfold PointCloud.getScalarFieldName. simpl. rewrite length_insert.
      destruct (Z.leb_spec 0 index); [|lia].
      destruct (Z.ltb_spec index (Z.of_nat (length (PointCloud.m_scalarFields c)))); [|lia].
      simpl. rewrite list_lookup_insert_eq by exact Hlt. reflexivity.
    + intros k Hk. apply list_lookup_insert_ne. congruence.
Qed.

End FieldManagement.

(** ** The binary32 instance *)

Section Float32Order.

Lemma SFltb_irrefl (a : spec_float) : SFltb a a = false.
Proof.
  unfold SFltb, SFcompare. destruct a as [[]|[]| |[] m e]; try reflexivity.
  - rewrite Z.compare_refl.
    change (Pos.compare_cont Eq m m) with (Pos.compare m m).
    rewrite Pos.compare_refl. reflexivity.
  - rewrite Z.compare_refl.
    change (Pos.compare_cont Eq m m) with (Pos.compare m m).
    rewrite Pos.compare_refl. reflexivity.
Qed.

Ltac split_compare :=
  repeat match goal with
  | H : context [Pos.compare_cont Eq ?a ?b] |- _ =>
      change (Pos.compare_cont Eq a b) with (Pos.compare a b) in H
  | |- context [Pos.compare_cont Eq ?a ?b] =>
      change (Pos.compare_cont Eq a b) with (Pos.compare a b)
  | H : context [Z.compare ?a ?b] |- _ => destruct (Z.compare_spec a b)
  | |- context [Z.compare ?a ?b] => destruct (Z.compare_spec a b)
  | H : context [Pos.compare ?a ?b] |- _ => destruct (Pos.compare_spec a b)
  | |- context [Pos.compare ?a ?b] => destruct (Pos.compare_spec a b)
  end.

Lemma SFltb_trans (a b c : spec_float) :
  SFltb a b = true → SFltb b c = true → SFltb a c = true.
Proof.
  unfold SFltb, SFcompare.
  destruct a as [[]|[]| |[] ma ea], b as [[]|[]| |[] mb eb], c as [[]|[]| |[] mc ec];
    try discriminate; try reflexivity; intros Hab Hbc;
    split_compare; simpl in *; try discriminate; try reflexivity; lia.
Qed.

#[global] Instance float32_order : OrderLaws Float32.platform.
Proof. split; [exact SFltb_irrefl | exact SFltb_trans]. Qed.

End Float32Order.

(** ** The theorems at concrete clouds *)

(** The spec's scenario: the box of the triangle is (0,0,0)-(1,1,0), and
    (0,0,0)-(2,2,0) after a scale of 2. *)
Example triangle_box :
  fst (PointCloud.getBoundingBox Float32.triangle)
    = (Float32.pt 0 0 0, Float32.pt 1 1 0)
  ∧ fst (PointCloud.getBoundingBox
           (PointCloud.applyTransformation (Float32.scaling 2) Float32.triangle))
    = (Float32.pt 0 0 0, Float32.pt 2 2 0).
Proof. split; vm_compute; reflexivity. Qed.

Lemma resize_rolls_back_to_the_old_point_count_witness :
  fst (PointCloud.resize true Float32.only_first 3 Float32.aligned) = false
  ∧ PointCloud.m_points (snd (PointCloud.resize true Float32.only_first 3 Float32.aligned))
    = PointCloud.m_points Float32.aligned
  ∧ PointCloud.m_scalarFields
      (snd (PointCloud.resize true Float32.only_first 3 Float32.aligned))
    = PointCloud.m_scalarFields Float32.aligned.
Proof.
  destruct (@resize_rolls_back_to_the_old_point_count Float32.platform) as (_ & H & _).
  assert (Hi : 1 < length (PointCloud.m_scalarFields Float32.aligned))
    by (vm_compute; lia).
  assert (Hff : first_failure Float32.only_first 1).
  { split; [reflexivity|]. intros [|j] Hj; [reflexivity|lia]. }
  destruct (H Float32.only_first 3 Float32.aligned 1 Hi Hff)
    as (H1 & _ & _ & _ & _ & _ & _ & _ & H9 & H10).
  refine (conj H1 (conj _ _)).
  - apply H9. vm_compute. lia.
  - apply H10; [vm_compute; lia|].
    intros [|j] f Hj Hf; [|lia].
    assert (Hf0 : PointCloud.m_scalarFields Float32.aligned !! 0
                  = Some (@ScalarField.mk Float32.platform "A" [s_zero] s_zero s_zero)) by reflexivity.
    rewrite Hf0 in Hf. injection Hf as <-.
    split; [reflexivity | split; reflexivity].
Defined.

(** C1. [resize(2)] on [unaligned] (one point, two fields without a
    slot), with the point sequence and field 0 served and field 1 refused:
    the call returns false, and the rollback, which the source announces as
    restoring the previous size of the fields already processed, resizes
    field 0 to the old point count: it had no slot and is left with one. The
    field lengths are not those from before the call. *)
Lemma resize_changes_unaligned_field_lengths :
  PointCloud.reachable Float32.unaligned
  ∧ fst (PointCloud.resize true Float32.only_first 2 Float32.unaligned) = false
  ∧ map ScalarField.size (PointCloud.m_scalarFields Float32.unaligned) = [0; 0]
  ∧ map ScalarField.size
      (PointCloud.m_scalarFields
         (snd (PointCloud.resize true Float32.only_first 2 Float32.unaligned)))
    = [1; 0]
  ∧ map ScalarField.size
      (PointCloud.m_scalarFields
         (snd (PointCloud.resize true Float32.only_first 2 Float32.unaligned)))
    ≠ map ScalarField.size (PointCloud.m_scalarFields Float32.unaligned).
Proof.
  split; [apply reachable_run_all; constructor|].
  vm_compute. repeat split; try reflexivity. discriminate.
Qed.

(** The two other conditions of the restoration are needed as well. On
    [written] the fields have the point count as length and [newCount] is
    above it, but the min/max of field 0 were out of date: the rollback
    recomputes them. *)
Example resize_recomputes_out_of_date_statistics :
  PointCloud.reachable Float32.written
  ∧ fst (PointCloud.resize true Float32.only_first 2 Float32.written) = false
  ∧ map ScalarField.size (PointCloud.m_scalarFields Float32.written) = [1; 1]
  ∧ map ScalarField.maxVal (PointCloud.m_scalarFields Float32.written)
    = [Float32.of_Z 0; Float32.of_Z 0]
  ∧ map ScalarField.maxVal
      (PointCloud.m_scalarFields
         (snd (PointCloud.resize true Float32.only_first 2 Float32.written)))
    = [Float32.of_Z 5; Float32.of_Z 0].
Proof.
  split; [apply reachable_run_all; constructor|].
  repeat split; vm_compute; reflexivity.
Qed.

(** On [settled] field 0 has the point count as length and up-to-date
    min/max, but [newCount] is below the old count: the call fails at
    field 1, which had to grow, and what was cut from the points and from
    field 0 comes back as zeros. *)
Example resize_below_the_old_count_loses_data :
  PointCloud.reachable Float32.settled
  ∧ fst (PointCloud.resize true Float32.only_first 1 Float32.settled) = false
  ∧ PointCloud.m_points Float32.settled = [Float32.pt 1 1 1; Float32.pt 2 2 2]
  ∧ PointCloud.m_points (snd (PointCloud.resize true Float32.only_first 1 Float32.settled))
    = [Float32.pt 1 1 1; Float32.pt 0 0 0]
  ∧ map ScalarField.values (PointCloud.m_scalarFields Float32.settled)
    = [[Float32.of_Z 0; Float32.of_Z 5]; []]
  ∧ map ScalarField.maxVal (PointCloud.m_scalarFields Float32.settled)
    = [Float32.of_Z 5; Float32.of_Z 0]
  ∧ map ScalarField.values
      (PointCloud.m_scalarFields
         (snd (PointCloud.resize true Float32.only_first 1 Float32.settled)))
    = [[Float32.of_Z 0; Float32.of_Z 0]; []]
  ∧ map ScalarField.maxVal
      (PointCloud.m_scalarFields
         (snd (PointCloud.resize true Float32.only_first 1 Float32.settled)))
    = [Float32.of_Z 0; Float32.of_Z 0].
Proof.
  split; [apply reachable_run_all; constructor|].
  repeat split; vm_compute; reflexivity.
Qed.

Lemma addPoint_appends_in_call_order_witness :
  PointCloud.m_points
    (PointCloud.run_all
       (map PointCloud.AddPoint
          [Float32.pt 1 2 3; Float32.vec Float32.nan (Float32.of_Z 1) (Float32.of_Z 1);
           Float32.pt 4 5 6]) Float32.start)
    = [Float32.pt 1 2 3; Float32.pt 0 0 0; Float32.pt 4 5 6]
  ∧ stored_point (Float32.vec Float32.nan (Float32.of_Z 1) (Float32.of_Z 1))
    = Float32.pt 0 0 0
  ∧ stored_point (Float32.pt 1 2 3) = Float32.pt 1 2 3.
Proof.
  destruct (@addPoint_appends_in_call_order Float32.platform
              [Float32.pt 1 2 3; Float32.vec Float32.nan (Float32.of_Z 1) (Float32.of_Z 1);
               Float32.pt 4 5 6] Float32.start) as (H1 & _ & _ & _ & H5 & H6).
  refine (conj _ (conj _ _)).
  - rewrite H1. vm_compute. reflexivity.
  - apply H5. left. reflexivity.
  - apply H6; reflexivity.
Defined.



Lemma getBoundingBox_exact_on_coherent_cache_witness :
  reports_exact_box (PointCloud.run_all Float32.moved_pair Float32.start)
  ∧ reports_exact_box (PointCloud.swapPoints 0 1 Float32.boxed_pair)
  ∧ fst (PointCloud.getBoundingBox Float32.boxed_pair)
    = (BoundingBox.minCorner (PointCloud.m_bbox Float32.boxed_pair),
       BoundingBox.maxCorner (PointCloud.m_bbox Float32.boxed_pair))
  ∧ reports_exact_box
      (PointCloud.applyTransformation (Float32.scaling 2) Float32.resized_after_box).
Proof.
  destruct (@getBoundingBox_exact_on_coherent_cache Float32.platform float32_order)
    as (_ & H2 & _ & _ & H5 & _ & H7 & _ & H9 & H10 & _).
  refine (conj _ (conj _ (conj _ _))).
  - apply H7; [repeat constructor | vm_compute; discriminate].
  - apply H9; [vm_compute; discriminate|].
    apply (H5 (PointCloud.run_all
                 [PointCloud.AddPoint (Float32.pt 0 0 0);
                  PointCloud.AddPoint (Float32.pt 1 1 1)] Float32.start)).
    + vm_compute. discriminate.
    + intros Hv. vm_compute in Hv. discriminate.
  - rewrite H2 by reflexivity. reflexivity.
  - apply H10; [vm_compute; discriminate|]. left. reflexivity.
Defined.

(** C4 as the spec states it does not hold on [resized_after_box]: the
    cache is valid and holds (0,0,0)-(2,2,2) while the points are (0,0,0)
    and (1,1,1), before and after a [swapPoints] and after an
    [applyTransformation] in which no phase runs. *)
Lemma getBoundingBox_stale_after_resize :
  PointCloud.reachable Float32.resized_after_box
  ∧ fst (PointCloud.getBoundingBox Float32.resized_after_box)
    = (Float32.pt 0 0 0, Float32.pt 2 2 2)
  ∧ PointCloud.m_points Float32.resized_after_box = [Float32.pt 0 0 0; Float32.pt 1 1 1]
  ∧ PointCloud.m_points (PointCloud.swapPoints 0 1 Float32.resized_after_box)
    = [Float32.pt 1 1 1; Float32.pt 0 0 0]
  ∧ ¬ reports_exact_box Float32.resized_after_box
  ∧ ¬ reports_exact_box (PointCloud.swapPoints 0 1 Float32.resized_after_box)
  ∧ ¬ reports_exact_box
        (PointCloud.applyTransformation (Float32.scaling 1) Float32.resized_after_box).
Proof.
  split; [apply reachable_run_all; constructor|].
  split; [vm_compute; reflexivity|]. split; [vm_compute; reflexivity|].
  split; [vm_compute; reflexivity|].
  assert (Hstale : ¬ reports_exact_box Float32.resized_after_box).
  { intros ((_ & Hhi & _) & _). apply list_elem_of_In in Hhi.
    vm_compute in Hhi. destruct Hhi as [H|[H|[]]]; discriminate. }
  refine (conj Hstale (conj _ _)).
  - intros ((_ & Hhi & _) & _). apply list_elem_of_In in Hhi.
    vm_compute in Hhi. destruct Hhi as [H|[H|[]]]; discriminate.
  - rewrite applyTransformation_skipped by reflexivity. exact Hstale.
Qed.

Lemma point_moves_and_the_cache_witness :
  BoundingBox.isValid
    (PointCloud.m_bbox (PointCloud.applyTransformation (Float32.scaling 2) Float32.boxed_pair))
    = false
  ∧ PointCloud.applyTransformation (Float32.scaling 1) Float32.boxed_pair
    = Float32.boxed_pair
  ∧ exact_box (PointCloud.m_points (PointCloud.swapPoints 0 1 Float32.boxed_pair))
      (Float32.pt 0 0 0) (Float32.pt 1 1 1).
Proof.
  destruct (@point_moves_and_the_cache Float32.platform)
    as (_ & _ & _ & _ & H5 & H6 & _ & H8).
  refine (conj _ (conj _ _)).
  - apply H5. reflexivity.
  - apply H6. reflexivity.
  - apply H8.
    pose proof (@getBoundingBox_reports_exact Float32.platform float32_order
                  (PointCloud.run_all
                     [PointCloud.AddPoint (Float32.pt 0 0 0);
                      PointCloud.AddPoint (Float32.pt 1 1 1)] Float32.start)) as Hex.
    apply Hex; [vm_compute; discriminate|].
    intros Hv. vm_compute in Hv. discriminate.
Defined.

(** C5 as the spec states it does not hold on [boxed_pair]: [swapPoints]
    moves the two points and the cache is still flagged valid. *)
Lemma swapPoints_leaves_the_cache_valid :
  PointCloud.reachable Float32.boxed_pair
  ∧ PointCloud.m_points (PointCloud.swapPoints 0 1 Float32.boxed_pair)
    ≠ PointCloud.m_points Float32.boxed_pair
  ∧ BoundingBox.isValid (PointCloud.m_bbox (PointCloud.swapPoints 0 1 Float32.boxed_pair))
    = true.
Proof.
  split; [apply reachable_run_all; constructor|].
  split; [vm_compute; discriminate | reflexivity].
Qed.

Lemma roles_are_unset_or_valid_witness :
  roles_ok Float32.enabled
  ∧ PointCloud.m_currentInScalarFieldIndex (PointCloud.deleteScalarField 0 Float32.enabled)
    = 0%Z
  ∧ PointCloud.m_scalarFields (PointCloud.deleteScalarField 0 Float32.enabled) !! 0
    = PointCloud.m_scalarFields Float32.enabled !! 2
  ∧ PointCloud.deleteScalarField 3 Float32.enabled = Float32.enabled.
Proof.
  destruct (@roles_are_unset_or_valid Float32.platform)
    as (H1 & H2 & _ & _ & _ & H6 & H7 & _).
  refine (conj _ (conj _ (conj _ _))).
  - apply H1. apply reachable_run_all. constructor.
  - destruct (H2 0%Z Float32.enabled) as (Hin & _); [vm_compute; split; congruence|].
    rewrite Hin. reflexivity.
  - apply (H6 0%Z 2%Z Float32.enabled); [vm_compute; split; congruence.. | discriminate].
  - apply H7. right. vm_compute. discriminate.
Defined.

Lemma addScalarField_keeps_names_unique_witness :
  PointCloud.addScalarField true true "A" Float32.one_field
    = ((-1)%Z, Float32.one_field)
  ∧ fst (PointCloud.addScalarField true true "B" Float32.one_field) = 1%Z
  ∧ fst (PointCloud.addScalarField true false "B" Float32.one_field) = (-1)%Z
  ∧ NoDup (field_names Float32.enabled).
Proof.
  destruct (@addScalarField_keeps_names_unique Float32.platform)
    as (H1 & _ & H3 & H4 & _ & H6).
  refine (conj _ (conj _ (conj _ _))).
  - apply H1. vm_compute. apply list_elem_of_singleton. reflexivity.
  - destruct (H4 true "B" Float32.one_field) as (f & _ & _ & ->).
    + vm_compute. intros H. apply list_elem_of_singleton in H. discriminate.
    + right. reflexivity.
    + reflexivity.
  - apply H3. right. right. reflexivity.
  - apply H6. apply reachable_run_all. constructor.
Defined.

(** C7 as the spec states it does not hold on a cloud with one point and no
    field: the name is fresh, the sizing of the new field is refused, and
    the call returns -1 instead of a new index. *)
Lemma addScalarField_fresh_name_refused :
  PointCloud.reachable (PointCloud.addPoint (Float32.pt 1 1 1) Float32.start)
  ∧ field_names (PointCloud.addPoint (Float32.pt 1 1 1) Float32.start) = []
  ∧ PointCloud.addScalarField false true "A"
      (PointCloud.addPoint (Float32.pt 1 1 1) Float32.start)
    = ((-1)%Z, PointCloud.addPoint (Float32.pt 1 1 1) Float32.start).
Proof.
  split; [apply (PointCloud.reachable_run (PointCloud.AddPoint _)); constructor|].
  split; reflexivity.
Qed.

Lemma enableScalarField_resolves_then_resizes_witness :
  fst (PointCloud.enableScalarField true true false Float32.enabled) = false
  ∧ PointCloud.m_scalarFields
      (snd (PointCloud.enableScalarField true true false Float32.enabled))
    = PointCloud.m_scalarFields Float32.enabled
  ∧ PointCloud.m_currentInScalarFieldIndex
      (snd (PointCloud.enableScalarField true true true Float32.triangle)) = 0%Z
  ∧ PointCloud.m_currentInScalarFieldIndex
      (snd (PointCloud.enableScalarField true true true Float32.one_field)) = 1%Z
  ∧ PointCloud.enableScalarField false true true Float32.one_field
    = (false, Float32.one_field).
Proof.
  refine (conj _ (conj _ (conj _ (conj _ _)))).
  - destruct (@enableScalarField_resolves_then_resizes Float32.platform
                true true false Float32.enabled) as (H1 & _).
    destruct (H1 (@ScalarField.mk Float32.platform "Default" (replicate 10 s_zero) s_zero s_zero)
               eq_refl)
      as (_ & He & _).
    exact He.
  - destruct (@enableScalarField_resolves_then_resizes Float32.platform
                true true false Float32.enabled) as (H1 & _).
    destruct (H1 (@ScalarField.mk Float32.platform "Default" (replicate 10 s_zero) s_zero s_zero)
               eq_refl)
      as (_ & _ & _ & _ & ->).
    reflexivity.
  - destruct (@enableScalarField_resolves_then_resizes Float32.platform
                true true true Float32.triangle) as (_ & H2 & _).
    destruct H2 as (k & f & Hk & _ & _ & _ & _ & Hin & _).
    + reflexivity.
    + vm_compute. apply list_elem_of_singleton. reflexivity.
    + rewrite Hin. apply lookup_lt_Some in Hk. vm_compute in Hk.
      destruct k as [|k]; [reflexivity|lia].
  - destruct (@enableScalarField_resolves_then_resizes Float32.platform
                true true true Float32.one_field) as (_ & _ & _ & _ & H5 & _).
    destruct (H5 eq_refl) with
      (f := ScalarField.computeMinAndMax
              (ScalarField.resize 1 (ScalarField.create "Default")))
      as (_ & _ & Hin & _).
    + vm_compute. intros H. apply list_elem_of_singleton in H. discriminate.
    + reflexivity.
    + exact Hin.
  - destruct (@enableScalarField_resolves_then_resizes Float32.platform
                false true true Float32.one_field) as (_ & _ & H3 & _).
    rewrite H3; [reflexivity | reflexivity | | reflexivity].
    vm_compute. intros H. apply list_elem_of_singleton in H. discriminate.
Defined.

Lemma renameScalarField_refuses_names_in_use_witness :
  PointCloud.getScalarFieldName 1
    (snd (PointCloud.renameScalarField 1 "C" Float32.aligned)) = Some "C"
  ∧ PointCloud.renameScalarField 1 "A" Float32.aligned = (false, Float32.aligned)
  ∧ PointCloud.renameScalarField 2 "C" Float32.aligned = (false, Float32.aligned).
Proof.
  destruct (@renameScalarField_refuses_names_in_use Float32.platform)
    as (H1 & _ & _ & H4 & H5).
  refine (conj _ (conj _ _)).
  - destruct (H5 1%Z "C" Float32.aligned
                (@ScalarField.mk Float32.platform "B" [s_zero] s_zero s_zero))
      as (_ & Hn & _); [|reflexivity|exact Hn].
    vm_compute. intros H. apply elem_of_cons in H as [H|H]; [discriminate|].
    apply list_elem_of_singleton in H. discriminate.
  - apply H1. exists 0. eexists. split; [discriminate|]. split; reflexivity.
  - apply H4. reflexivity.
Defined.

(** C9 as the spec states it does not hold on [one_field]: no other field
    is named "A", index 0 is valid, and renaming field 0 to "A" returns
    false. *)
Lemma renameScalarField_to_own_name_fails :
  PointCloud.reachable Float32.one_field
  ∧ PointCloud.getScalarFieldName 0 Float32.one_field = Some "A"
  ∧ ¬ owned_by_another 0 "A" Float32.one_field
  ∧ PointCloud.renameScalarField 0 "A" Float32.one_field = (false, Float32.one_field).
Proof.
  split; [apply reachable_run_all; constructor|].
  split; [reflexivity|]. split; [|reflexivity].
  intros (k & f & Hk & Hf & _). destruct k as [|k]; [apply Hk; reflexivity|].
  apply lookup_lt_Some in Hf. vm_compute in Hf. lia.
Qed.

Lemma applyTransformation_scale_then_rotation_then_translation_witness :
  PointCloud.m_points (PointCloud.applyTransformation Float32.similarity Float32.aligned)
    = [Float32.pt (-1) 2 2]
  ∧ BoundingBox.isValid
      (PointCloud.m_bbox (PointCloud.applyTransformation Float32.similarity Float32.aligned))
    = false.
Proof.
  destruct (@applyTransformation_scale_then_rotation_then_translation Float32.platform
              Float32.similarity Float32.aligned)
    as (_ & _ & _ & _ & _ & _ & H7 & _ & _ & _ & _ & H12 & _).
  split.
  - rewrite H7 by reflexivity. vm_compute. reflexivity.
  - rewrite H12. reflexivity.
Defined.

(** * Further properties of the methods of PointCloud.cpp *)

(** ** The point iterator *)

Section Iterator.
Context {P : Platform}.

Lemma getNextPoint_past_the_end c :
  PointCloud.size c ≤ PointCloud.m_currentPointIndex c →
  PointCloud.getNextPoint c = (None, c).
Proof.
  intros H. unfold PointCloud.getNextPoint, PointCloud.size in *.
  destruct (Nat.ltb_spec (PointCloud.m_currentPointIndex c) (length (PointCloud.m_points c)));
    [lia|reflexivity].
Qed.

Lemma getNextPoint_in_range c :
  PointCloud.m_currentPointIndex c < PointCloud.size c →
  PointCloud.getNextPoint c
  = (PointCloud.m_points c !! PointCloud.m_currentPointIndex c,
     PointCloud.set_currentPointIndex (S (PointCloud.m_currentPointIndex c)) c).
Proof.
  intros H. unfold PointCloud.getNextPoint, PointCloud.size in *.
  destruct (Nat.ltb_spec (PointCloud.m_currentPointIndex c) (length (PointCloud.m_points c)));
    [reflexivity|lia].
Qed.

Lemma set_currentPointIndex_same c :
  PointCloud.set_currentPointIndex (PointCloud.m_currentPointIndex c) c = c.
Proof. destruct c; reflexivity. Qed.

(** [n] calls from a cursor inside the cloud: the points from the cursor
    on, then null. *)
Lemma getNextPoints_from_cursor n : ∀ c,
  PointCloud.m_currentPointIndex c ≤ PointCloud.size c →
  fst (getNextPoints n c)
    = map Some (take n (drop (PointCloud.m_currentPointIndex c) (PointCloud.m_points c)))
      ++ replicate (n - (PointCloud.size c - PointCloud.m_currentPointIndex c)) None
  ∧ snd (getNextPoints n c)
    = PointCloud.set_currentPointIndex
        (Nat.min (PointCloud.m_currentPointIndex c + n) (PointCloud.size c)) c.
Proof.
  induction n as [|n IH]; intros c Hc.
  - simpl. rewrite Nat.add_0_r, Nat.min_l by exact Hc.
    rewrite set_currentPointIndex_same. auto.
  - cbn [getNextPoints].
    destruct (decide (PointCloud.m_currentPointIndex c < PointCloud.size c)) as [Hlt|Hge].
    + rewrite getNextPoint_in_range by exact Hlt. cbn [fst snd].
      destruct (IH (PointCloud.set_currentPointIndex
                      (S (PointCloud.m_currentPointIndex c)) c)) as [H1 H2];
        [unfold PointCloud.size in *; simpl; lia|].
      rewrite H1, H2. unfold PointCloud.size in *.
      cbn [PointCloud.set_currentPointIndex PointCloud.m_points
           PointCloud.m_currentPointIndex].
      destruct (lookup_lt_is_Some_2 (PointCloud.m_points c)
                  (PointCloud.m_currentPointIndex c) Hlt) as [p Hp].
      rewrite Hp, (drop_S _ _ _ Hp). cbn [take map app]. split.
      * do 3 f_equal. lia.
      * replace (S (PointCloud.m_currentPointIndex c) + n) with (PointCloud.m_currentPointIndex c + S n) by lia. destruct c; reflexivity.
    + assert (Heq : PointCloud.m_currentPointIndex c = PointCloud.size c) by lia.
      rewrite getNextPoint_past_the_end by lia. cbn [fst snd].
      destruct (IH c Hc) as [H1 H2]. rewrite H1, H2, Heq.
      unfold PointCloud.size. rewrite drop_all, !take_nil, !Nat.sub_diag, !Nat.sub_0_r.
      simpl. split; [reflexivity|]. f_equal. lia.
Qed.

(** X1. Iterating from the beginning: after [placeIteratorAtBeginning],
    [size() + k] calls of [getNextPoint] return the points in index order,
    each once, then null [k] times; the cursor stops at [size()] and nothing
    else in the cloud changes. A call with the cursor at or past [size()]
    returns null and changes nothing. *)
Theorem getNextPoint_enumerates_the_points :
  (∀ c k,
     fst (getNextPoints (PointCloud.size c + k) (PointCloud.placeIteratorAtBeginning c))
       = map Some (PointCloud.m_points c) ++ replicate k None
     ∧ snd (getNextPoints (PointCloud.size c + k) (PointCloud.placeIteratorAtBeginning c))
       = PointCloud.set_currentPointIndex (PointCloud.size c) c)
  ∧ (∀ c n, n ≤ PointCloud.size c →
       fst (getNextPoints n (PointCloud.placeIteratorAtBeginning c))
         = map Some (take n (PointCloud.m_points c))
       ∧ PointCloud.m_currentPointIndex
           (snd (getNextPoints n (PointCloud.placeIteratorAtBeginning c))) = n)
  ∧ (∀ c, PointCloud.size c ≤ PointCloud.m_currentPointIndex c →
       PointCloud.getNextPoint c = (None, c)).
Proof.
  split; [|split; [|exact getNextPoint_past_the_end]].
  - intros c k.
    destruct (getNextPoints_from_cursor (PointCloud.size c + k)
                (PointCloud.placeIteratorAtBeginning c)) as [H1 H2];
      [simpl; lia|].
    rewrite H1, H2. clear H1 H2. unfold PointCloud.size.
    change (PointCloud.m_points (PointCloud.placeIteratorAtBeginning c))
      with (PointCloud.m_points c).
    change (PointCloud.m_currentPointIndex (PointCloud.placeIteratorAtBeginning c))
      with 0.
    rewrite drop_0, take_ge, Nat.sub_0_r, Nat.min_r by lia.
    split; [do 2 f_equal; lia | destruct c; reflexivity].
  - intros c n Hn.
    destruct (getNextPoints_from_cursor n (PointCloud.placeIteratorAtBeginning c))
      as [H1 H2]; [simpl; lia|].
    rewrite H1, H2. clear H1 H2. unfold PointCloud.size in *.
    change (PointCloud.m_points (PointCloud.placeIteratorAtBeginning c))
      with (PointCloud.m_points c).
    change (PointCloud.m_currentPointIndex (PointCloud.placeIteratorAtBeginning c))
      with 0.
    rewrite drop_0, Nat.sub_0_r.
    replace (n - length (PointCloud.m_points c)) with 0 by lia.
    rewrite app_nil_r. split; [reflexivity|].
    change (0 + n) with n. rewrite Nat.min_l by lia. reflexivity.
Qed.

End Iterator.

Lemma getNextPoint_enumerates_the_points_witness :
  fst (getNextPoints 2 (PointCloud.placeIteratorAtBeginning Float32.triangle))
  = map Some (take 2 (PointCloud.m_points Float32.triangle))
  ∧ PointCloud.m_currentPointIndex
      (snd (getNextPoints 2 (PointCloud.placeIteratorAtBeginning Float32.triangle))) = 2.
Proof.
  apply (proj1 (proj2 (@getNextPoint_enumerates_the_points Float32.platform))).
  vm_compute. lia.
Defined.

(** ** [clear] *)

Section Clear.
Context {P : Platform}.

Lemma getScalarField_no_field index (c : PointCloud.t) :
  PointCloud.m_scalarFields c = [] → PointCloud.getScalarField index c = None.
Proof.
  intros H. unfold PointCloud.getScalarField. rewrite H.
  destruct ((0 <=? index)%Z && (index <? Z.of_nat (length []))%Z); reflexivity.
Qed.

(** X2. [clear] leaves no point and no field, both roles unset, the cursor
    at 0 and the cache invalid; it keeps the capacity of the point vector
    and the cached corners. Afterwards every name lookup returns -1, no
    index designates a field, no scalar field is enabled, [getNextPoint]
    returns null, [getBoundingBox] returns the origin for both corners, and
    a second [clear] changes nothing. *)
Theorem clear_leaves_no_point_and_no_field (c : PointCloud.t) :
  PointCloud.clear c
    = PointCloud.set_capacity (PointCloud.m_capacity c)
        (PointCloud.set_bbox (BoundingBox.setValidity false (PointCloud.m_bbox c))
           PointCloud.empty)
  ∧ PointCloud.size (PointCloud.clear c) = 0
  ∧ (∀ nm, PointCloud.getScalarFieldIndexByName nm (PointCloud.clear c) = (-1)%Z)
  ∧ (∀ index, PointCloud.getScalarField index (PointCloud.clear c) = None
              ∧ PointCloud.getScalarFieldName index (PointCloud.clear c) = None)
  ∧ PointCloud.isScalarFieldEnabled (PointCloud.clear c) = false
  ∧ (∀ i, PointCloud.getPointScalarValue i (PointCloud.clear c) = None)
  ∧ PointCloud.getNextPoint (PointCloud.clear c) = (None, PointCloud.clear c)
  ∧ fst (PointCloud.getBoundingBox (PointCloud.clear c)) = (origin, origin)
  ∧ BoundingBox.isValid
      (PointCloud.m_bbox (snd (PointCloud.getBoundingBox (PointCloud.clear c)))) = false
  ∧ PointCloud.clear (PointCloud.clear c) = PointCloud.clear c.
Proof.
  refine (conj _ (conj _ (conj _ (conj _ (conj _ (conj _ (conj _ (conj _ (conj _ _))))))))).
  - reflexivity.
  - reflexivity.
  - intros nm. reflexivity.
  - intros index. split.
    + apply getScalarField_no_field. reflexivity.
    + unfold PointCloud.getScalarFieldName.
      change (PointCloud.m_scalarFields (PointCloud.clear c)) with (@nil ScalarField.t).
      destruct ((0 <=? index)%Z && (index <? Z.of_nat (length []))%Z); reflexivity.
  - reflexivity.
  - intros i. reflexivity.
  - reflexivity.
  - reflexivity.
  - reflexivity.
  - reflexivity.
Qed.

End Clear.

(** ** [reserve] and the capacity of the point vector *)

#[global] Instance float32_vector : VectorLaws Float32.platform.
Proof. constructor. intros cap n. simpl. lia. Qed.

Section Reserve.
Context {P : Platform} {V : VectorLaws P}.

Lemma capacity_for_covers cap n : n ≤ capacity_for cap n ∧ cap ≤ capacity_for cap n.
Proof.
  unfold capacity_for. destruct (Nat.leb_spec n cap) as [H|H]; [lia|].
  pose proof (vector_capacity_covers cap n). lia.
Qed.

Lemma capacity_for_fits cap n : n ≤ cap → capacity_for cap n = cap.
Proof.
  intros H. unfold capacity_for. destruct (Nat.leb_spec n cap); [reflexivity|lia].
Qed.

(** The loop of [reserve] succeeds when every field is served. *)
Lemma reserve_fields_all sf_ok n (todo : list ScalarField.t) : ∀ i,
  PointCloud.reserve_fields sf_ok n i todo = forallb sf_ok (seq i (length todo)).
Proof.
  induction todo as [|f rest IH]; intros i; [reflexivity|].
  simpl. destruct (sf_ok i); simpl; [apply IH|reflexivity].
Qed.

Lemma forallb_seq_true sf_ok n :
  forallb sf_ok (seq 0 n) = true ↔ ∀ j, j < n → sf_ok j = true.
Proof.
  rewrite forallb_forall. split.
  - intros H j Hj. apply H, in_seq. lia.
  - intros H j Hj. apply in_seq in Hj. apply H. lia.
Qed.

(** X3. [reserve] changes nothing but the capacity of the point vector,
    which never decreases and is left as it is when the request already
    fits. It returns [true] exactly when the point vector and every scalar
    field get their memory; the final capacity test never fails. When the
    point vector is refused the cloud is unchanged; when a field is refused
    the call returns [false] with the capacity of the point vector already
    grown to the request. *)
Theorem reserve_changes_only_the_capacity pts_ok sf_ok n (c : PointCloud.t) :
  snd (PointCloud.reserve pts_ok sf_ok n c)
    = PointCloud.set_capacity
        (PointCloud.m_capacity (snd (PointCloud.reserve pts_ok sf_ok n c))) c
  ∧ PointCloud.m_capacity c ≤ PointCloud.m_capacity (snd (PointCloud.reserve pts_ok sf_ok n c))
  ∧ (fst (PointCloud.reserve pts_ok sf_ok n c) = true
     ↔ pts_ok = true ∧ ∀ j, j < length (PointCloud.m_scalarFields c) → sf_ok j = true)
  ∧ (fst (PointCloud.reserve pts_ok sf_ok n c) = true
     → n ≤ PointCloud.m_capacity (snd (PointCloud.reserve pts_ok sf_ok n c)))
  ∧ (pts_ok = false → PointCloud.reserve pts_ok sf_ok n c = (false, c))
  ∧ (pts_ok = true
     → n ≤ PointCloud.m_capacity (snd (PointCloud.reserve pts_ok sf_ok n c)))
  ∧ (n ≤ PointCloud.m_capacity c → snd (PointCloud.reserve pts_ok sf_ok n c) = c).
Proof.
  pose proof (capacity_for_covers (PointCloud.m_capacity c) n) as [Hn Hcap].
  unfold PointCloud.reserve. rewrite reserve_fields_all.
  change (PointCloud.m_scalarFields
            (PointCloud.set_capacity (capacity_for (PointCloud.m_capacity c) n) c))
    with (PointCloud.m_scalarFields c).
  destruct pts_ok; cbn [negb].
  - destruct (forallb sf_ok (seq 0 (length (PointCloud.m_scalarFields c)))) eqn:Hall;
      cbn [fst snd PointCloud.m_capacity PointCloud.set_capacity].
    + pose proof (proj1 (forallb_seq_true _ _) Hall) as Hall'.
      refine (conj eq_refl (conj Hcap (conj _ (conj _ (conj _ (conj _ _)))))).
      * split; [intros _; split; [reflexivity|exact Hall']|].
        intros _. apply Nat.leb_le. exact Hn.
      * intros _. exact Hn.
      * discriminate.
      * intros _. exact Hn.
      * intros Hfit. rewrite capacity_for_fits by exact Hfit. destruct c; reflexivity.
    + refine (conj eq_refl (conj Hcap (conj _ (conj _ (conj _ (conj _ _)))))).
      * split; [discriminate|]. intros [_ H]. apply (proj2 (forallb_seq_true _ _)) in H. congruence.
      * discriminate.
      * discriminate.
      * intros _. exact Hn.
      * intros Hfit. rewrite capacity_for_fits by exact Hfit. destruct c; reflexivity.
  - cbn [fst snd].
    refine (conj _ (conj (Nat.le_refl _) (conj _ (conj _ (conj _ (conj _ _)))))).
    + destruct c; reflexivity.
    + split; [discriminate|]. intros [H _]. discriminate.
    + discriminate.
    + reflexivity.
    + discriminate.
    + reflexivity.
Qed.

End Reserve.

Lemma reserve_changes_only_the_capacity_witness :
  (fst (PointCloud.reserve true (Float32.always true) 10 Float32.one_field) = true
   ∧ 10 ≤ PointCloud.m_capacity
            (snd (PointCloud.reserve true (Float32.always true) 10 Float32.one_field)))
  ∧ (fst (PointCloud.reserve true (Float32.always false) 10 Float32.one_field) = false
     ∧ 10 ≤ PointCloud.m_capacity
              (snd (PointCloud.reserve true (Float32.always false) 10 Float32.one_field)))
  ∧ snd (PointCloud.reserve true (Float32.always true) 1 Float32.one_field)
    = Float32.one_field.
Proof.
  destruct (@reserve_changes_only_the_capacity Float32.platform float32_vector
              true (Float32.always true) 10 Float32.one_field)
    as (_ & _ & H3 & H4 & _).
  destruct (@reserve_changes_only_the_capacity Float32.platform float32_vector
              true (Float32.always false) 10 Float32.one_field)
    as (_ & _ & _ & _ & _ & H6 & _).
  destruct (@reserve_changes_only_the_capacity Float32.platform float32_vector
              true (Float32.always true) 1 Float32.one_field)
    as (_ & _ & _ & _ & _ & _ & H7).
  assert (Hok : fst (PointCloud.reserve true (Float32.always true) 10 Float32.one_field)
                = true).
  { apply H3. split; [reflexivity|]. intros j _. reflexivity. }
  refine (conj (conj Hok (H4 Hok)) (conj (conj _ (H6 eq_refl)) (H7 _))).
  - reflexivity.
  - vm_compute. lia.
Defined.


Section Capacity.
Context {P : Platform} {V : VectorLaws P}.

(** The methods on scalar fields leave the point vector alone. *)
Lemma addScalarField_vector b d nm (c : PointCloud.t) :
  PointCloud.m_points (snd (PointCloud.addScalarField b d nm c)) = PointCloud.m_points c
  ∧ PointCloud.m_capacity (snd (PointCloud.addScalarField b d nm c))
    = PointCloud.m_capacity c.
Proof.
  unfold PointCloud.addScalarField.
  repeat match goal with
         | |- context [if ?b then _ else _] => destruct b
         end; split; reflexivity.
Qed.

Lemma enableScalarField_vector b d e (c : PointCloud.t) :
  PointCloud.m_points (snd (PointCloud.enableScalarField b d e c)) = PointCloud.m_points c
  ∧ PointCloud.m_capacity (snd (PointCloud.enableScalarField b d e c))
    = PointCloud.m_capacity c.
Proof.
  unfold PointCloud.enableScalarField.
  pose proof (addScalarField_vector b d "Default"
                (PointCloud.set_currentIn
                   (PointCloud.getScalarFieldIndexByName "Default" c) c)) as [Hp Hc].
  repeat match goal with
         | |- context [match ?x with _ => _ end] => destruct x
         end; cbn [snd PointCloud.m_points PointCloud.m_capacity PointCloud.set_scalarFields
                   PointCloud.set_currentOut PointCloud.set_currentIn] in *;
    split; assumption || reflexivity.
Qed.

Lemma deleteScalarField_vector index (c : PointCloud.t) :
  PointCloud.m_points (PointCloud.deleteScalarField index c) = PointCloud.m_points c
  ∧ PointCloud.m_capacity (PointCloud.deleteScalarField index c) = PointCloud.m_capacity c.
Proof.
  unfold PointCloud.deleteScalarField.
  repeat match goal with
         | |- context [if ?b then _ else _] => destruct b
         end; split; reflexivity.
Qed.

Lemma run_fits k (c : PointCloud.t) :
  PointCloud.size c ≤ PointCloud.m_capacity c →
  PointCloud.size (PointCloud.run k c) ≤ PointCloud.m_capacity (PointCloud.run k c).
Proof.
  unfold PointCloud.size. intros H.
  destruct k as [|action| | | | |pts_ok sf_ok n|pts_ok sf_ok n|p|trans|b d e|i v
                |b d nm|index| |index nm|i j]; cbn [PointCloud.run].
  - simpl. lia.
  - unfold PointCloud.forEach. destruct (PointCloud.getCurrentOutScalarField c); exact H.
  - exact H.
  - exact H.
  - exact H.
  - unfold PointCloud.getNextPoint.
    destruct (PointCloud.m_currentPointIndex c <? length (PointCloud.m_points c)); exact H.
  - unfold PointCloud.resize. destruct pts_ok; cbn [negb]; [|exact H].
    pose proof (capacity_for_covers (PointCloud.m_capacity c) n) as [H1 H2].
    pose proof (capacity_for_covers (capacity_for (PointCloud.m_capacity c) n)
                  (length (PointCloud.m_points c))) as [H3 H4].
    match goal with |- context [if ?b then _ else _] => destruct b end;
      cbn [snd PointCloud.resize_points PointCloud.m_points PointCloud.m_capacity
           PointCloud.set_scalarFields PointCloud.set_capacity PointCloud.set_points];
      rewrite length_resize; assumption.
  - unfold PointCloud.reserve. destruct pts_ok; cbn [negb]; [|exact H].
    pose proof (capacity_for_covers (PointCloud.m_capacity c) n) as [H1 H2].
    match goal with |- context [if ?b then _ else _] => destruct b end;
      cbn [snd PointCloud.m_points PointCloud.m_capacity PointCloud.set_capacity]; lia.
  - pose proof (capacity_for_covers (PointCloud.m_capacity c)
                  (S (length (PointCloud.m_points c)))) as [H1 H2].
    unfold PointCloud.addPoint, PointCloud.push_back.
    match goal with |- context [if ?b then _ else _] => destruct b end;
      cbn [PointCloud.m_points PointCloud.m_capacity PointCloud.set_capacity
           PointCloud.set_points PointCloud.set_bbox];
      rewrite length_app; simpl; lia.
  - unfold PointCloud.applyTransformation, PointCloud.translation_pass,
      PointCloud.rotation_pass, PointCloud.scale_pass.
    destruct (PointCloud.scale_applies trans), (PointCloud.rotation_applies trans),
      (PointCloud.translation_applies trans);
      cbn [PointCloud.m_points PointCloud.m_capacity PointCloud.set_points
           PointCloud.invalidateBoundingBox PointCloud.set_bbox];
      rewrite ?length_map; exact H.
  - destruct (enableScalarField_vector b d e c) as [-> ->]. exact H.
  - unfold PointCloud.setPointScalarValue.
    destruct (PointCloud.getCurrentInScalarField c); exact H.
  - destruct (addScalarField_vector b d nm c) as [-> ->]. exact H.
  - destruct (deleteScalarField_vector index c) as [-> ->]. exact H.
  - exact H.
  - unfold PointCloud.renameScalarField.
    repeat match goal with
           | |- context [match ?x with _ => _ end] => destruct x
           end; exact H.
  - unfold PointCloud.swapPoints.
    match goal with |- context [if ?b then _ else _] => destruct b end; [exact H|].
    cbn [PointCloud.m_points PointCloud.m_capacity PointCloud.set_points
         PointCloud.set_scalarFields].
    rewrite vector_swap_length. exact H.
Qed.

Lemma addPoint_within_capacity p (c : PointCloud.t) :
  PointCloud.size c < PointCloud.m_capacity c →
  PointCloud.m_capacity (PointCloud.addPoint p c) = PointCloud.m_capacity c.
Proof.
  unfold PointCloud.size. intros H.
  unfold PointCloud.addPoint, PointCloud.push_back.
  match goal with |- context [if ?b then _ else _] => destruct b end;
    cbn [PointCloud.m_points PointCloud.m_capacity PointCloud.set_capacity
         PointCloud.set_points PointCloud.set_bbox];
    apply capacity_for_fits; lia.
Qed.

Lemma addPoints_within_capacity ps : ∀ c : PointCloud.t,
  PointCloud.size c + length ps ≤ PointCloud.m_capacity c →
  PointCloud.m_capacity (PointCloud.run_all (map PointCloud.AddPoint ps) c)
  = PointCloud.m_capacity c.
Proof.
  induction ps as [|p ps IH]; intros c H; [reflexivity|].
  simpl in H. change (PointCloud.run_all (map PointCloud.AddPoint (p :: ps)) c)
    with (PointCloud.run_all (map PointCloud.AddPoint ps) (PointCloud.addPoint p c)).
  assert (Hc : PointCloud.m_capacity (PointCloud.addPoint p c) = PointCloud.m_capacity c)
    by (apply addPoint_within_capacity; lia).
  rewrite IH; [exact Hc|].
  rewrite Hc. unfold PointCloud.size in *. rewrite addPoint_points, length_app. simpl. lia.
Qed.

(** X4. The capacity of the point vector covers the points in every cloud
    a client can reach. *)
Theorem reachable_points_fit_the_capacity (c : PointCloud.t) :
  PointCloud.reachable c → PointCloud.size c ≤ PointCloud.m_capacity c.
Proof.
  induction 1 as [|k c _ IH]; [reflexivity|]. apply run_fits, IH.
Qed.

(** X5. Points added within the capacity do not reallocate: the capacity
    stays what it was, in particular after a [reserve] that returned
    [true] and as long as the reserved count is not exceeded. *)
Theorem addPoint_within_capacity_does_not_reallocate :
  (∀ ps (c : PointCloud.t),
     PointCloud.size c + length ps ≤ PointCloud.m_capacity c →
     PointCloud.m_capacity (PointCloud.run_all (map PointCloud.AddPoint ps) c)
     = PointCloud.m_capacity c)
  ∧ (∀ pts_ok sf_ok n ps (c : PointCloud.t),
       fst (PointCloud.reserve pts_ok sf_ok n c) = true →
       PointCloud.size c + length ps ≤ n →
       PointCloud.m_capacity
         (PointCloud.run_all (map PointCloud.AddPoint ps)
            (snd (PointCloud.reserve pts_ok sf_ok n c)))
       = PointCloud.m_capacity (snd (PointCloud.reserve pts_ok sf_ok n c))
       ∧ PointCloud.m_points
           (PointCloud.run_all (map PointCloud.AddPoint ps)
              (snd (PointCloud.reserve pts_ok sf_ok n c)))
         = PointCloud.m_points c ++ map stored_point ps).
Proof.
  split; [exact addPoints_within_capacity|].
  intros pts_ok sf_ok n ps c Hok Hn.
  assert (Hr : PointCloud.m_points (snd (PointCloud.reserve pts_ok sf_ok n c))
               = PointCloud.m_points c
               ∧ n ≤ PointCloud.m_capacity (snd (PointCloud.reserve pts_ok sf_ok n c))).
  { revert Hok. unfold PointCloud.reserve.
    destruct pts_ok; cbn [negb]; [|discriminate].
    match goal with |- context [if ?b then _ else _] => destruct b end;
      cbn [fst snd]; [|discriminate].
    intros Hle. apply Nat.leb_le in Hle. split; [reflexivity|exact Hle]. }
  destruct Hr as [Hp Hc]. split.
  - apply addPoints_within_capacity. unfold PointCloud.size in *. rewrite Hp. lia.
  - rewrite addPoint_run_all, Hp. reflexivity.
Qed.

End Capacity.

Lemma reachable_points_fit_the_capacity_witness :
  PointCloud.size Float32.enabled ≤ PointCloud.m_capacity Float32.enabled.
Proof.
  apply (@reachable_points_fit_the_capacity Float32.platform float32_vector).
  unfold Float32.enabled. apply reachable_run_all. constructor.
Defined.

Lemma addPoint_within_capacity_does_not_reallocate_witness :
  PointCloud.m_capacity
    (PointCloud.run_all
       (map PointCloud.AddPoint [Float32.pt 3 3 3; Float32.pt 4 4 4]) Scenario.roomy)
  = 4.
Proof.
  destruct (@addPoint_within_capacity_does_not_reallocate Float32.platform)
    as [H _].
  rewrite H; [reflexivity | vm_compute; lia].
Defined.

(** ** Reading and writing scalar values *)

Section ScalarValues.
Context {P : Platform}.

(** The field that an index designates after the field at [k] is replaced. *)
Lemma getScalarField_replace_same index g f (c : PointCloud.t) :
  PointCloud.getScalarField index c = Some f →
  PointCloud.getScalarField index
    (PointCloud.set_scalarFields (<[Z.to_nat index := g]> (PointCloud.m_scalarFields c)) c)
  = Some g.
Proof.
  unfold PointCloud.getScalarField.
  cbn [PointCloud.m_scalarFields PointCloud.set_scalarFields].
  rewrite length_insert.
  destruct ((0 <=? index)%Z && (index <? Z.of_nat (length (PointCloud.m_scalarFields c)))%Z);
    [|discriminate].
  intros H. apply list_lookup_insert_eq. eapply lookup_lt_Some. exact H.
Qed.

Lemma getScalarField_replace_other index k g (c : PointCloud.t) :
  index ≠ Z.of_nat k →
  PointCloud.getScalarField index
    (PointCloud.set_scalarFields (<[k := g]> (PointCloud.m_scalarFields c)) c)
  = PointCloud.getScalarField index c.
Proof.
  intros Hne. unfold PointCloud.getScalarField.
  cbn [PointCloud.m_scalarFields PointCloud.set_scalarFields].
  rewrite length_insert.
  destruct (Z.leb_spec 0 index); [|reflexivity]. cbn [andb].
  destruct (index <? Z.of_nat (length (PointCloud.m_scalarFields c)))%Z; [|reflexivity].
  apply list_lookup_insert_ne. lia.
Qed.

Lemma setPointScalarValue_designated i v f (c : PointCloud.t) :
  PointCloud.getCurrentInScalarField c = Some f →
  PointCloud.setPointScalarValue i v c
  = PointCloud.set_scalarFields
      (<[Z.to_nat (PointCloud.m_currentInScalarFieldIndex c) := ScalarField.setValue i v f]>
         (PointCloud.m_scalarFields c)) c.
Proof. intros H. unfold PointCloud.setPointScalarValue. rewrite H. reflexivity. Qed.

(** X6. A value written with [setPointScalarValue] is read back by
    [getPointScalarValue] at the same index when the output role is the
    input role, and the other slots read as before. When the two roles
    differ the write is invisible to [getPointScalarValue]. The write keeps
    the name, the length and the recorded min/max of the input field (they
    are not recomputed), every other field, the points and the roles. *)
Theorem setPointScalarValue_then_getPointScalarValue i v f (c : PointCloud.t) :
  PointCloud.getCurrentInScalarField c = Some f →
  (PointCloud.m_currentOutScalarFieldIndex c = PointCloud.m_currentInScalarFieldIndex c →
     (i < ScalarField.size f →
        PointCloud.getPointScalarValue i (PointCloud.setPointScalarValue i v c) = Some v)
     ∧ ∀ j, j ≠ i →
         PointCloud.getPointScalarValue j (PointCloud.setPointScalarValue i v c)
         = PointCloud.getPointScalarValue j c)
  ∧ (PointCloud.m_currentOutScalarFieldIndex c ≠ PointCloud.m_currentInScalarFieldIndex c →
     ∀ j, PointCloud.getPointScalarValue j (PointCloud.setPointScalarValue i v c)
          = PointCloud.getPointScalarValue j c)
  ∧ (∃ f', PointCloud.getCurrentInScalarField (PointCloud.setPointScalarValue i v c) = Some f'
       ∧ ScalarField.name f' = ScalarField.name f
       ∧ ScalarField.size f' = ScalarField.size f
       ∧ ScalarField.minVal f' = ScalarField.minVal f
       ∧ ScalarField.maxVal f' = ScalarField.maxVal f)
  ∧ (∀ index, index ≠ PointCloud.m_currentInScalarFieldIndex c →
       PointCloud.getScalarField index (PointCloud.setPointScalarValue i v c)
       = PointCloud.getScalarField index c)
  ∧ PointCloud.setPointScalarValue i v c
    = PointCloud.set_scalarFields
        (PointCloud.m_scalarFields (PointCloud.setPointScalarValue i v c)) c
  ∧ PointCloud.isScalarFieldEnabled (PointCloud.setPointScalarValue i v c)
    = PointCloud.isScalarFieldEnabled c.
Proof.
  intros Hf. rewrite (setPointScalarValue_designated i v f c Hf).
  pose proof Hf as Hin. unfold PointCloud.getCurrentInScalarField in Hin.
  pose proof (getScalarField_replace_same _ (ScalarField.setValue i v f) _ _ Hin) as Hnew.
  pose proof (proj1 (getScalarField_Some _ _ _) Hin) as [H0 Hk].
  refine (conj _ (conj _ (conj _ (conj _ (conj eq_refl _))))).
  - intros Hout. unfold PointCloud.getPointScalarValue, PointCloud.getCurrentOutScalarField.
    cbn [PointCloud.m_currentOutScalarFieldIndex PointCloud.set_scalarFields].
    rewrite Hout, Hnew, Hin. unfold ScalarField.getValue, ScalarField.setValue.
    cbn [ScalarField.values]. split.
    + intros Hi. apply list_lookup_insert_eq. exact Hi.
    + intros j Hj. apply list_lookup_insert_ne. congruence.
  - intros Hout j. unfold PointCloud.getPointScalarValue, PointCloud.getCurrentOutScalarField.
    cbn [PointCloud.m_currentOutScalarFieldIndex PointCloud.set_scalarFields].
    rewrite getScalarField_replace_other by lia. reflexivity.
  - exists (ScalarField.setValue i v f). unfold PointCloud.getCurrentInScalarField.
    cbn [PointCloud.m_currentInScalarFieldIndex PointCloud.set_scalarFields].
    refine (conj Hnew (conj eq_refl (conj _ (conj eq_refl eq_refl)))).
    unfold ScalarField.size, ScalarField.setValue. cbn [ScalarField.values].
    apply length_insert.
  - intros index Hne. apply getScalarField_replace_other. lia.
  - unfold PointCloud.isScalarFieldEnabled, PointCloud.getCurrentInScalarField.
    cbn [PointCloud.m_currentInScalarFieldIndex PointCloud.set_scalarFields
         PointCloud.m_points].
    rewrite Hnew, Hin. unfold ScalarField.size, ScalarField.setValue.
    cbn [ScalarField.values]. rewrite length_insert. reflexivity.
Qed.

End ScalarValues.

Lemma setPointScalarValue_then_getPointScalarValue_witness :
  PointCloud.getPointScalarValue 0
    (PointCloud.setPointScalarValue 0 (Float32.of_Z 9) Float32.written)
  = Some (Float32.of_Z 9)
  ∧ PointCloud.getPointScalarValue 0
      (PointCloud.setPointScalarValue 0 (Float32.of_Z 9) Scenario.split_roles)
    = PointCloud.getPointScalarValue 0 Scenario.split_roles.
Proof.
  split.
  - apply (@setPointScalarValue_then_getPointScalarValue Float32.platform 0
             (Float32.of_Z 9)
             (@ScalarField.mk Float32.platform "Default" [Float32.of_Z 5]
                (S754_zero false) (S754_zero false)) Float32.written eq_refl);
      [reflexivity | vm_compute; lia].
  - apply (@setPointScalarValue_then_getPointScalarValue Float32.platform 0
             (Float32.of_Z 9)
             (@ScalarField.mk Float32.platform "Default" [Float32.of_Z 5]
                (S754_zero false) (S754_zero false)) Scenario.split_roles eq_refl).
    vm_compute. discriminate.
Defined.

(** ** Names and indexes of scalar fields *)

Section Names.
Context {P : Platform}.

Lemma getScalarFieldName_getScalarField index (c : PointCloud.t) :
  PointCloud.getScalarFieldName index c
  = ScalarField.getName <$> PointCloud.getScalarField index c.
Proof.
  unfold PointCloud.getScalarFieldName, PointCloud.getScalarField.
  destruct ((0 <=? index)%Z && (index <? Z.of_nat (length (PointCloud.m_scalarFields c)))%Z);
    reflexivity.
Qed.

Lemma getScalarFieldName_Some index nm (c : PointCloud.t) :
  PointCloud.getScalarFieldName index c = Some nm ↔
  (0 ≤ index)%Z ∧ field_names c !! Z.to_nat index = Some nm.
Proof.
  rewrite getScalarFieldName_getScalarField. unfold field_names.
  rewrite list_lookup_fmap. split.
  - destruct (PointCloud.getScalarField index c) as [f|] eqn:Hf; [|discriminate].
    apply getScalarField_Some in Hf as [H0 Hk]. rewrite Hk. intros H. split; [exact H0|exact H].
  - intros [H0 H]. destruct (PointCloud.m_scalarFields c !! Z.to_nat index) as [f|] eqn:Hk;
      [|discriminate].
    rewrite (proj2 (getScalarField_Some index c f) (conj H0 Hk)). exact H.
Qed.

Lemma getScalarFieldIndexByName_unset nm (c : PointCloud.t) :
  PointCloud.getScalarFieldIndexByName nm c = (-1)%Z ↔ nm ∉ field_names c.
Proof.
  destruct (getScalarFieldIndexByName_sign nm c) as [[Hin Hge]|[Hnot Heq]].
  - split; [lia|]. intros H. contradiction.
  - split; [intros _; exact Hnot | intros _; exact Heq].
Qed.

Lemma getScalarFieldIndexByName_of_name nm index (c : PointCloud.t) :
  NoDup (field_names c) →
  PointCloud.getScalarFieldName index c = Some nm →
  PointCloud.getScalarFieldIndexByName nm c = index.
Proof.
  intros Hnd Hname. apply getScalarFieldName_Some in Hname as [H0 Hk].
  destruct (getScalarFieldIndexByName_present nm c) as (k & f & Hidx & Hf & Hnm).
  { apply list_elem_of_lookup. eauto. }
  rewrite Hidx.
  assert (Hk' : field_names c !! k = Some nm).
  { unfold field_names. rewrite list_lookup_fmap, Hf. simpl. congruence. }
  pose proof (proj1 (NoDup_alt _) Hnd _ _ _ Hk Hk'). lia.
Qed.

(** X7. [getScalarFieldIndexByName] returns -1 exactly when no field has
    the name; otherwise it returns the first index whose field has it, and
    [getScalarFieldName] at that index gives the name back. Where the names
    are pairwise distinct, as in every reachable cloud, the lookup by name
    inverts [getScalarFieldName]. [getScalarFieldName] returns the name of
    the field that [getScalarField] returns, and null where it returns
    null. *)
Theorem getScalarFieldIndexByName_inverts_getScalarFieldName nm (c : PointCloud.t) :
  (PointCloud.getScalarFieldIndexByName nm c = (-1)%Z ↔ nm ∉ field_names c)
  ∧ (PointCloud.getScalarFieldIndexByName nm c ≠ (-1)%Z →
       PointCloud.getScalarFieldName (PointCloud.getScalarFieldIndexByName nm c) c = Some nm
       ∧ ∀ j, (0 ≤ j < PointCloud.getScalarFieldIndexByName nm c)%Z →
              PointCloud.getScalarFieldName j c ≠ Some nm)
  ∧ (NoDup (field_names c) → ∀ index,
       PointCloud.getScalarFieldName index c = Some nm →
       PointCloud.getScalarFieldIndexByName nm c = index)
  ∧ (PointCloud.reachable c → ∀ index,
       PointCloud.getScalarFieldName index c = Some nm →
       PointCloud.getScalarFieldIndexByName nm c = index)
  ∧ (∀ index, PointCloud.getScalarFieldName index c
              = ScalarField.getName <$> PointCloud.getScalarField index c).
Proof.
  assert (Hinv : NoDup (field_names c) → ∀ index,
            PointCloud.getScalarFieldName index c = Some nm →
            PointCloud.getScalarFieldIndexByName nm c = index).
  { intros Hnd index. apply getScalarFieldIndexByName_of_name. exact Hnd. }
  refine (conj _ (conj _ (conj Hinv (conj _ (λ index, getScalarFieldName_getScalarField index c))))).
  - apply getScalarFieldIndexByName_unset.
  - intros Hne. unfold PointCloud.getScalarFieldIndexByName in *.
    destruct (index_by_name_spec nm (PointCloud.m_scalarFields c) 0)
      as [[Heq _]|(k & f & Heq & Hf & Hnm & Hfirst)]; [contradiction|].
    rewrite Heq. simpl. split.
    + apply getScalarFieldName_Some. rewrite Nat2Z.id. split; [lia|].
      unfold field_names. rewrite list_lookup_fmap, Hf. simpl. congruence.
    + intros j Hj Hname. apply getScalarFieldName_Some in Hname as [_ Hname].
      apply Hfirst. unfold field_names in Hname. rewrite list_lookup_fmap in Hname.
      destruct (PointCloud.m_scalarFields c !! Z.to_nat j) as [g|] eqn:Hg; [|discriminate].
      apply list_elem_of_In, in_map_iff. exists g. split; [simpl in Hname; congruence|].
      apply list_elem_of_In, list_elem_of_lookup. exists (Z.to_nat j).
      rewrite lookup_take_lt by lia. exact Hg.
  - intros Hr. apply Hinv, reachable_names_unique, Hr.
Qed.

End Names.

Lemma getScalarFieldIndexByName_inverts_getScalarFieldName_witness :
  PointCloud.getScalarFieldName 1 Float32.aligned = Some "B"
  ∧ PointCloud.getScalarFieldIndexByName "B" Float32.aligned = 1%Z
  ∧ PointCloud.getScalarFieldName
      (PointCloud.getScalarFieldIndexByName "A" Float32.aligned) Float32.aligned = Some "A".
Proof.
  destruct (@getScalarFieldIndexByName_inverts_getScalarFieldName Float32.platform
              "B" Float32.aligned) as (_ & _ & _ & H4 & _).
  destruct (@getScalarFieldIndexByName_inverts_getScalarFieldName Float32.platform
              "A" Float32.aligned) as (_ & H2 & _).
  refine (conj eq_refl (conj (H4 _ 1%Z eq_refl) (proj1 (H2 _)))).
  - unfold Float32.aligned. apply reachable_run_all. constructor.
  - vm_compute. discriminate.
Defined.

(** ** [deleteScalarField] and [deleteAllScalarFields] *)

Section DeleteOne.
Context {P : Platform}.

Lemma transpose_inj i j : Inj (=) (=) (transpose i j).
Proof. intros a b. unfold transpose. repeat case_decide; congruence. Qed.

Lemma vector_swap_Permutation {A} i j (v : list A) : vector_swap i j v ≡ₚ v.
Proof.
  destruct (decide (i < length v ∧ j < length v)) as [[Hi Hj]|Hout].
  - apply Permutation_inj. split; [apply vector_swap_length|].
    exists (transpose i j). split; [apply transpose_inj|].
    intros k. rewrite vector_swap_lookup by assumption. reflexivity.
  - rewrite vector_swap_out_of_range by lia. reflexivity.
Qed.

Lemma removelast_snoc {A} (v : list A) a :
  v !! (length v - 1) = Some a → v = removelast v ++ [a].
Proof.
  intros H. rewrite removelast_take.
  rewrite <- (take_drop (length v - 1) v) at 1. f_equal.
  rewrite (drop_S _ _ _ H). rewrite drop_ge; [reflexivity|].
  apply lookup_lt_Some in H. lia.
Qed.

(** The fields before the last one is dropped: the deleted field is last. *)
Lemma deleteScalarField_fields index f (c : PointCloud.t) :
  PointCloud.getScalarField index c = Some f →
  ∃ v, v ≡ₚ PointCloud.m_scalarFields c
    ∧ length v = length (PointCloud.m_scalarFields c)
    ∧ v !! (length v - 1) = Some f
    ∧ PointCloud.m_scalarFields (PointCloud.deleteScalarField index c) = removelast v
    ∧ (∀ k, Z.of_nat k ≠ index → k < length v - 1 → v !! k = PointCloud.m_scalarFields c !! k)
    ∧ ((index < Z.of_nat (length v) - 1)%Z →
       v !! Z.to_nat index = last (PointCloud.m_scalarFields c)).
Proof.
  intros Hf. apply getScalarField_Some in Hf as [H0 Hk].
  pose proof (lookup_lt_Some _ _ _ Hk) as Hlt.
  rewrite deleteScalarField_in_range by lia. cbn [PointCloud.m_scalarFields].
  destruct (Z.ltb_spec index (Z.of_nat (length (PointCloud.m_scalarFields c)) - 1)) as [Hi|Hi].
  - eexists. refine (conj (vector_swap_Permutation _ _ _)
                       (conj (vector_swap_length _ _ _) (conj _ (conj eq_refl (conj _ _))))).
    + rewrite vector_swap_length, vector_swap_lookup by lia.
      replace (Z.to_nat (Z.of_nat (length (PointCloud.m_scalarFields c)) - 1))
        with (length (PointCloud.m_scalarFields c) - 1) by lia.
      destruct (decide (length (PointCloud.m_scalarFields c) - 1 = Z.to_nat index));
        [lia|].
      rewrite decide_True by reflexivity. exact Hk.
    + intros k Hne Hlast. rewrite vector_swap_length in Hlast.
      apply vector_swap_lookup_other; lia.
    + intros _. rewrite vector_swap_lookup by lia. rewrite decide_True by reflexivity.
      rewrite last_lookup. f_equal. lia.
  - exists (PointCloud.m_scalarFields c).
    refine (conj _ (conj eq_refl (conj _ (conj eq_refl (conj _ _))))).
    + reflexivity.
    + replace (length (PointCloud.m_scalarFields c) - 1) with (Z.to_nat index) by lia.
      exact Hk.
    + reflexivity.
    + lia.
Qed.

(** X8. [deleteScalarField] of a valid index removes exactly the field at
    that index: the fields before the call are those after it plus the
    deleted one. Only the slot of the deleted field is refilled, by the
    field that was last; the other remaining slots keep their fields. Where
    the names are pairwise distinct, the name of the deleted field is not
    found any more and every other name is found exactly when it was found
    before. *)
Theorem deleteScalarField_removes_exactly_one_field index f (c : PointCloud.t) :
  PointCloud.getScalarField index c = Some f →
  PointCloud.m_scalarFields c
    ≡ₚ f :: PointCloud.m_scalarFields (PointCloud.deleteScalarField index c)
  ∧ (∀ k, Z.of_nat k ≠ index → k < length (PointCloud.m_scalarFields c) - 1 →
       PointCloud.m_scalarFields (PointCloud.deleteScalarField index c) !! k
       = PointCloud.m_scalarFields c !! k)
  ∧ ((index < Z.of_nat (length (PointCloud.m_scalarFields c)) - 1)%Z →
       PointCloud.m_scalarFields (PointCloud.deleteScalarField index c) !! Z.to_nat index
       = last (PointCloud.m_scalarFields c))
  ∧ (NoDup (field_names c) →
       PointCloud.getScalarFieldIndexByName (ScalarField.name f)
         (PointCloud.deleteScalarField index c) = (-1)%Z
       ∧ ∀ nm, nm ≠ ScalarField.name f →
           (PointCloud.getScalarFieldIndexByName nm (PointCloud.deleteScalarField index c)
              = (-1)%Z
            ↔ PointCloud.getScalarFieldIndexByName nm c = (-1)%Z)).
Proof.
  intros Hf. pose proof (proj1 (getScalarField_Some _ _ _) Hf) as [H0 _].
  destruct (deleteScalarField_fields index f c Hf) as (v & Hperm & Hlen & Hlast & Heq & Hk' & Hi).
  assert (Hp : PointCloud.m_scalarFields c
               ≡ₚ f :: PointCloud.m_scalarFields (PointCloud.deleteScalarField index c)).
  { rewrite Heq, <- Hperm. rewrite (removelast_snoc v f Hlast) at 1.
    rewrite Permutation_app_comm. reflexivity. }
  refine (conj Hp (conj _ (conj _ _))).
  - intros k Hne Hlt. rewrite Heq, removelast_lookup by lia. apply Hk'; [exact Hne|lia].
  - intros Hlt. rewrite Heq, removelast_lookup by lia. apply Hi. lia.
  - intros Hnd.
    assert (Hnames : field_names c
                     ≡ₚ ScalarField.name f
                        :: field_names (PointCloud.deleteScalarField index c)).
    { unfold field_names. apply (Permutation_map ScalarField.name) in Hp. exact Hp. }
    rewrite Hnames in Hnd. apply NoDup_cons in Hnd as [Hnot _].
    split; [apply getScalarFieldIndexByName_absent; exact Hnot|].
    intros nm Hne. rewrite !getScalarFieldIndexByName_unset, Hnames.
    rewrite elem_of_cons. tauto.
Qed.

End DeleteOne.

Lemma deleteScalarField_removes_exactly_one_field_witness :
  PointCloud.getScalarFieldIndexByName "A" (PointCloud.deleteScalarField 0 Float32.enabled)
  = (-1)%Z
  ∧ PointCloud.m_scalarFields (PointCloud.deleteScalarField 0 Float32.enabled) !! 0
    = last (PointCloud.m_scalarFields Float32.enabled).
Proof.
  destruct (@deleteScalarField_removes_exactly_one_field Float32.platform 0%Z
              (@ScalarField.mk Float32.platform "A" [S754_zero false]
                 (S754_zero false) (S754_zero false))
              Float32.enabled eq_refl) as (_ & _ & H3 & H4).
  assert (Hnd : NoDup (field_names Float32.enabled)).
  { apply reachable_names_unique. unfold Float32.enabled.
    apply reachable_run_all. constructor. }
  split; [exact (proj1 (H4 Hnd))|].
  apply H3. vm_compute. reflexivity.
Defined.

Section DeleteAll.
Context {P : Platform}.

Lemma deleteAllScalarFields_after_delete index (c : PointCloud.t) :
  PointCloud.deleteAllScalarFields (PointCloud.deleteScalarField index c)
  = PointCloud.deleteAllScalarFields c.
Proof.
  destruct (decide (0 ≤ index < Z.of_nat (length (PointCloud.m_scalarFields c)))%Z) as [H|H].
  - rewrite deleteScalarField_in_range by exact H. reflexivity.
  - rewrite deleteScalarField_out_of_range by lia. reflexivity.
Qed.

Lemma deleteAllScalarFields_no_field (c : PointCloud.t) :
  PointCloud.m_scalarFields c = [] → roles_ok c → PointCloud.deleteAllScalarFields c = c.
Proof.
  destruct c as [pts cap bb cur fs rin rout]. unfold roles_ok, role_ok. simpl.
  intros -> [Hin Hout]. simpl in *.
  assert (rin = (-1)%Z) by lia. assert (rout = (-1)%Z) by lia. subst. reflexivity.
Qed.

(** X9. Deleting the field at index 0 once per field does what
    [deleteAllScalarFields] does: no field is left and both roles are
    unset; further deletions change nothing. The roles have to be unset or
    valid beforehand, as they are in every reachable cloud. *)
Theorem deleteScalarField_of_every_field_is_deleteAllScalarFields n : ∀ c : PointCloud.t,
  roles_ok c → length (PointCloud.m_scalarFields c) ≤ n →
  Nat.iter n (PointCloud.deleteScalarField 0) c = PointCloud.deleteAllScalarFields c.
Proof.
  induction n as [|n IH]; intros c Hroles Hlen.
  - simpl. symmetry. apply deleteAllScalarFields_no_field; [|exact Hroles].
    destruct (PointCloud.m_scalarFields c); [reflexivity|simpl in Hlen; lia].
  - rewrite Nat.iter_succ_r.
    rewrite IH; [apply deleteAllScalarFields_after_delete
                |apply deleteScalarField_roles_ok; exact Hroles|].
    destruct (decide (length (PointCloud.m_scalarFields c) = 0)) as [H0|H0].
    + rewrite deleteScalarField_out_of_range by lia. lia.
    + rewrite deleteScalarField_length by lia. lia.
Qed.

End DeleteAll.

Lemma deleteScalarField_of_every_field_is_deleteAllScalarFields_witness :
  Nat.iter 3 (PointCloud.deleteScalarField 0) Float32.enabled
  = PointCloud.deleteAllScalarFields Float32.enabled.
Proof.
  apply (@deleteScalarField_of_every_field_is_deleteAllScalarFields Float32.platform).
  - apply reachable_roles_ok. unfold Float32.enabled.
    apply reachable_run_all. constructor.
  - vm_compute. lia.
Defined.

(** ** [forEach] *)

Section ForEach.
Context {P : Platform}.
Implicit Types (action : CCVector3 → ScalarType → ScalarType).

Lemma forEach_values_length action pts : ∀ vals,
  length (PointCloud.forEach_values action pts vals) = length vals.
Proof.
  induction pts as [|p pts IH]; intros [|v vals]; simpl; try reflexivity.
  rewrite IH. reflexivity.
Qed.

Lemma forEach_values_lookup action pts : ∀ vals i p v,
  pts !! i = Some p → vals !! i = Some v →
  PointCloud.forEach_values action pts vals !! i = Some (action p v).
Proof.
  induction pts as [|q pts IH]; intros [|w vals] [|i] p v Hp Hv;
    simpl in *; try discriminate.
  - congruence.
  - eapply IH; eassumption.
Qed.

Lemma forEach_values_beyond action pts : ∀ vals i,
  length pts ≤ i → PointCloud.forEach_values action pts vals !! i = vals !! i.
Proof.
  induction pts as [|q pts IH]; intros [|w vals] [|i] Hi; simpl in *;
    try reflexivity; try lia.
  apply IH. lia.
Qed.

Lemma forEach_values_compose g h pts : ∀ vals,
  PointCloud.forEach_values g pts (PointCloud.forEach_values h pts vals)
  = PointCloud.forEach_values (λ p v, g p (h p v)) pts vals.
Proof.
  induction pts as [|q pts IH]; intros [|w vals]; simpl; try reflexivity.
  rewrite IH. reflexivity.
Qed.

Lemma forEach_values_id pts : ∀ vals : list ScalarType,
  PointCloud.forEach_values (λ _ v, v) pts vals = vals.
Proof.
  induction pts as [|q pts IH]; intros [|w vals]; simpl; try reflexivity.
  rewrite IH. reflexivity.
Qed.

Lemma forEach_designated action f (c : PointCloud.t) :
  PointCloud.getCurrentOutScalarField c = Some f →
  PointCloud.forEach action c
  = PointCloud.set_scalarFields
      (<[Z.to_nat (PointCloud.m_currentOutScalarFieldIndex c) :=
           ScalarField.mk (ScalarField.name f)
             (PointCloud.forEach_values action (PointCloud.m_points c) (ScalarField.values f))
             (ScalarField.minVal f) (ScalarField.maxVal f)]> (PointCloud.m_scalarFields c)) c
  ∧ PointCloud.getCurrentOutScalarField (PointCloud.forEach action c)
    = Some (ScalarField.mk (ScalarField.name f)
              (PointCloud.forEach_values action (PointCloud.m_points c) (ScalarField.values f))
              (ScalarField.minVal f) (ScalarField.maxVal f)).
Proof.
  intros Hf. unfold PointCloud.forEach. rewrite Hf. split; [reflexivity|].
  unfold PointCloud.getCurrentOutScalarField in *.
  cbn [PointCloud.m_currentOutScalarFieldIndex PointCloud.set_scalarFields].
  eapply getScalarField_replace_same. exact Hf.
Qed.

Lemma forEach_undesignated action (c : PointCloud.t) :
  PointCloud.getCurrentOutScalarField c = None → PointCloud.forEach action c = c.
Proof. intros H. unfold PointCloud.forEach. rewrite H. reflexivity. Qed.


Lemma set_scalarFields_same (c : PointCloud.t) :
  PointCloud.set_scalarFields (PointCloud.m_scalarFields c) c = c.
Proof. destruct c; reflexivity. Qed.

(** X10. [forEach] does nothing without an output field. With one, it
    replaces the scalar of each point, as [getPointScalarValue] reads it,
    by what the action makes of the point and that scalar, and leaves the
    slots past the last point, the name, length and recorded min/max of the
    output field, the other fields, the points and the roles as they are.
    Two passes are one pass with the composed action, and the action that
    returns the scalar unchanged leaves the cloud unchanged. *)
Theorem forEach_applies_the_action_to_each_point :
  (∀ action (c : PointCloud.t),
     PointCloud.getCurrentOutScalarField c = None → PointCloud.forEach action c = c)
  ∧ (∀ action (c : PointCloud.t) i p v,
       PointCloud.m_points c !! i = Some p →
       PointCloud.getPointScalarValue i c = Some v →
       PointCloud.getPointScalarValue i (PointCloud.forEach action c) = Some (action p v))
  ∧ (∀ action (c : PointCloud.t) i,
       PointCloud.size c ≤ i →
       PointCloud.getPointScalarValue i (PointCloud.forEach action c)
       = PointCloud.getPointScalarValue i c)
  ∧ (∀ action (c : PointCloud.t) f,
       PointCloud.getCurrentOutScalarField c = Some f →
       ∃ f', PointCloud.getCurrentOutScalarField (PointCloud.forEach action c) = Some f'
         ∧ ScalarField.name f' = ScalarField.name f
         ∧ ScalarField.size f' = ScalarField.size f
         ∧ ScalarField.minVal f' = ScalarField.minVal f
         ∧ ScalarField.maxVal f' = ScalarField.maxVal f)
  ∧ (∀ action (c : PointCloud.t) index,
       index ≠ PointCloud.m_currentOutScalarFieldIndex c →
       PointCloud.getScalarField index (PointCloud.forEach action c)
       = PointCloud.getScalarField index c)
  ∧ (∀ action (c : PointCloud.t),
       PointCloud.forEach action c
       = PointCloud.set_scalarFields
           (PointCloud.m_scalarFields (PointCloud.forEach action c)) c)
  ∧ (∀ g h (c : PointCloud.t),
       PointCloud.forEach g (PointCloud.forEach h c)
       = PointCloud.forEach (λ p v, g p (h p v)) c)
  ∧ (∀ c : PointCloud.t, PointCloud.forEach (λ _ v, v) c = c).
Proof.
  refine (conj forEach_undesignated
            (conj _ (conj _ (conj _ (conj _ (conj _ (conj _ _))))))).
  - intros action c i p v Hp Hv. unfold PointCloud.getPointScalarValue in *.
    destruct (PointCloud.getCurrentOutScalarField c) as [f|] eqn:Hf; [|discriminate].
    destruct (forEach_designated action f c Hf) as [_ ->].
    unfold ScalarField.getValue in *. cbn [ScalarField.values].
    apply forEach_values_lookup; assumption.
  - intros action c i Hi. unfold PointCloud.getPointScalarValue.
    destruct (PointCloud.getCurrentOutScalarField c) as [f|] eqn:Hf.
    + destruct (forEach_designated action f c Hf) as [_ ->].
      unfold ScalarField.getValue. cbn [ScalarField.values].
      apply forEach_values_beyond. exact Hi.
    + rewrite forEach_undesignated, Hf by exact Hf. reflexivity.
  - intros action c f Hf. destruct (forEach_designated action f c Hf) as [_ ->].
    eexists. refine (conj eq_refl (conj eq_refl (conj _ (conj eq_refl eq_refl)))).
    apply forEach_values_length.
  - intros action c index Hne.
    destruct (PointCloud.getCurrentOutScalarField c) as [f|] eqn:Hf.
    + destruct (forEach_designated action f c Hf) as [-> _].
      apply getScalarField_Some in Hf as [H0 _].
      apply getScalarField_replace_other. lia.
    + rewrite forEach_undesignated by exact Hf. reflexivity.
  - intros action c.
    destruct (PointCloud.getCurrentOutScalarField c) as [f|] eqn:Hf.
    + destruct (forEach_designated action f c Hf) as [-> _]. reflexivity.
    + rewrite forEach_undesignated by exact Hf. symmetry. apply set_scalarFields_same.
  - intros g h c.
    destruct (PointCloud.getCurrentOutScalarField c) as [f|] eqn:Hf.
    + destruct (forEach_designated h f c Hf) as [Hh Hout].
      destruct (forEach_designated g _ _ Hout) as [-> _].
      destruct (forEach_designated (λ p v, g p (h p v)) f c Hf) as [-> _].
      rewrite Hh.
      cbn [PointCloud.m_currentOutScalarFieldIndex PointCloud.set_scalarFields
           PointCloud.m_scalarFields PointCloud.m_points ScalarField.name
           ScalarField.values ScalarField.minVal ScalarField.maxVal].
      rewrite list_insert_insert_eq, forEach_values_compose. reflexivity.
    + rewrite (forEach_undesignated h), !forEach_undesignated by exact Hf. reflexivity.
  - intros c.
    destruct (PointCloud.getCurrentOutScalarField c) as [f|] eqn:Hf.
    + destruct (forEach_designated (λ _ v, v) f c Hf) as [-> _].
      rewrite forEach_values_id.
      apply getScalarField_Some in Hf as [_ Hk].
      rewrite list_insert_id; [apply set_scalarFields_same|].
      rewrite Hk. destruct f; reflexivity.
    + apply forEach_undesignated. exact Hf.
Qed.

End ForEach.

Lemma forEach_applies_the_action_to_each_point_witness :
  PointCloud.getPointScalarValue 1 (PointCloud.forEach Scenario.add_x Scenario.roomy)
  = Some (Scenario.add_x (Float32.pt 2 2 2) (Float32.of_Z 5))
  ∧ PointCloud.getPointScalarValue 2 (PointCloud.forEach Scenario.add_x Scenario.roomy)
    = PointCloud.getPointScalarValue 2 Scenario.roomy
  ∧ PointCloud.forEach Scenario.twice Float32.start = Float32.start.
Proof.
  destruct (@forEach_applies_the_action_to_each_point Float32.platform)
    as (H1 & H2 & H3 & _).
  refine (conj (H2 Scenario.add_x Scenario.roomy 1 (Float32.pt 2 2 2) (Float32.of_Z 5)
                  eq_refl eq_refl)
            (conj (H3 Scenario.add_x Scenario.roomy 2 _)
               (H1 Scenario.twice Float32.start eq_refl))).
  vm_compute. lia.
Defined.

(** ** [enableScalarField] and [isScalarFieldEnabled] *)

Section Enabled.
Context {P : Platform}.

(** After a successful [enableScalarField] the input field has as many
    slots as the point vector has capacity. *)
Lemma enableScalarField_sized b d e (c : PointCloud.t) :
  fst (PointCloud.enableScalarField b d e c) = true →
  ∃ f, PointCloud.getCurrentInScalarField (snd (PointCloud.enableScalarField b d e c))
       = Some f
    ∧ ScalarField.size f = PointCloud.m_capacity c.
Proof.
  destruct (PointCloud.getCurrentInScalarField c) as [f0|] eqn:Hin.
  - rewrite (enableScalarField_designated b d e c f0 Hin). cbn [fst snd].
    intros ->. eexists. split; [|apply resizeSafe_size].
    unfold PointCloud.getCurrentInScalarField in *.
    apply getScalarField_Some in Hin as [H0 Hk].
    pose proof (lookup_lt_Some _ _ _ Hk) as Hlt.
    destruct (PointCloud.getCurrentOutScalarField c);
      cbn [PointCloud.m_currentInScalarFieldIndex PointCloud.set_scalarFields
           PointCloud.set_currentOut];
      apply getScalarField_Some; (split; [exact H0|]);
      apply list_lookup_insert_eq; exact Hlt.
  - destruct (getScalarFieldIndexByName_sign "Default" c) as [[Hd _]|[Hd _]].
    + destruct (getScalarFieldIndexByName_present "Default" c Hd) as (k & f0 & Hk & Hf0 & _).
      rewrite (enableScalarField_default_found b d e c k f0 Hin Hk Hf0). cbn [fst snd].
      intros ->. eexists. split; [|apply resizeSafe_size].
      unfold PointCloud.getCurrentInScalarField.
      pose proof (lookup_lt_Some _ _ _ Hf0) as Hlt.
      destruct (PointCloud.getCurrentOutScalarField c);
        cbn [PointCloud.m_currentInScalarFieldIndex PointCloud.set_scalarFields
             PointCloud.set_currentOut PointCloud.set_currentIn];
        apply getScalarField_Some; rewrite Nat2Z.id;
        (split; [lia|]); apply list_lookup_insert_eq; exact Hlt.
    + destruct d; [|rewrite enableScalarField_creation_fails by auto; discriminate].
      destruct (decide (PointCloud.size c = 0)) as [H0|H0].
      * destruct (enableScalarField_default_created b e c Hin Hd (or_introl H0))
          as (f0 & _ & _ & _ & ->). cbn [fst snd]. intros ->.
        eexists. split; [|apply resizeSafe_size].
        unfold PointCloud.getCurrentInScalarField.
        match goal with |- context [match ?x with _ => _ end] => destruct x end;
          cbn [PointCloud.m_currentInScalarFieldIndex PointCloud.set_scalarFields
               PointCloud.set_currentOut PointCloud.set_currentIn];
          apply getScalarField_Some; rewrite Nat2Z.id;
          (split; [lia|]); apply list_lookup_middle; reflexivity.
      * destruct b;
          [|rewrite enableScalarField_creation_fails by auto; discriminate].
        destruct (enableScalarField_default_created true e c Hin Hd (or_intror eq_refl))
          as (f0 & _ & _ & _ & ->). cbn [fst snd]. intros ->.
        eexists. split; [|apply resizeSafe_size].
        unfold PointCloud.getCurrentInScalarField.
        match goal with |- context [match ?x with _ => _ end] => destruct x end;
          cbn [PointCloud.m_currentInScalarFieldIndex PointCloud.set_scalarFields
               PointCloud.set_currentOut PointCloud.set_currentIn];
          apply getScalarField_Some; rewrite Nat2Z.id;
          (split; [lia|]); apply list_lookup_middle; reflexivity.
Qed.

Lemma addPoints_fields ps : ∀ c : PointCloud.t,
  PointCloud.getCurrentInScalarField (PointCloud.run_all (map PointCloud.AddPoint ps) c)
  = PointCloud.getCurrentInScalarField c.
Proof.
  induction ps as [|p ps IH]; intros c; [reflexivity|].
  change (PointCloud.run_all (map PointCloud.AddPoint (p :: ps)) c)
    with (PointCloud.run_all (map PointCloud.AddPoint ps) (PointCloud.addPoint p c)).
  rewrite IH. unfold PointCloud.getCurrentInScalarField, PointCloud.getScalarField.
  destruct (addPoint_fields p c) as (-> & -> & _). reflexivity.
Qed.

(** Whether the input field is still enabled after points were added. *)
Lemma isScalarFieldEnabled_after_addPoint ps (c : PointCloud.t) :
  PointCloud.isScalarFieldEnabled (PointCloud.run_all (map PointCloud.AddPoint ps) c)
  = match PointCloud.getCurrentInScalarField c with
    | None => false
    | Some f =>
        negb (ScalarField.size f =? 0)
        && (PointCloud.size c + length ps <=? ScalarField.size f)
    end.
Proof.
  unfold PointCloud.isScalarFieldEnabled. rewrite addPoints_fields.
  destruct (PointCloud.getCurrentInScalarField c); [|reflexivity].
  rewrite addPoint_run_all, length_app, length_map. reflexivity.
Qed.

Lemma getScalarField_map index (h : ScalarField.t → ScalarField.t) (c c' : PointCloud.t) :
  PointCloud.m_scalarFields c' = map h (PointCloud.m_scalarFields c) →
  PointCloud.getScalarField index c' = h <$> PointCloud.getScalarField index c.
Proof.
  intros H. unfold PointCloud.getScalarField. rewrite H, length_map.
  destruct ((0 <=? index)%Z && (index <? Z.of_nat (length (PointCloud.m_scalarFields c)))%Z);
    [|reflexivity].
  apply list_lookup_fmap.
Qed.

(** X11. After [enableScalarField] returned [true] the input field has as
    many slots as the point vector has capacity. [isScalarFieldEnabled]
    then answers [true] exactly when that capacity is not 0 and covers the
    points: on a cloud without capacity the call succeeds and no field is
    enabled, and points added afterwards keep the field enabled until they
    exceed the capacity it was sized to. *)
Theorem enableScalarField_enables_up_to_the_capacity b d e (c : PointCloud.t) :
  fst (PointCloud.enableScalarField b d e c) = true →
  (∃ f, PointCloud.getCurrentInScalarField (snd (PointCloud.enableScalarField b d e c))
        = Some f
     ∧ ScalarField.size f = PointCloud.m_capacity c)
  ∧ (∀ ps,
       PointCloud.isScalarFieldEnabled
         (PointCloud.run_all (map PointCloud.AddPoint ps)
            (snd (PointCloud.enableScalarField b d e c)))
       = negb (PointCloud.m_capacity c =? 0)
         && (PointCloud.size c + length ps <=? PointCloud.m_capacity c))
  ∧ (PointCloud.size c ≤ PointCloud.m_capacity c →
       PointCloud.isScalarFieldEnabled (snd (PointCloud.enableScalarField b d e c))
       = negb (PointCloud.m_capacity c =? 0)).
Proof.
  intros Hok. destruct (enableScalarField_sized b d e c Hok) as (f & Hf & Hsize).
  assert (Hps : ∀ ps,
            PointCloud.isScalarFieldEnabled
              (PointCloud.run_all (map PointCloud.AddPoint ps)
                 (snd (PointCloud.enableScalarField b d e c)))
            = negb (PointCloud.m_capacity c =? 0)
              && (PointCloud.size c + length ps <=? PointCloud.m_capacity c)).
  { intros ps. rewrite isScalarFieldEnabled_after_addPoint, Hf, Hsize.
    unfold PointCloud.size.
    destruct (enableScalarField_vector b d e c) as [-> _]. reflexivity. }
  refine (conj (ex_intro _ f (conj Hf Hsize)) (conj Hps _)).
  intros Hfit. pose proof (Hps []) as H0. cbn [map length] in H0.
  rewrite Nat.add_0_r, (proj2 (Nat.leb_le _ _) Hfit), andb_true_r in H0. exact H0.
Qed.

(** X12. What the other calls make of [isScalarFieldEnabled]: points added
    keep the input field enabled as long as it has a slot for each; the
    deletion of the input field and [deleteAllScalarFields] disable it; a
    successful [resize] to a count other than 0 enables whatever input field
    is designated; [swapPoints] and [applyTransformation] change nothing. *)
Theorem isScalarFieldEnabled_follows_the_input_field :
  (∀ ps (c : PointCloud.t),
     PointCloud.isScalarFieldEnabled (PointCloud.run_all (map PointCloud.AddPoint ps) c)
     = match PointCloud.getCurrentInScalarField c with
       | None => false
       | Some f =>
           negb (ScalarField.size f =? 0)
           && (PointCloud.size c + length ps <=? ScalarField.size f)
       end)
  ∧ (∀ c : PointCloud.t,
       PointCloud.isScalarFieldEnabled
         (PointCloud.deleteScalarField (PointCloud.m_currentInScalarFieldIndex c) c) = false)
  ∧ (∀ c : PointCloud.t,
       PointCloud.isScalarFieldEnabled (PointCloud.deleteAllScalarFields c) = false)
  ∧ (∀ sf_ok n (c : PointCloud.t),
       (∀ j, j < length (PointCloud.m_scalarFields c) → sf_ok j = true) →
       PointCloud.isScalarFieldEnabled (snd (PointCloud.resize true sf_ok n c))
       = match PointCloud.getCurrentInScalarField c with
         | None => false
         | Some _ => negb (n =? 0)
         end)
  ∧ (∀ i j (c : PointCloud.t),
       PointCloud.isScalarFieldEnabled (PointCloud.swapPoints i j c)
       = PointCloud.isScalarFieldEnabled c)
  ∧ (∀ trans (c : PointCloud.t),
       PointCloud.isScalarFieldEnabled (PointCloud.applyTransformation trans c)
       = PointCloud.isScalarFieldEnabled c).
Proof.
  refine (conj isScalarFieldEnabled_after_addPoint (conj _ (conj _ (conj _ (conj _ _))))).
  - intros c.
    destruct (decide (0 ≤ PointCloud.m_currentInScalarFieldIndex c
                      < Z.of_nat (length (PointCloud.m_scalarFields c)))%Z) as [H|H].
    + rewrite deleteScalarField_in_range by exact H.
      unfold PointCloud.isScalarFieldEnabled, PointCloud.getCurrentInScalarField,
        PointCloud.getScalarField, role_after_delete.
      cbn [PointCloud.m_currentInScalarFieldIndex]. rewrite Z.eqb_refl. reflexivity.
    + rewrite deleteScalarField_out_of_range by lia.
      unfold PointCloud.isScalarFieldEnabled, PointCloud.getCurrentInScalarField,
        PointCloud.getScalarField.
      destruct (Z.leb_spec 0 (PointCloud.m_currentInScalarFieldIndex c)); [|reflexivity].
      destruct (Z.ltb_spec (PointCloud.m_currentInScalarFieldIndex c)
                  (Z.of_nat (length (PointCloud.m_scalarFields c)))); [lia|reflexivity].
  - intros c. reflexivity.
  - intros sf_ok n c Hall. rewrite resize_success by exact Hall. cbn [snd].
    unfold PointCloud.isScalarFieldEnabled, PointCloud.getCurrentInScalarField.
    rewrite (getScalarField_map _ (grown n) (PointCloud.resize_points n c)) by reflexivity.
    change (PointCloud.getScalarField
              (PointCloud.m_currentInScalarFieldIndex
                 (PointCloud.set_scalarFields
                    (map (grown n) (PointCloud.m_scalarFields c))
                    (PointCloud.resize_points n c)))
              (PointCloud.resize_points n c))
      with (PointCloud.getScalarField (PointCloud.m_currentInScalarFieldIndex c) c).
    destruct (PointCloud.getScalarField (PointCloud.m_currentInScalarFieldIndex c) c)
      as [f|]; [|reflexivity].
    cbn [fmap option_fmap option_map].
    destruct (grown_facts n f) as (_ & -> & _).
    cbn [PointCloud.m_points PointCloud.set_scalarFields PointCloud.resize_points
         PointCloud.set_capacity PointCloud.set_points].
    rewrite length_resize, Nat.leb_refl. apply andb_true_r.
  - intros i j c.
    destruct (decide (i ≠ j ∧ i < PointCloud.size c ∧ j < PointCloud.size c))
      as [(H1 & H2 & H3)|H].
    + rewrite swapPoints_in_range by assumption.
      unfold PointCloud.isScalarFieldEnabled, PointCloud.getCurrentInScalarField.
      rewrite (getScalarField_map _ (ScalarField.swap i j)
                 (PointCloud.set_points (vector_swap i j (PointCloud.m_points c)) c))
        by reflexivity.
      change (PointCloud.getScalarField _
                (PointCloud.set_points (vector_swap i j (PointCloud.m_points c)) c))
        with (PointCloud.getScalarField (PointCloud.m_currentInScalarFieldIndex c) c).
      destruct (PointCloud.getScalarField (PointCloud.m_currentInScalarFieldIndex c) c)
        as [f|]; [|reflexivity].
      cbn [fmap option_fmap option_map PointCloud.m_points PointCloud.set_scalarFields
           PointCloud.set_points].
      unfold ScalarField.size, ScalarField.swap. cbn [ScalarField.values].
      rewrite !vector_swap_length. reflexivity.
    + rewrite swapPoints_noop; [reflexivity|]. destruct (decide (i = j)); [auto|].
      right. lia.
  - intros trans c.
    unfold PointCloud.isScalarFieldEnabled, PointCloud.getCurrentInScalarField,
      PointCloud.getScalarField.
    destruct (applyTransformation_fields trans c) as (-> & -> & _).
    rewrite applyTransformation_points, length_map. reflexivity.
Qed.

End Enabled.

Lemma enableScalarField_enables_up_to_the_capacity_witness :
  PointCloud.isScalarFieldEnabled
    (snd (PointCloud.enableScalarField true true true Float32.one_field)) = true
  ∧ PointCloud.isScalarFieldEnabled
      (snd (PointCloud.enableScalarField true true true Float32.start)) = false.
Proof.
  destruct (@enableScalarField_enables_up_to_the_capacity Float32.platform
              true true true Float32.one_field eq_refl) as (_ & _ & H1).
  destruct (@enableScalarField_enables_up_to_the_capacity Float32.platform
              true true true Float32.start eq_refl) as (_ & _ & H2).
  split; [apply H1 | apply H2]; vm_compute; lia.
Defined.

Lemma isScalarFieldEnabled_follows_the_input_field_witness :
  PointCloud.isScalarFieldEnabled
    (snd (PointCloud.resize true (Float32.always true) 3 Float32.written)) = true.
Proof.
  destruct (@isScalarFieldEnabled_follows_the_input_field Float32.platform)
    as (_ & _ & _ & H & _).
  rewrite H; [reflexivity|]. intros j _. reflexivity.
Defined.

(** ** [resize] once the fields are aligned *)

Section ResizeAligned.
Context {P : Platform}.

Lemma first_failure_or_none sf_ok n :
  (∀ j, j < n → sf_ok j = true) ∨ ∃ i, i < n ∧ first_failure sf_ok i.
Proof.
  induction n as [|n [Hall|(i & Hi & Hf)]].
  - left. intros j Hj. lia.
  - destruct (sf_ok n) eqn:Hn.
    + left. intros j Hj. destruct (decide (j = n)) as [->|]; [exact Hn|apply Hall; lia].
    + right. exists n. split; [lia|]. split; [exact Hn|exact Hall].
  - right. exists i. split; [lia|exact Hf].
Qed.

Lemma grown_values n (f : ScalarField.t) :
  ScalarField.values (grown n f)
  = take n (ScalarField.values f) ++ replicate (n - ScalarField.size f) s_zero.
Proof. unfold grown. simpl. apply resize_spec. Qed.

(** X13. A [resize] whose allocations are all served returns [true] and
    aligns the cloud: [newCount] points, the old ones first and the origin
    for the new ones, and in every field [newCount] slots, the old values
    first and 0 for the new ones, with min/max up to date and the name
    kept. From such a cloud a later [resize] to a count that is not smaller
    and that fails gives back the same points and the same fields. *)
Theorem resize_aligns_and_then_rolls_back_exactly sf_ok n (c : PointCloud.t) :
  (∀ j, j < length (PointCloud.m_scalarFields c) → sf_ok j = true) →
  fst (PointCloud.resize true sf_ok n c) = true
  ∧ PointCloud.m_points (snd (PointCloud.resize true sf_ok n c))
    = take n (PointCloud.m_points c) ++ replicate (n - PointCloud.size c) origin
  ∧ PointCloud.size (snd (PointCloud.resize true sf_ok n c)) = n
  ∧ (∀ k f, PointCloud.m_scalarFields c !! k = Some f →
       ∃ f', PointCloud.m_scalarFields (snd (PointCloud.resize true sf_ok n c)) !! k = Some f'
         ∧ ScalarField.name f' = ScalarField.name f
         ∧ ScalarField.values f'
           = take n (ScalarField.values f) ++ replicate (n - ScalarField.size f) s_zero
         ∧ ScalarField.size f' = n
         ∧ ScalarField.up_to_date f')
  ∧ length (PointCloud.m_scalarFields (snd (PointCloud.resize true sf_ok n c)))
    = length (PointCloud.m_scalarFields c)
  ∧ (∀ pts_ok' sf_ok' m, n ≤ m →
       fst (PointCloud.resize pts_ok' sf_ok' m (snd (PointCloud.resize true sf_ok n c)))
       = false →
       PointCloud.m_points
         (snd (PointCloud.resize pts_ok' sf_ok' m (snd (PointCloud.resize true sf_ok n c))))
       = PointCloud.m_points (snd (PointCloud.resize true sf_ok n c))
       ∧ PointCloud.m_scalarFields
           (snd (PointCloud.resize pts_ok' sf_ok' m (snd (PointCloud.resize true sf_ok n c))))
         = PointCloud.m_scalarFields (snd (PointCloud.resize true sf_ok n c))).
Proof.
  intros Hall. rewrite resize_success by exact Hall. cbn [fst snd].
  set (c' := PointCloud.set_scalarFields (map (grown n) (PointCloud.m_scalarFields c))
               (PointCloud.resize_points n c)).
  assert (Hpts : PointCloud.m_points c' = list.resize n origin (PointCloud.m_points c))
    by reflexivity.
  assert (Hfs : PointCloud.m_scalarFields c' = map (grown n) (PointCloud.m_scalarFields c))
    by reflexivity.
  assert (Hsize : PointCloud.size c' = n).
  { unfold PointCloud.size. rewrite Hpts. apply length_resize. }
  refine (conj eq_refl (conj _ (conj Hsize (conj _ (conj _ _))))).
  - rewrite Hpts. apply resize_spec.
  - intros k f Hk. exists (grown n f). rewrite Hfs.
    change (map (grown n)) with (fmap (M:=list) (grown n)).
    rewrite list_lookup_fmap, Hk.
    destruct (grown_facts n f) as (Hn & Hs & Hu).
    refine (conj eq_refl (conj Hn (conj (grown_values n f) (conj Hs Hu)))).
  - rewrite Hfs. apply length_map.
  - intros pts_ok' sf_ok' m Hm. destruct pts_ok'.
    + destruct (first_failure_or_none sf_ok' (length (PointCloud.m_scalarFields c')))
        as [Hok|(i & Hi & Hfail)].
      * rewrite resize_success by exact Hok. discriminate.
      * rewrite (resize_failure sf_ok' m c' i Hi Hfail). cbn [fst snd]. intros _.
        cbn [PointCloud.m_points PointCloud.m_scalarFields PointCloud.resize_points
             PointCloud.set_capacity PointCloud.set_points PointCloud.set_scalarFields].
        split.
        -- fold c'. rewrite resize_resize by (rewrite Hsize; exact Hm).
           unfold PointCloud.size. apply resize_all.
        -- fold c'. apply rolled_back_identity; [rewrite Hsize; exact Hm|].
           intros j f _ Hj. rewrite Hfs in Hj.
           change (map (grown n)) with (fmap (M:=list) (grown n)) in Hj.
           rewrite list_lookup_fmap in Hj.
           destruct (PointCloud.m_scalarFields c !! j) as [g|]; [|discriminate].
           injection Hj as <-. destruct (grown_facts n g) as (_ & Hs & Hu).
           rewrite Hsize. split; [exact Hs|exact Hu].
    + rewrite resize_alloc_fails. intros _. split; reflexivity.
Qed.

End ResizeAligned.

Lemma resize_aligns_and_then_rolls_back_exactly_witness :
  PointCloud.size (snd (PointCloud.resize true (Float32.always true) 2 Float32.unaligned))
  = 2
  ∧ PointCloud.m_scalarFields
      (snd (PointCloud.resize true Float32.only_first 3
              (snd (PointCloud.resize true (Float32.always true) 2 Float32.unaligned))))
    = PointCloud.m_scalarFields
        (snd (PointCloud.resize true (Float32.always true) 2 Float32.unaligned)).
Proof.
  destruct (@resize_aligns_and_then_rolls_back_exactly Float32.platform
              (Float32.always true) 2 Float32.unaligned) as (_ & _ & H3 & _ & _ & H6).
  { intros j _. reflexivity. }
  split; [exact H3|].
  apply (H6 true Float32.only_first 3); [lia|reflexivity].
Defined.

(** ** [invalidateBoundingBox] *)

Section Invalidate.
Context {P : Platform} {O : OrderLaws P}.

(** X14. After [invalidateBoundingBox] the next [getBoundingBox] recomputes
    the corners from the points alone, whatever the cache held: they are the
    exact box of a cloud that is not empty, also where a [resize] had left a
    stale cache, and the origin twice for an empty cloud. The call changes
    nothing but the validity flag and is idempotent. *)
Theorem invalidateBoundingBox_forces_an_exact_box (c : PointCloud.t) :
  (PointCloud.m_points c ≠ [] → reports_exact_box (PointCloud.invalidateBoundingBox c))
  ∧ (PointCloud.m_points c = [] →
       fst (PointCloud.getBoundingBox (PointCloud.invalidateBoundingBox c))
       = (origin, origin))
  ∧ (∀ b, fst (PointCloud.getBoundingBox
                 (PointCloud.invalidateBoundingBox (PointCloud.set_bbox b c)))
          = fst (PointCloud.getBoundingBox (PointCloud.invalidateBoundingBox c)))
  ∧ cache_coherent (PointCloud.invalidateBoundingBox c)
  ∧ PointCloud.invalidateBoundingBox (PointCloud.invalidateBoundingBox c)
    = PointCloud.invalidateBoundingBox c
  ∧ PointCloud.invalidateBoundingBox c
    = PointCloud.set_bbox
        (BoundingBox.mk (BoundingBox.minCorner (PointCloud.m_bbox c))
           (BoundingBox.maxCorner (PointCloud.m_bbox c)) false) c.
Proof.
  assert (Hcoh : cache_coherent (PointCloud.invalidateBoundingBox c))
    by (intros H; discriminate H).
  refine (conj _ (conj _ (conj _ (conj Hcoh (conj eq_refl eq_refl))))).
  - intros Hne. apply getBoundingBox_reports_exact; [exact Hne|exact Hcoh].
  - intros Hnil. unfold PointCloud.getBoundingBox.
    cbn [PointCloud.invalidateBoundingBox PointCloud.m_bbox PointCloud.set_bbox
         PointCloud.m_points BoundingBox.isValid BoundingBox.setValidity
         BoundingBox.m_valid negb fst].
    rewrite Hnil. reflexivity.
  - intros b. reflexivity.
Qed.

End Invalidate.

Lemma invalidateBoundingBox_forces_an_exact_box_witness :
  reports_exact_box (PointCloud.invalidateBoundingBox Float32.resized_after_box).
Proof.
  apply (@invalidateBoundingBox_forces_an_exact_box Float32.platform float32_order).
  vm_compute. discriminate.
Defined.

(** ** [renameScalarField] there and back *)

Section RenameBack.
Context {P : Platform}.

Lemma setName_back nm (f : ScalarField.t) :
  ScalarField.setName (ScalarField.name f) (ScalarField.setName nm f) = f.
Proof. destruct f; reflexivity. Qed.

(** X15. A successful [renameScalarField] can be looked up and undone: the
    field is found under the new name at its index, its old name is not
    found any more, and renaming it back gives the cloud as it was. The
    names have to be pairwise distinct, as they are in every reachable
    cloud. *)
Theorem renameScalarField_can_be_undone index nm f (c : PointCloud.t) :
  NoDup (field_names c) →
  PointCloud.getScalarField index c = Some f →
  nm ∉ field_names c →
  fst (PointCloud.renameScalarField index nm c) = true
  ∧ PointCloud.getScalarFieldName index (snd (PointCloud.renameScalarField index nm c))
    = Some nm
  ∧ PointCloud.getScalarFieldIndexByName nm (snd (PointCloud.renameScalarField index nm c))
    = index
  ∧ PointCloud.getScalarFieldIndexByName (ScalarField.name f)
      (snd (PointCloud.renameScalarField index nm c)) = (-1)%Z
  ∧ PointCloud.renameScalarField index (ScalarField.name f)
      (snd (PointCloud.renameScalarField index nm c))
    = (true, c).
Proof.
  intros Hnd Hf Hfresh.
  pose proof (renameScalarField_names index nm c Hnd) as Hnd'.
  rewrite (renameScalarField_fresh index nm c f Hfresh Hf) in *. cbn [fst snd] in *.
  pose proof (proj1 (getScalarField_Some _ _ _) Hf) as [H0 Hk].
  pose proof (lookup_lt_Some _ _ _ Hk) as Hlt.
  set (c1 := PointCloud.set_scalarFields
               (<[Z.to_nat index := ScalarField.setName nm f]> (PointCloud.m_scalarFields c))
               c) in *.
  assert (Hnames : field_names c1 = <[Z.to_nat index := nm]> (field_names c))
    by apply field_names_insert.
  assert (Hname : PointCloud.getScalarFieldName index c1 = Some nm).
  { apply getScalarFieldName_Some. split; [exact H0|]. rewrite Hnames.
    apply list_lookup_insert_eq. rewrite field_names_length. exact Hlt. }
  assert (Hold : ScalarField.name f ∉ field_names c1).
  { rewrite Hnames. intros Hin. apply list_elem_of_lookup in Hin as [j Hj].
    assert (Hkn : field_names c !! Z.to_nat index = Some (ScalarField.name f)).
    { unfold field_names. rewrite list_lookup_fmap, Hk. reflexivity. }
    destruct (decide (j = Z.to_nat index)) as [->|Hne].
    - rewrite list_lookup_insert_eq in Hj by (rewrite field_names_length; exact Hlt).
      injection Hj as Hj. apply Hfresh. rewrite Hj. eapply field_in_names. exact Hk.
    - rewrite list_lookup_insert_ne in Hj by congruence.
      apply Hne. exact (proj1 (NoDup_alt _) Hnd _ _ _ Hj Hkn). }
  refine (conj eq_refl (conj Hname (conj _ (conj _ _)))).
  - apply getScalarFieldIndexByName_of_name; assumption.
  - apply getScalarFieldIndexByName_absent. exact Hold.
  - rewrite (renameScalarField_fresh index (ScalarField.name f) c1
               (ScalarField.setName nm f) Hold).
    + unfold c1. cbn [PointCloud.m_scalarFields PointCloud.set_scalarFields].
      rewrite list_insert_insert_eq, setName_back, list_insert_id by exact Hk.
      f_equal. exact (set_scalarFields_same c).
    + unfold c1. eapply getScalarField_replace_same. exact Hf.
Qed.

End RenameBack.

Lemma renameScalarField_can_be_undone_witness :
  PointCloud.getScalarFieldIndexByName "C"
    (snd (PointCloud.renameScalarField 0 "C" Float32.aligned)) = 0%Z
  ∧ PointCloud.renameScalarField 0 "A"
      (snd (PointCloud.renameScalarField 0 "C" Float32.aligned))
    = (true, Float32.aligned).
Proof.
  destruct (@renameScalarField_can_be_undone Float32.platform 0%Z "C"
              (@ScalarField.mk Float32.platform "A" [S754_zero false]
                 (S754_zero false) (S754_zero false))
              Float32.aligned) as (_ & _ & H3 & _ & H5).
  - apply reachable_names_unique. unfold Float32.aligned.
    apply reachable_run_all. constructor.
  - reflexivity.
  - vm_compute. intros H. repeat (apply elem_of_cons in H as [H|H]; [discriminate H|]).
    apply elem_of_nil in H. exact H.
  - split; [exact H3|exact H5].
Defined.

(** ** [applyTransformation] and [swapPoints] *)

Section Commute.
Context {P : Platform}.

(** X16. [applyTransformation] and [swapPoints] commute: transforming the
    points and exchanging two of them (with their scalars) can be done in
    either order, the bounding-box cache included. *)
Theorem applyTransformation_commutes_with_swapPoints trans i j (c : PointCloud.t) :
  PointCloud.applyTransformation trans (PointCloud.swapPoints i j c)
  = PointCloud.swapPoints i j (PointCloud.applyTransformation trans c).
Proof.
  assert (Hlen : length (PointCloud.m_points (PointCloud.applyTransformation trans c))
                 = length (PointCloud.m_points c))
    by (rewrite applyTransformation_points; apply length_map).
  unfold PointCloud.swapPoints. rewrite Hlen.
  destruct ((i =? j) || (length (PointCloud.m_points c) <=? i)
            || (length (PointCloud.m_points c) <=? j)); [reflexivity|].
  unfold PointCloud.applyTransformation, PointCloud.translation_pass,
    PointCloud.rotation_pass, PointCloud.scale_pass.
  destruct (PointCloud.scale_applies trans), (PointCloud.rotation_applies trans),
    (PointCloud.translation_applies trans);
    cbn [PointCloud.m_points PointCloud.m_scalarFields PointCloud.set_points
         PointCloud.set_scalarFields PointCloud.invalidateBoundingBox PointCloud.set_bbox
         PointCloud.m_bbox PointCloud.m_capacity PointCloud.m_currentPointIndex
         PointCloud.m_currentInScalarFieldIndex PointCloud.m_currentOutScalarFieldIndex];
    rewrite ?vector_swap_map; reflexivity.
Qed.

End Commute.
